(** * FermiNet: Hartree-Fock pretraining utilities (ferminet/pretrain.py)

    A shallow embedding of [get_hf], [eval_orbitals], [eval_slater],
    [make_pretrain_step] and [pretrain_hartree_fock].

    Arrays are NumPy arrays in C order: a shape and a flat buffer.  The scalar
    type (the floating-point numbers of the program) is kept abstract: no
    algebraic law is assumed about it, so every statement below holds for
    whatever arithmetic the scalars really have. *)

From Stdlib Require Import String ZArith QArith Lia Bool Arith PeanoNat List.
Import ListNotations.

Close Scope Q_scope.
Open Scope nat_scope.
Set Implicit Arguments.

(** ** Python exceptions and results *)

Inductive exn : Type :=
| ValueError (msg : string)
| Chained (e cause : exn)   (* [raise e from cause] *)
| TypeError
| AttributeError
| IndexError
| LinAlgError.

(** The exception itself, under the causes chained to it. *)
Fixpoint unchained (e : exn) : exn :=
  match e with
  | Chained e' _ => unchained e'
  | _ => e
  end.

(** [isinstance(e, AttributeError)], as an [except AttributeError] clause
    tests it: a cause chained to the exception does not change its class. *)
Definition is_AttributeError (e : exn) : bool :=
  match unchained e with
  | AttributeError => true
  | _ => false
  end.

Inductive result (A : Type) : Type :=
| Ok (a : A)
| Raise (e : exn).

Arguments Ok {A} a.
Arguments Raise {A} e.

Definition bind {A B : Type} (m : result A) (k : A -> result B) : result B :=
  match m with
  | Ok a => k a
  | Raise e => Raise e
  end.

Notation "x <- m ;; k" := (bind m (fun x => k))
  (at level 61, m at next level, right associativity).
Notation "' p <- m ;; k" := (bind m (fun p => k))
  (at level 61, p pattern, m at next level, right associativity).

(** [[f(x) for x in xs]] where [f] may raise. *)
Fixpoint mapM {A B : Type} (f : A -> result B) (xs : list A) : result (list B) :=
  match xs with
  | [] => Ok []
  | x :: xs' => y <- f x ;; ys <- mapM f xs' ;; Ok (y :: ys)
  end.

(** ** Shapes and C-order indexing *)

Module Shape.

Definition t := list nat.

Fixpoint prod (s : t) : nat :=
  match s with
  | [] => 1
  | d :: s' => d * prod s'
  end.

(** Flat offset of a multi-index (row-major). *)
Fixpoint ravel (s : t) (idx : list nat) : nat :=
  match s, idx with
  | d :: s', i :: idx' => i * prod s' + ravel s' idx'
  | _, _ => 0
  end.

(** Multi-index of a flat offset. *)
Fixpoint unravel (s : t) (k : nat) : list nat :=
  match s with
  | [] => []
  | d :: s' => (k / prod s') :: unravel s' (k mod prod s')
  end.

Fixpoint in_bounds (s : t) (idx : list nat) : bool :=
  match s, idx with
  | [], [] => true
  | d :: s', i :: idx' => (i <? d) && in_bounds s' idx'
  | _, _ => false
  end.

(** [s[:-1]] on a tuple. *)
Definition init (s : t) : t := removelast s.

(** NumPy broadcasting of two extents: equal, or one of them 1. *)
Definition broadcast_dim (d1 d2 : nat) : option nat :=
  if d1 =? d2 then Some d1
  else if d1 =? 1 then Some d2
  else if d2 =? 1 then Some d1
  else None.

(** NumPy broadcasting of two shapes, aligned on the right. *)
Fixpoint broadcast_rev (r1 r2 : t) : option t :=
  match r1, r2 with
  | [], r => Some r
  | r, [] => Some r
  | d1 :: t1, d2 :: t2 =>
      match broadcast_rev t1 t2, broadcast_dim d1 d2 with
      | Some r, Some d => Some (d :: r)
      | _, _ => None
      end
  end.

Definition broadcast (s1 s2 : t) : option t :=
  option_map (@rev nat) (broadcast_rev (rev s1) (rev s2)).

(** The index into an operand of shape [s] that a result index [idx] reads:
    the trailing [length s] components, with 0 along axes of extent 1. *)
Definition bindex (s : t) (idx : list nat) : list nat :=
  map (fun di => if fst di =? 1 then 0 else snd di)
      (combine s (skipn (length idx - length s) idx)).

End Shape.

(** ** Arrays *)

Record ndarray (R : Type) : Type := mk_ndarray {
  shape : Shape.t;
  data : list R
}.

Arguments mk_ndarray {R} shape data.

Definition wf {R : Type} (a : ndarray R) : Prop :=
  length (data a) = Shape.prod (shape a).

Definition size {R : Type} (a : ndarray R) : nat := Shape.prod (shape a).

(** Element at a multi-index, [None] when out of range. *)
Definition get {R : Type} (a : ndarray R) (idx : list nat) : option R :=
  if Shape.in_bounds (shape a) idx
  then nth_error (data a) (Shape.ravel (shape a) idx)
  else None.

(** ** The NumPy / jax.numpy operations the program uses *)

Module Np.

Section Ops.
Context {R : Type}.

(** The array of shape [s] whose entry at [idx] is [f idx].  Entries are
    listed in C order; [f] is defined on every index within [s] in all uses
    on well-formed arrays. *)
Definition gather (s : Shape.t) (f : list nat -> option R) : ndarray R :=
  mk_ndarray s
    (flat_map (fun k => match f (Shape.unravel s k) with
                        | Some x => [x]
                        | None => []
                        end)
              (seq 0 (Shape.prod s))).

(** Product of the known (non-negative) extents of a requested shape. *)
Definition known_prod (newshape : list Z) : nat :=
  fold_right (fun d acc => if (d <? 0)%Z then acc else Z.to_nat d * acc) 1 newshape.

Definition unknown_count (newshape : list Z) : nat :=
  List.length (filter (fun d => (d <? 0)%Z) newshape).

(** [np.reshape(a, newshape)]: at most one extent may be negative and is then
    inferred; inference fails when the known extents multiply to zero or do
    not divide the size.  [err] is the exception of the array library at
    hand. *)
Definition reshape_with (err : exn) (a : ndarray R) (newshape : list Z)
  : result (ndarray R) :=
  let known := known_prod newshape in
  match unknown_count newshape with
  | 0 => if size a =? known
         then Ok (mk_ndarray (map Z.to_nat newshape) (data a))
         else Raise err
  | 1 => if (known =? 0) || negb (size a mod known =? 0)
         then Raise err
         else Ok (mk_ndarray
                    (map (fun d => if (d <? 0)%Z then size a / known else Z.to_nat d)
                         newshape)
                    (data a))
  | _ => Raise err
  end.

Definition reshape := reshape_with (ValueError "cannot reshape array").

(** [a[..., r0:r1, :c1]] with [r1 = None] for an open end. *)
Definition slice_last2 (a : ndarray R) (r0 : nat) (r1 : option nat) (c1 : nat)
  : result (ndarray R) :=
  match rev (shape a) with
  | cols :: rows :: rlead =>
      let lead := rev rlead in
      let stop := match r1 with Some r => Nat.min r rows | None => rows end in
      let start := Nat.min r0 rows in
      let nlead := List.length lead in
      Ok (gather (lead ++ [stop - start; Nat.min c1 cols])
            (fun idx =>
               match skipn nlead idx with
               | [i; j] => get a (firstn nlead idx ++ [start + i; j])
               | _ => None
               end))
  | _ => Raise IndexError
  end.

(** [a[:, None, ...]] *)
Definition expand_dims1 (a : ndarray R) : result (ndarray R) :=
  match shape a with
  | d :: s => Ok (mk_ndarray (d :: 1 :: s) (data a))
  | [] => Raise IndexError
  end.

(** [a.shape[i]] for a non-negative [i], [a.shape[-1]]. *)
Definition shape_at (a : ndarray R) (i : nat) : result nat :=
  match nth_error (shape a) i with
  | Some d => Ok d
  | None => Raise IndexError
  end.

Definition shape_last (a : ndarray R) : result nat :=
  match rev (shape a) with
  | d :: _ => Ok d
  | [] => Raise IndexError
  end.

(** [a[0]]: the first sub-array along the leading axis. *)
Definition index0 (a : ndarray R) : result (ndarray R) :=
  match shape a with
  | d :: s => if d =? 0 then Raise IndexError
              else Ok (mk_ndarray s (firstn (Shape.prod s) (data a)))
  | [] => Raise IndexError
  end.

(** [xs[i]] on a Python sequence. *)
Definition item {A : Type} (xs : list A) (i : nat) : result A :=
  match nth_error xs i with
  | Some x => Ok x
  | None => Raise IndexError
  end.

(** Replace the extent counted [ax] from the end (0 is the last axis). *)
Fixpoint set_extent_rev (rs : Shape.t) (ax : nat) (d : nat) : Shape.t :=
  match rs, ax with
  | [], _ => []
  | _ :: t, 0 => d :: t
  | x :: t, S ax' => x :: set_extent_rev t ax' d
  end.

Definition shape_eqb (s1 s2 : Shape.t) : bool :=
  if list_eq_dec Nat.eq_dec s1 s2 then true else false.

(** [jnp.concatenate((a, b), axis=-(ax+1))] *)
Definition concatenate_back (err : exn) (ax : nat) (a b : ndarray R)
  : result (ndarray R) :=
  let ra := rev (shape a) in
  let rb := rev (shape b) in
  match nth_error ra ax, nth_error rb ax with
  | Some da, Some db =>
      if shape_eqb (set_extent_rev ra ax 0) (set_extent_rev rb ax 0)
      then
        let s := rev (set_extent_rev ra ax (da + db)) in
        let pos := List.length s - 1 - ax in
        Ok (gather s
              (fun idx =>
                 match nth_error idx pos with
                 | Some i =>
                     if i <? da then get a idx
                     else get b (firstn pos idx ++ (i - da) :: skipn (S pos) idx)
                 | None => None
                 end))
      else Raise err
  | _, _ => Raise err
  end.

(** [jnp.zeros(s)] *)
Definition full (s : Shape.t) (x : R) : ndarray R :=
  mk_ndarray s (repeat x (Shape.prod s)).

(** Elementwise binary operation with broadcasting. *)
Definition broadcast2 (err : exn) (f : R -> R -> R) (a b : ndarray R)
  : result (ndarray R) :=
  match Shape.broadcast (shape a) (shape b) with
  | Some s =>
      Ok (gather s
            (fun idx =>
               match get a (Shape.bindex (shape a) idx),
                     get b (Shape.bindex (shape b) idx) with
               | Some x, Some y => Some (f x y)
               | _, _ => None
               end))
  | None => Raise err
  end.

(** Elementwise unary operation (also array-with-scalar arithmetic). *)
Definition map1 (f : R -> R) (a : ndarray R) : ndarray R :=
  mk_ndarray (shape a) (map f (data a)).

(** All of a list of optional values, if none is missing. *)
Fixpoint sequence_opt {A : Type} (xs : list (option A)) : option (list A) :=
  match xs with
  | [] => Some []
  | Some x :: xs' => option_map (cons x) (sequence_opt xs')
  | None :: _ => None
  end.

(** The [n x m] matrix at leading index [l] of an array of shape
    [lead ++ [n; m]], as a list of rows. *)
Definition matrix_at (a : ndarray R) (l : list nat) : option (list (list R)) :=
  match rev (shape a) with
  | m :: n :: _ =>
      sequence_opt
        (map (fun i => sequence_opt (map (fun j => get a (l ++ [i; j])) (seq 0 m)))
             (seq 0 n))
  | _ => None
  end.

End Ops.
End Np.

(** ** Python values at the interface of [get_hf] and [eval_orbitals] *)

(** Truthiness of an [Optional[...]] argument whose class defines neither
    [__bool__] nor [__len__] (pyscf.gto.Mole, functions): only [None] is
    false. *)
Definition truthy {A : Type} (x : option A) : bool :=
  match x with
  | Some _ => true
  | None => false
  end.

(** [range(n)] *)
Definition range (n : Z) : list Z := map Z.of_nat (seq 0 (Z.to_nat n)).

(** What [eval_orbitals] can be handed as [pos]: a NumPy array, a JAX array,
    or some other object.  Another object is described by what its [copy]
    attribute does; it has no [shape]. *)
Inductive pyobj (R : Type) : Type :=
| NumpyArray (a : ndarray R)            (* isinstance(pos, np.ndarray) *)
| JaxArray (a : ndarray R)              (* a jax Array: copy() gives an equal array *)
| ObjectNoCopy                          (* no copy attribute: None, int, float, str, tuple *)
| ObjectCopyReturns (o : pyobj R)       (* copy() returns o: list, dict, set *)
| ObjectCopyRaises (e : exn).           (* copy() raises e *)

Arguments NumpyArray {R} a.
Arguments JaxArray {R} a.
Arguments ObjectNoCopy {R}.
Arguments ObjectCopyReturns {R} o.
Arguments ObjectCopyRaises {R} e.

(** Arguments of a Python call: positional values, then keywords. *)
Record call_args (V : Type) : Type := mk_call_args {
  positional : list V;
  keywords : list (string * V)
}.

Arguments mk_call_args {V} positional keywords.

(** ** ferminet.envelopes.EnvelopeType *)

Inductive EnvelopeType : Type :=
| PRE_ORBITAL
| PRE_DETERMINANT
| POST_DETERMINANT.

Definition EnvelopeType_eqb (a b : EnvelopeType) : bool :=
  match a, b with
  | PRE_ORBITAL, PRE_ORBITAL => true
  | PRE_DETERMINANT, PRE_DETERMINANT => true
  | POST_DETERMINANT, POST_DETERMINANT => true
  | _, _ => false
  end.

(** ** optax, and ferminet.networks option objects (the fields this file reads) *)

Record GradientTransformation (Params Grads OptState : Type) : Type := {
  init : Params -> OptState;
  update : Grads -> OptState -> Params -> Grads * OptState
}.

Record Envelope (R EnvParams : Type) : Type := {
  apply_type : EnvelopeType;
  apply : ndarray R -> ndarray R -> ndarray R -> EnvParams -> ndarray R
}.

Record FermiNetOptions (R EnvParams : Type) : Type := {
  envelope : Envelope R EnvParams;
  full_det : bool
}.

(** ** Calls into ferminet.utils.scf *)

(** Values passed to the [scf.Scf] constructor. *)
Inductive scf_arg (Atom Mole : Type) : Type :=
| ArgMolecule (m : option (list Atom))
| ArgSpins (n : option (Z * Z))
| ArgBasis (b : option string)
| ArgMole (p : option Mole)
| ArgBool (r : option bool).

Arguments ArgMolecule {Atom Mole} m.
Arguments ArgSpins {Atom Mole} n.
Arguments ArgBasis {Atom Mole} b.
Arguments ArgMole {Atom Mole} p.
Arguments ArgBool {Atom Mole} r.

Inductive scf_call (Scf Atom Mole : Type) : Type :=
| CallInit (args : call_args (scf_arg Atom Mole))   (* scf.Scf(...) *)
| CallRun (self : Scf).                             (* self.run() *)

Arguments CallInit {Scf Atom Mole} args.
Arguments CallRun {Scf Atom Mole} self.

(** A program that calls into scf and returns a value. *)
Inductive prog (Scf Atom Mole A : Type) : Type :=
| Return (a : A)
| NewScf (args : call_args (scf_arg Atom Mole)) (k : Scf -> prog Scf Atom Mole A)
| RunScf (self : Scf) (k : prog Scf Atom Mole A).

Arguments Return {Scf Atom Mole A} a.
Arguments NewScf {Scf Atom Mole A} args k.
Arguments RunScf {Scf Atom Mole A} self k.

(** Sequencing: [x = p; k(x)]. *)
Fixpoint prog_bind {Scf Atom Mole A B : Type} (p : prog Scf Atom Mole A)
    (k : A -> prog Scf Atom Mole B) : prog Scf Atom Mole B :=
  match p with
  | Return a => k a
  | NewScf args f => NewScf args (fun obj => prog_bind (f obj) k)
  | RunScf self q => RunScf self (prog_bind q k)
  end.

(** [scf.Scf(...)] and [self.run()] as programs; the value [run()] returns is
    not used. *)
Definition scf_Scf {Scf Atom Mole : Type} (args : call_args (scf_arg Atom Mole))
  : prog Scf Atom Mole Scf :=
  NewScf args (fun obj => Return obj).

Definition scf_run_method {Scf Atom Mole : Type} (self : Scf)
  : prog Scf Atom Mole unit :=
  RunScf self (Return tt).

(** ** A small concrete system

    Integer scalars and simple stand-ins for the external collaborators, on
    which the definitions below can be run.  One device; two configurations
    of three electrons (two spin-up, one spin-down); two basis functions. *)

Module Toy.

Definition Rlit (q : Q) : Z := (Qnum q / Zpos (Qden q))%Z.
Definition Rexp (z : Z) : Z := (z + 1)%Z.

(** Determinants of the matrices up to 2 x 2. *)
Definition det (M : list (list Z)) : Z :=
  match M with
  | [] => 1
  | [[a]] => a
  | [[a; b]; [c; d]] => a * d - b * c
  | _ => 0
  end%Z.

Definition slogdet_matrix (M : list (list Z)) : Z * Z :=
  (Z.sgn (det M), Z.log2 (Z.abs (det M))).

(** Two orbitals per spin channel, evaluated row by row of the positions. *)
Definition orbital_values (c0 c1 : Z) (pos : ndarray Z) : ndarray Z :=
  Np.gather [hd 0 (shape pos); 2]
    (fun idx =>
       match idx with
       | [r; j] =>
           match get pos [r; 0], get pos [r; 1] with
           | Some x, Some y => Some (c0 * x + c1 * y + Z.of_nat j)%Z
           | _, _ => None
           end
       | _ => None
       end).

Definition eval_mos (_ : unit) (pos : ndarray Z) : result (list (ndarray Z)) :=
  Ok [orbital_values 1 0 pos; orbital_values 0 2 pos].

(** An SCF object described by its number of orbitals per channel. *)
Definition orbital_values_n (nbasis : nat) (c0 c1 : Z) (pos : ndarray Z)
  : ndarray Z :=
  Np.gather [hd 0 (shape pos); nbasis]
    (fun idx =>
       match idx with
       | [r; j] =>
           match get pos [r; 0], get pos [r; 1] with
           | Some x, Some y => Some (c0 * x + c1 * y + Z.of_nat j)%Z
           | _, _ => None
           end
       | _ => None
       end).

Definition eval_mos_n (nbasis : nat) (pos : ndarray Z)
  : result (list (ndarray Z)) :=
  Ok [orbital_values_n nbasis 1 0 pos; orbital_values_n nbasis 0 2 pos].

(** An SCF object with a single orbital per channel. *)
Definition eval_mos_one_orbital (_ : unit) (pos : ndarray Z)
  : result (list (ndarray Z)) :=
  Ok [mk_ndarray [hd 0 (shape pos); 1] (repeat 7%Z (hd 0 (shape pos)));
      mk_ndarray [hd 0 (shape pos); 1] (repeat 8%Z (hd 0 (shape pos)))].

(** Positions: shape [(2, 9)]. *)
Definition pos : ndarray Z :=
  mk_ndarray [2; 9] [3; 1; 4; 1; 5; 9; 2; 6; 5; 3; 5; 8; 9; 7; 9; 3; 2; 3]%Z.

(** No configurations at all: shape [(0, 9)]. *)
Definition no_pos : ndarray Z := mk_ndarray [0; 9] [].

(** Parameters, gradients and optimizer state are integers. *)
Definition envelope_of (p : Z) : Z := p.

Definition jax_grad (f : Z -> result Z) (p : Z) : Z :=
  match f (p + 1)%Z, f p with
  | Ok a, Ok b => (a - b)%Z
  | _, _ => 0%Z
  end.

Definition optax_adam (learning_rate : Z) : GradientTransformation Z Z nat :=
  {| init := fun _ => 0;
     update := fun g s p => ((- g)%Z, S s) |}.
Definition optax_apply_updates (p u : Z) : Z := (p + u)%Z.
Definition pmean (x : Z) : Z := x.
Definition pmean_tree (g : Z) : Z := g.
Definition p_split (k : nat) : nat * nat := (k + 2, k + 1).

(** [jax.vmap(f, (None, 0))] for an [f] whose value is a scalar. *)
Definition jax_vmap_None_0 (f : Z -> ndarray Z -> ndarray Z) (p : Z) (x : ndarray Z)
  : result (ndarray Z) :=
  Ok (mk_ndarray [hd 0 (shape x)]
        (map (fun _ => hd 0%Z (data (f p x))) (seq 0 (hd 0 (shape x))))).

(** Network orbitals with one determinant: [p] everywhere. *)
Definition batch_orbitals (p : Z) (x : ndarray Z) : list (ndarray Z) :=
  [Np.full [hd 0 (shape x); 1; 2; 2] p; Np.full [hd 0 (shape x); 1; 1; 1] p].

Definition batch_orbitals_full (p : Z) (x : ndarray Z) : list (ndarray Z) :=
  [Np.full [hd 0 (shape x); 1; 3; 3] p].

Definition batch_network (p : Z) (x : ndarray Z) : ndarray Z :=
  Np.full [hd 0 (shape x)] (p + 5)%Z.

Definition mh_update (p : Z) (f : Z -> ndarray Z -> ndarray Z) (data : ndarray Z)
    (key : nat) (lp : ndarray Z) (acc : Z) : ndarray Z * nat * ndarray Z * Z :=
  let data' := Np.map1 (Z.add 1) data in
  (data', S key, Np.map1 (Z.mul 2) (f p data'), acc).

Definition construct_input_features (x atoms : ndarray Z)
  : ndarray Z * ndarray Z * ndarray Z * ndarray Z := (x, x, x, x).

(** One device: the pmapped step returns the device's loss as a one-entry
    array. *)
Definition pmap_step
    (f : ndarray Z -> list (ndarray Z) -> Z -> nat -> nat -> ndarray Z ->
         result (ndarray Z * Z * nat * Z * ndarray Z))
  : ndarray Z -> list (ndarray Z) -> Z -> nat -> nat -> ndarray Z ->
    result (ndarray Z * Z * nat * ndarray Z * ndarray Z) :=
  fun data target params state key logprob =>
    match f data target params state key logprob with
    | Ok (d, p, s, loss, lp) => Ok (d, p, s, mk_ndarray [1] [loss], lp)
    | Raise e => Raise e
    end.

Definition network_options (use_full_det : bool) : FermiNetOptions Z Z :=
  {| envelope := {| apply_type := PRE_ORBITAL;
                    apply := fun ae r_ae r_ee p => Np.full [] p |};
     full_det := use_full_det |}.

(** The Hartree-Fock orbital matrices at [pos], and the envelope output. *)
Definition alpha : ndarray Z := mk_ndarray [2; 2; 2] [3; 4; 1; 2; 3; 4; 9; 10]%Z.
Definition beta : ndarray Z := mk_ndarray [2; 1; 1] [12; 4]%Z.
Definition envelope_output : ndarray Z := mk_ndarray [2] [0; 0]%Z.

Definition pmap_init (f : Z -> nat) (p : Z) : result nat := Ok (f p).
Definition pmap_network (f : Z -> ndarray Z -> ndarray Z) (p : Z) (x : ndarray Z)
  : result (ndarray Z) := Ok (f p x).

(** The scf module as a world that counts the objects it has made and
    remembers which have been run. *)
Definition scf_init {V : Type} (args : call_args V) (w : nat * list nat)
  : result (nat * (nat * list nat)) :=
  Ok (fst w, (S (fst w), snd w)).
Definition scf_run (obj : nat) (w : nat * list nat) : result (nat * list nat) :=
  Ok (fst w, obj :: snd w).

End Toy.

(** ** The program *)

Section Pretrain.

(** *** Scalars: the floating-point numbers of NumPy and JAX *)
Variable R : Type.
Variable Rlit : Q -> R.                       (* a literal, or int-to-float conversion *)
Variables Radd Rsub Rmul Rdiv : R -> R -> R.
Variable Rexp : R -> R.

Definition Rof_nat (n : nat) : R := Rlit (inject_Z (Z.of_nat n)).

(** [x.sum()] and [jnp.mean(x)] over all entries. *)
Definition Rsum (xs : list R) : R := fold_left Radd xs (Rlit 0).
Definition mean (a : ndarray R) : R := Rdiv (Rsum (data a)) (Rof_nat (size a)).

(** *** External collaborators *)

(** [np.linalg.slogdet] on a single square matrix: the sign of its
    determinant and the natural logarithm of the determinant's absolute
    value. *)
Variable slogdet_matrix : list (list R) -> R * R.

(** ferminet.utils.scf.Scf and its [eval_mos] method. *)
Variable Scf : Type.
Variable eval_mos : Scf -> ndarray R -> result (list (ndarray R)).

(** The exception JAX raises when the shapes of its operands do not fit
    (broadcasting, concatenation, [jnp.reshape]). *)
Variable jax_shape_error : exn.

(** Parameter trees, optimizer state, RNG keys. *)
Variables Params EnvParams Grads OptState Key NumAccepts : Type.
Variable envelope_of : Params -> EnvParams.   (* p['envelope'] *)

(** optax *)
Variable optax_adam : R -> GradientTransformation Params Grads OptState.
Variable optax_apply_updates : Params -> Grads -> Params.

(** jax: the gradient of a scalar function of the parameters, [jax.vmap(f,
    (None, 0))], and kfac_jax's key splitting. *)
Variable jax_grad : (Params -> result R) -> Params -> Grads.
Variable jax_vmap_None_0 :
  (EnvParams -> ndarray R -> ndarray R) -> EnvParams -> ndarray R -> result (ndarray R).
Variable p_split : Key -> Key * Key.

(** ferminet.constants: mean over the devices of the pmap axis. *)
Variable pmean : R -> R.
Variable pmean_tree : Grads -> Grads.

(** ferminet.mcmc.mh_update(params, f, data, key, lp_1, num_accepts) *)
Definition network_fn : Type := Params -> ndarray R -> ndarray R.
Definition orbitals_fn : Type := Params -> ndarray R -> list (ndarray R).
Variable mh_update :
  Params -> network_fn -> ndarray R -> Key -> ndarray R -> Z ->
  ndarray R * Key * ndarray R * NumAccepts.

(** ferminet.networks *)
Variable construct_input_features :
  ndarray R -> ndarray R -> ndarray R * ndarray R * ndarray R * ndarray R.

(** One pretraining step on one device returns a scalar loss; the pmapped
    step returns one loss per device. *)
Definition step_fn (L : Type) : Type :=
  ndarray R -> list (ndarray R) -> Params -> OptState -> Key -> ndarray R ->
  result (ndarray R * Params * OptState * L * ndarray R).

(** ferminet.constants.pmap, at the three functions it is applied to.  A
    call of a pmapped function may raise. *)
Variable pmap_init : (Params -> OptState) -> Params -> result OptState.
Variable pmap_step : step_fn R -> step_fn (ndarray R).
Variable pmap_network : network_fn -> Params -> ndarray R -> result (ndarray R).

(** *** eval_orbitals *)

Definition py_isinstance_ndarray (pos : pyobj R) : bool :=
  match pos with
  | NumpyArray _ => true
  | _ => false
  end.

(** [hasattr(pos, 'copy')] *)
Definition supports_copy (pos : pyobj R) : bool :=
  match pos with
  | ObjectNoCopy => false
  | _ => true
  end.

(** [pos.copy()] *)
Definition py_copy (pos : pyobj R) : result (pyobj R) :=
  match pos with
  | NumpyArray a => Ok (NumpyArray a)
  | JaxArray a => Ok (JaxArray a)
  | ObjectNoCopy => Raise AttributeError
  | ObjectCopyReturns o => Ok o
  | ObjectCopyRaises e => Raise e
  end.

(** [pos.shape] *)
Definition py_shape (pos : pyobj R) : result Shape.t :=
  match pos with
  | NumpyArray a | JaxArray a => Ok (shape a)
  | _ => Raise AttributeError
  end.

(** [np.reshape(pos, newshape)].  NumPy's wrapper calls the array's own
    [reshape]; when that raises TypeError, as the [reshape] of a JAX array
    does for a shape that does not fit, it tries again on [np.asarray(pos)],
    so that the exception seen is NumPy's. *)
Definition py_reshape (pos : pyobj R) (newshape : list Z) : result (ndarray R) :=
  match pos with
  | NumpyArray a => Np.reshape a newshape
  | JaxArray a =>
      match Np.reshape_with TypeError a newshape with
      | Raise TypeError => Np.reshape a newshape
      | r => r
      end
  | _ => Raise AttributeError
  end.

(** The array behind a NumPy or JAX array object. *)
Definition array_of (pos : pyobj R) : option (ndarray R) :=
  match pos with
  | NumpyArray a | JaxArray a => Some a
  | _ => None
  end.

(** The input check at the head of [eval_orbitals]; its value is what [pos]
    is bound to afterwards. *)
Definition checked_input (pos : pyobj R) : result (pyobj R) :=
  if negb (py_isinstance_ndarray pos)
  then match py_copy pos with
       | Ok pos' => Ok pos'
       | Raise exc =>
           if is_AttributeError exc
           then Raise (Chained
                         (ValueError "Input must be either NumPy or JAX array.")
                         exc)
           else Raise exc
       end
  else Ok pos.

Definition eval_orbitals (scf_approx : Scf) (pos : pyobj R) (nspins : nat * nat)
  : result (ndarray R * ndarray R) :=
  pos <- checked_input pos ;;
  s <- py_shape pos ;;
  let leading_dims := Shape.init s in
  pos <- py_reshape pos [(-1)%Z; 3%Z] ;;
  mos <- eval_mos scf_approx pos ;;
  mos <- mapM (fun mo =>
                 Np.reshape mo
                   (map Z.of_nat (leading_dims ++ [fst nspins + snd nspins])
                      ++ [(-1)%Z]))
              mos ;;
  mos0 <- Np.item mos 0 ;;
  alpha_spin <- Np.slice_last2 mos0 0 (Some (fst nspins)) (fst nspins) ;;
  mos1 <- Np.item mos 1 ;;
  beta_spin <- Np.slice_last2 mos1 (fst nspins) None (snd nspins) ;;
  Ok (alpha_spin, beta_spin).

(** *** eval_slater *)

(** [np.linalg.slogdet] on a stack of matrices. *)
Definition slogdet (a : ndarray R) : result (ndarray R * ndarray R) :=
  match rev (shape a) with
  | m :: n :: rlead =>
      if n =? m
      then
        let lead := rev rlead in
        Ok (Np.gather lead
              (fun l => option_map (fun M => fst (slogdet_matrix M)) (Np.matrix_at a l)),
            Np.gather lead
              (fun l => option_map (fun M => snd (slogdet_matrix M)) (Np.matrix_at a l)))
      else Raise LinAlgError
  | _ => Raise LinAlgError
  end.

Definition eval_slater (scf_approx : Scf) (pos : pyobj R) (nspins : nat * nat)
  : result (ndarray R * ndarray R) :=
  matrices <- eval_orbitals scf_approx pos nspins ;;
  slogdets <- mapM slogdet [fst matrices; snd matrices] ;;
  match map fst slogdets, map snd slogdets with
  | [sign_alpha; sign_beta], [log_abs_wf_alpha; log_abs_wf_beta] =>
      log_abs_slater_determinant <-
        Np.broadcast2 (ValueError "operands could not be broadcast together")
          Radd log_abs_wf_alpha log_abs_wf_beta ;;
      sign <- Np.broadcast2 (ValueError "operands could not be broadcast together")
                Rmul sign_alpha sign_beta ;;
      Ok (sign, log_abs_slater_determinant)
  | _, _ => Raise (ValueError "not enough values to unpack")
  end.

(** *** make_pretrain_step *)

(** [x**2], elementwise. *)
Definition square (a : ndarray R) : ndarray R := Np.map1 (fun x => Rmul x x) a.

(** [jnp.mean((t[:, None, ...] - env * o)**2)] *)
Definition mean_squared_difference (t env o : ndarray R) : result R :=
  t' <- Np.expand_dims1 t ;;
  eo <- Np.broadcast2 jax_shape_error Rmul env o ;;
  diff <- Np.broadcast2 jax_shape_error Rsub t' eo ;;
  Ok (mean (square diff)).

(** The block-diagonal target of the [full_det] branch. *)
Definition full_det_target (target : list (ndarray R)) : result (ndarray R) :=
  t0 <- Np.item target 0 ;;
  ndet <- Np.shape_at t0 0 ;;
  na <- Np.shape_at t0 1 ;;
  t1 <- Np.item target 1 ;;
  nb <- Np.shape_at t1 1 ;;
  top <- Np.concatenate_back jax_shape_error 0 t0 (Np.full [ndet; na; nb] (Rlit 0)) ;;
  bottom <- Np.concatenate_back jax_shape_error 0 (Np.full [ndet; nb; na] (Rlit 0)) t1 ;;
  Np.concatenate_back jax_shape_error 1 top bottom.

Section Step.

Variable batch_envelope_fn : EnvParams -> ndarray R -> result (ndarray R).
Variable batch_orbitals : orbitals_fn.
Variable batch_network : network_fn.
Variable optimizer_update : Grads -> OptState -> Params -> Grads * OptState.
Variable use_full_det : bool.

Definition loss_fn (n : nat) (p : Params) (x : ndarray R) (target : list (ndarray R))
  : result R :=
  env <- batch_envelope_fn (envelope_of p) x ;;
  let env := Np.map1 (fun v => Rexp (Rdiv v (Rof_nat n))) env in
  d <- Np.shape_last env ;;
  env <- Np.reshape_with jax_shape_error env [Z.of_nat d; 1%Z; 1%Z; 1%Z] ;;
  result <-
    (if use_full_det
     then
       target <- full_det_target target ;;
       orbitals <- Np.item (batch_orbitals p x) 0 ;;
       mean_squared_difference target env orbitals
     else
       terms <- mapM (fun t_o => mean_squared_difference (fst t_o) env (snd t_o))
                     (combine target (batch_orbitals p x)) ;;
       Ok (Rsum terms)) ;;
  Ok (pmean result).

Definition value_and_grad (f : Params -> result R) (p : Params) : result (R * Grads) :=
  v <- f p ;;
  Ok (v, jax_grad f p).

Definition pretrain_step : step_fn R :=
  fun data target params state key logprob =>
    dims <- mapM Np.shape_last target ;;
    let n := fold_left Nat.add dims 0 in
    '(loss_val, search_direction) <-
      value_and_grad (fun p => loss_fn n p data target) params ;;
    let search_direction := pmean_tree search_direction in
    let '(updates, state) := optimizer_update search_direction state params in
    let params := optax_apply_updates params updates in
    let '(data, key, logprob, _) :=
      mh_update params batch_network data key logprob 0%Z in
    Ok (data, params, state, loss_val, logprob).

End Step.

Definition make_pretrain_step
    (batch_envelope_fn : EnvParams -> ndarray R -> result (ndarray R))
    (batch_orbitals : orbitals_fn)
    (batch_network : network_fn)
    (optimizer_update : Grads -> OptState -> Params -> Grads * OptState)
    (use_full_det : bool) : step_fn R :=
  pretrain_step batch_envelope_fn batch_orbitals batch_network optimizer_update
    use_full_det.

(** **** The loss in the words of its description

    The envelope-scaled squared difference between a target [t] of shape
    [(B, m, m)] and network orbitals [o] of shape [(B, K, m, m)]: at
    [(b, k, i, j)] it is [(t[b,i,j] - exp(e[b] / n) * o[b,k,i,j])**2], where
    [e] is the output of the envelope function, of shape [(B,)]. *)
Definition squared_difference_spec (n B K m : nat) (t e o : ndarray R) : ndarray R :=
  Np.gather [B; K; m; m]
    (fun idx =>
       match idx with
       | [b; k; i; j] =>
           match get t [b; i; j], get e [b], get o [b; k; i; j] with
           | Some tv, Some ev, Some ov =>
               let d := Rsub tv (Rmul (Rexp (Rdiv ev (Rof_nat n))) ov) in
               Some (Rmul d d)
           | _, _, _ => None
           end
       | _ => None
       end).

(** The block-diagonal combined target: the alpha block [t0] of shape
    [(B, na, na)] top-left, the beta block [t1] of shape [(B, nb, nb)]
    bottom-right, zeros elsewhere. *)
Definition block_diagonal_spec (B na nb : nat) (t0 t1 : ndarray R) : ndarray R :=
  Np.gather [B; na + nb; na + nb]
    (fun idx =>
       match idx with
       | [b; i; j] =>
           if (i <? na) && (j <? na) then get t0 [b; i; j]
           else if (na <=? i) && (na <=? j) then get t1 [b; i - na; j - na]
           else Some (Rlit 0)
       | _ => None
       end).

(** *** pretrain_hartree_fock *)

(** The loop variables, and what has been logged so far: the
    [logging.info] lines and the calls of [logger], each with the step
    number and [loss[0]]. *)
Record loop_state : Type := mk_loop_state {
  ls_data : ndarray R;
  ls_params : Params;
  ls_opt_state : OptState;
  ls_key : Key;
  ls_logprob : ndarray R;
  ls_info : list (Z * ndarray R);
  ls_logged : list (Z * ndarray R)
}.

(** The [logger] argument, a callable [(step, value) -> None] of the
    caller's.  A call may raise, and what it does may depend on the calls
    made to it before, which are its first argument here. *)
Definition logger_fn : Type :=
  list (Z * ndarray R) -> Z -> ndarray R -> result unit.

(** [if logger: logger(t, value)], with the calls made so far; returns the
    calls made.  A function is truthy, so only [None] is skipped. *)
Definition call_logger (logger : option logger_fn) (calls : list (Z * ndarray R))
    (t : Z) (value : ndarray R) : result (list (Z * ndarray R)) :=
  match logger with
  | Some f => _ <- f calls t value ;; Ok (calls ++ [(t, value)])
  | None => Ok calls
  end.

(** [for t in ts: st = body(st, t)], stopping at the first exception. *)
Fixpoint for_each {St T : Type} (body : St -> T -> result St) (ts : list T) (st : St)
  : result St :=
  match ts with
  | [] => Ok st
  | t :: ts' => st' <- body st t ;; for_each body ts' st'
  end.

Definition loop_body (step : step_fn (ndarray R)) (scf_approx : Scf)
    (electrons : nat * nat) (logger : option logger_fn) (st : loop_state) (t : Z)
  : result loop_state :=
  target <- eval_orbitals scf_approx (JaxArray (ls_data st)) electrons ;;
  let '(sharded_key, subkeys) := p_split (ls_key st) in
  '(data, params, opt_state_pt, loss, logprob) <-
    step (ls_data st) [fst target; snd target] (ls_params st) (ls_opt_state st)
         subkeys (ls_logprob st) ;;
  loss0 <- Np.index0 loss ;;
  logged <- call_logger logger (ls_logged st) t loss0 ;;
  Ok (mk_loop_state data params opt_state_pt sharded_key logprob
        (ls_info st ++ [(t, loss0)]) logged).

(** The envelope function defined inside [pretrain_hartree_fock]. *)
Definition envelope_fn (network_options : FermiNetOptions R EnvParams)
    (atoms : ndarray R)
  : EnvParams -> ndarray R -> ndarray R :=
  if EnvelopeType_eqb (apply_type (envelope network_options)) POST_DETERMINANT
  then fun params x =>
         let '(ae, r_ae, _, r_ee) := construct_input_features x atoms in
         apply (envelope network_options) ae r_ae r_ee params
  else fun p x => Np.full [] (Rlit 0).

Definition pretrain_hartree_fock
    (params : Params) (data : ndarray R)
    (batch_network : network_fn) (batch_orbitals : orbitals_fn)
    (network_options : FermiNetOptions R EnvParams) (sharded_key : Key)
    (atoms : ndarray R) (electrons : nat * nat) (scf_approx : Scf)
    (iterations : Z) (logger : option logger_fn)
  : result (Params * ndarray R * (list (Z * ndarray R) * list (Z * ndarray R))) :=
  let optimizer := optax_adam (Rlit (3 # 10000)%Q) in
  opt_state_pt <- pmap_init (init optimizer) params ;;
  let batch_envelope_fn := jax_vmap_None_0 (envelope_fn network_options atoms) in
  let step := make_pretrain_step batch_envelope_fn batch_orbitals batch_network
                (update optimizer) (full_det network_options) in
  let step := pmap_step step in
  let pnetwork := pmap_network batch_network in
  logprob <- pnetwork params data ;;
  let logprob := Np.map1 (Rmul (Rlit 2)) logprob in
  st <- for_each (loop_body step scf_approx electrons logger) (range iterations)
          (mk_loop_state data params opt_state_pt sharded_key logprob [] []) ;;
  Ok (ls_params st, ls_data st, (ls_info st, ls_logged st)).

(** **** The loop in the words of its description: [n] steps, numbered from
    0, each on the state the previous one left; the first exception ends
    it. *)
Fixpoint iterate_steps {St : Type} (one_step : St -> Z -> result St) (n : nat)
    (st : St) : result St :=
  match n with
  | 0 => Ok st
  | S k => st' <- iterate_steps one_step k st ;; one_step st' (Z.of_nat k)
  end.

(** Two loop states that differ at most in what the logger was told. *)
Definition same_training (st1 st2 : loop_state) : Prop :=
  ls_data st1 = ls_data st2 /\ ls_params st1 = ls_params st2 /\
  ls_opt_state st1 = ls_opt_state st2 /\ ls_key st1 = ls_key st2 /\
  ls_logprob st1 = ls_logprob st2 /\ ls_info st1 = ls_info st2.

(** *** get_hf *)

Variables Atom Mole : Type.

Local Abbreviation scf_arg := (scf_arg Atom Mole).
Local Abbreviation scf_call := (scf_call Scf Atom Mole).
Local Abbreviation prog := (prog Scf Atom Mole).

Definition get_hf (molecule : option (list Atom)) (nspins : option (Z * Z))
    (basis : option string) (pyscf_mol : option Mole) (restricted : option bool)
  : prog Scf :=
  prog_bind
    (if truthy pyscf_mol
     then scf_Scf (mk_call_args []
                     [("pyscf_mol"%string, ArgMole pyscf_mol);
                      ("restricted"%string, ArgBool restricted)])
     else scf_Scf (mk_call_args [ArgMolecule molecule]
                     [("nelectrons"%string, ArgSpins nspins);
                      ("basis"%string, ArgBasis basis);
                      ("restricted"%string, ArgBool restricted)]))
    (fun scf_approx =>
       prog_bind (scf_run_method scf_approx) (fun _ => Return scf_approx)).

(** The constructor arguments by case: a [pyscf_mol] supplied, or not. *)
Definition get_hf_constructor_args
    (molecule : option (list Atom)) (nspins : option (Z * Z))
    (basis : option string) (pyscf_mol : option Mole) (restricted : option bool)
  : call_args scf_arg :=
  match pyscf_mol with
  | Some _ =>
      mk_call_args []
        [("pyscf_mol"%string, ArgMole pyscf_mol);
         ("restricted"%string, ArgBool restricted)]
  | None =>
      mk_call_args [ArgMolecule molecule]
        [("nelectrons"%string, ArgSpins nspins);
         ("basis"%string, ArgBasis basis);
         ("restricted"%string, ArgBool restricted)]
  end.

(** Running a program against an implementation of scf: [scf_init] and
    [scf_run] act on a world [W] (the Python heap) and may raise.  The calls
    made are recorded in order, up to and including one that raises. *)
Section Exec.

Variable W : Type.
Variable scf_init : call_args scf_arg -> W -> result (Scf * W).
Variable scf_run : Scf -> W -> result W.

Fixpoint exec {A : Type} (p : prog A) (w : W) : list scf_call * result (A * W) :=
  match p with
  | Return a => ([], Ok (a, w))
  | NewScf args k =>
      match scf_init args w with
      | Ok (obj, w') =>
          let '(calls, r) := exec (k obj) w' in (CallInit args :: calls, r)
      | Raise e => ([CallInit args], Raise e)
      end
  | RunScf self k =>
      match scf_run self w with
      | Ok w' => let '(calls, r) := exec k w' in (CallRun self :: calls, r)
      | Raise e => ([CallRun self], Raise e)
      end
  end.

End Exec.

Definition is_run (c : scf_call) : bool :=
  match c with
  | CallRun _ => true
  | CallInit _ => false
  end.

Definition run_count (calls : list scf_call) : nat :=
  List.length (filter is_run calls).

(** * Properties *)

(** ** C-order indexing *)

Lemma ravel_lt (s : Shape.t) :
  forall idx, Shape.in_bounds s idx = true -> Shape.ravel s idx < Shape.prod s.
Proof.
  induction s as [|d s IH]; intros [|i idx] H; simpl in *; try discriminate; try lia.
  apply andb_prop in H. destruct H as [Hi Hidx].
  apply Nat.ltb_lt in Hi. specialize (IH _ Hidx). nia.
Qed.

Lemma unravel_ravel (s : Shape.t) :
  forall idx, Shape.in_bounds s idx = true ->
              Shape.unravel s (Shape.ravel s idx) = idx.
Proof.
  induction s as [|d s IH]; intros [|i idx] H; simpl in *; try discriminate; auto.
  apply andb_prop in H. destruct H as [Hi Hidx].
  pose proof (ravel_lt _ _ Hidx) as Hlt.
  rewrite Nat.div_add_l by lia.
  rewrite (Nat.div_small (Shape.ravel s idx)) by assumption.
  rewrite Nat.add_0_r. f_equal.
  rewrite Nat.add_comm, Nat.Div0.mod_add, Nat.mod_small by assumption.
  now apply IH.
Qed.

Lemma unravel_in_bounds (s : Shape.t) :
  forall k, k < Shape.prod s -> Shape.in_bounds s (Shape.unravel s k) = true.
Proof.
  induction s as [|d s IH]; intros k Hk; simpl in *; auto.
  assert (Hp : Shape.prod s <> 0) by (intro E; rewrite E in Hk; lia).
  apply andb_true_intro. split.
  - apply Nat.ltb_lt. apply Nat.Div0.div_lt_upper_bound. lia.
  - apply IH. now apply Nat.mod_upper_bound.
Qed.

Lemma ravel_unravel (s : Shape.t) :
  forall k, k < Shape.prod s -> Shape.ravel s (Shape.unravel s k) = k.
Proof.
  induction s as [|d s IH]; intros k Hk; simpl in *; [lia|].
  assert (Hp : Shape.prod s <> 0) by (intro E; rewrite E in Hk; lia).
  rewrite IH by now apply Nat.mod_upper_bound.
  pose proof (Nat.div_mod_eq k (Shape.prod s)). lia.
Qed.

Lemma in_bounds_length (s : Shape.t) :
  forall idx, Shape.in_bounds s idx = true -> List.length idx = List.length s.
Proof.
  induction s as [|d s IH]; intros [|i idx] H; simpl in *; try discriminate; auto.
  apply andb_prop in H. destruct H as [_ H]. f_equal. now apply IH.
Qed.

Lemma in_bounds_app (s1 s2 : Shape.t) :
  forall i1 i2, List.length i1 = List.length s1 ->
    Shape.in_bounds (s1 ++ s2) (i1 ++ i2)
    = Shape.in_bounds s1 i1 && Shape.in_bounds s2 i2.
Proof.
  induction s1 as [|d s1 IH]; intros [|i i1] i2 H; simpl in *; try discriminate; auto.
  rewrite IH by lia. now rewrite andb_assoc.
Qed.

Lemma prod_app (s1 s2 : Shape.t) :
  Shape.prod (s1 ++ s2) = Shape.prod s1 * Shape.prod s2.
Proof.
  induction s1 as [|d s1 IH]; simpl; [lia|]. rewrite IH. lia.
Qed.

Lemma ravel_app (s1 s2 : Shape.t) :
  forall i1 i2, List.length i1 = List.length s1 ->
    Shape.ravel (s1 ++ s2) (i1 ++ i2)
    = Shape.ravel s1 i1 * Shape.prod s2 + Shape.ravel s2 i2.
Proof.
  induction s1 as [|d s1 IH]; intros [|i i1] i2 H; simpl in *; try discriminate; auto.
  rewrite IH by lia. rewrite prod_app. lia.
Qed.

(** ** Arrays built entry by entry *)

Lemma flat_map_some {A B : Type} (f : A -> option B) (g : A -> B) (l : list A) :
  (forall k, In k l -> f k = Some (g k)) ->
  flat_map (fun k => match f k with Some x => [x] | None => [] end) l = map g l.
Proof.
  induction l as [|a l IH]; intros H; simpl; auto.
  rewrite (H a) by now left. simpl. f_equal. apply IH. intros; apply H; now right.
Qed.

Lemma gather_data (s : Shape.t) (f : list nat -> option R)
      (g : list nat -> R) :
  (forall idx, Shape.in_bounds s idx = true -> f idx = Some (g idx)) ->
  data (Np.gather s f) = map (fun k => g (Shape.unravel s k)) (seq 0 (Shape.prod s)).
Proof.
  intros H. unfold Np.gather. simpl.
  apply flat_map_some with (f := fun k => f (Shape.unravel s k)).
  intros k Hk. apply in_seq in Hk. apply H. apply unravel_in_bounds. lia.
Qed.

Lemma gather_wf (s : Shape.t) (f : list nat -> option R) :
  (forall idx, Shape.in_bounds s idx = true -> f idx <> None) ->
  wf (Np.gather s f).
Proof.
  intros H. unfold wf.
  destruct (Shape.prod s) as [|n] eqn:E.
  - unfold Np.gather. simpl. now rewrite E.
  - assert (H0 : Shape.in_bounds s (Shape.unravel s 0) = true)
      by (apply unravel_in_bounds; lia).
    destruct (f (Shape.unravel s 0)) as [x0|] eqn:E0; [|now apply H in H0].
    rewrite gather_data
      with (g := fun idx => match f idx with Some x => x | None => x0 end).
    + rewrite length_map, length_seq. simpl. now rewrite E.
    + intros idx Hidx. destruct (f idx) eqn:Ef; auto. now apply H in Hidx.
Qed.

Lemma get_gather (s : Shape.t) (f : list nat -> option R) :
  (forall idx, Shape.in_bounds s idx = true -> f idx <> None) ->
  forall idx, Shape.in_bounds s idx = true -> get (Np.gather s f) idx = f idx.
Proof.
  intros H idx Hidx. unfold get.
  change (shape (Np.gather s f)) with s. rewrite Hidx.
  destruct (f idx) as [x0|] eqn:E0; [|now apply H in Hidx].
  rewrite gather_data
    with (g := fun i => match f i with Some x => x | None => x0 end).
  - pose proof (ravel_lt _ _ Hidx) as Hlt.
    rewrite nth_error_map, nth_error_nth' with (d := 0) by (rewrite length_seq; lia).
    rewrite seq_nth by lia. simpl.
    rewrite unravel_ravel by assumption. now rewrite E0.
  - intros i Hi. destruct (f i) eqn:Ef; auto. now apply H in Hi.
Qed.

Lemma get_some (a : ndarray R) (idx : list nat) :
  wf a -> Shape.in_bounds (shape a) idx = true -> get a idx <> None.
Proof.
  intros Hwf Hidx. unfold get. rewrite Hidx.
  apply nth_error_Some. rewrite Hwf. now apply ravel_lt.
Qed.

(** ** Reshaping and slicing *)

Lemma known_prod_of_nat (s : Shape.t) :
  Np.known_prod (map Z.of_nat s) = Shape.prod s.
Proof.
  unfold Np.known_prod.
  induction s as [|d s IH]; simpl; auto.
  destruct (Z.ltb_spec (Z.of_nat d) 0); [lia|].
  now rewrite Nat2Z.id, IH.
Qed.

Lemma known_prod_infer_last (s : Shape.t) :
  Np.known_prod (map Z.of_nat s ++ [(-1)%Z]) = Shape.prod s.
Proof.
  unfold Np.known_prod.
  induction s as [|d s IH]; simpl; auto.
  destruct (Z.ltb_spec (Z.of_nat d) 0); [lia|].
  now rewrite Nat2Z.id, IH.
Qed.

Lemma unknown_count_infer_last (s : Shape.t) :
  Np.unknown_count (map Z.of_nat s ++ [(-1)%Z]) = 1.
Proof.
  unfold Np.unknown_count.
  induction s as [|d s IH]; simpl; auto.
  destruct (Z.ltb_spec (Z.of_nat d) 0); [lia|]. exact IH.
Qed.

Lemma inferred_shape (s : Shape.t) (k : nat) :
  map (fun d => if (d <? 0)%Z then k else Z.to_nat d) (map Z.of_nat s ++ [(-1)%Z])
  = s ++ [k].
Proof.
  induction s as [|d s IH]; simpl; auto.
  destruct (Z.ltb_spec (Z.of_nat d) 0); [lia|].
  rewrite Nat2Z.id. now rewrite IH.
Qed.

(** Reshaping to [s + (-1,)] succeeds exactly as NumPy infers the last
    extent, provided the known extents are all positive. *)
Lemma reshape_infer_last (e : exn) (a : ndarray R) (s : Shape.t) (k : nat) :
  size a = Shape.prod s * k -> 0 < Shape.prod s ->
  Np.reshape_with e a (map Z.of_nat s ++ [(-1)%Z])
  = Ok (mk_ndarray (s ++ [k]) (data a)).
Proof.
  intros Hsize Hpos. unfold Np.reshape_with.
  rewrite unknown_count_infer_last, known_prod_infer_last.
  destruct (Nat.eqb_spec (Shape.prod s) 0) as [E|_]; [lia|].
  rewrite Hsize. rewrite Nat.mul_comm, Nat.Div0.mod_mul. simpl.
  rewrite Nat.div_mul by lia. now rewrite inferred_shape.
Qed.

(** A zero among the known extents makes the inference fail. *)
Lemma reshape_infer_last_empty (e : exn) (a : ndarray R) (s : Shape.t) :
  Shape.prod s = 0 ->
  Np.reshape_with e a (map Z.of_nat s ++ [(-1)%Z]) = Raise e.
Proof.
  intros Hz. unfold Np.reshape_with.
  rewrite unknown_count_infer_last, known_prod_infer_last, Hz. reflexivity.
Qed.

Lemma reshape_rows_of_3 (e : exn) (a : ndarray R) (n : nat) :
  size a = n * 3 ->
  Np.reshape_with e a [(-1)%Z; 3%Z] = Ok (mk_ndarray [n; 3] (data a)).
Proof.
  intros Hsize. unfold Np.reshape_with.
  change (Np.unknown_count [(-1)%Z; 3%Z]) with 1.
  change (Np.known_prod [(-1)%Z; 3%Z]) with 3.
  rewrite Hsize, Nat.Div0.mod_mul. simpl orb. cbv iota.
  unfold map. change (-1 <? 0)%Z with true. change (3 <? 0)%Z with false.
  cbv iota. change (Z.to_nat 3) with 3. now rewrite Nat.div_mul by lia.
Qed.

Lemma get_same_buffer (s s' : Shape.t) (d : list R) (idx idx' : list nat) :
  Shape.in_bounds s idx = true -> Shape.in_bounds s' idx' = true ->
  Shape.ravel s idx = Shape.ravel s' idx' ->
  get (mk_ndarray s d) idx = get (mk_ndarray s' d) idx'.
Proof.
  intros H1 H2 E. unfold get. simpl. now rewrite H1, H2, E.
Qed.

Lemma in_bounds_2 (n m i j : nat) :
  Shape.in_bounds [n; m] [i; j] = (i <? n) && (j <? m).
Proof. simpl. now rewrite andb_true_r. Qed.

Lemma skipn_app_exact {A : Type} (l1 l2 : list A) (n : nat) :
  List.length l1 = n -> skipn n (l1 ++ l2) = l2.
Proof.
  intros <-. rewrite skipn_app, skipn_all, Nat.sub_diag. reflexivity.
Qed.

Lemma firstn_app_exact {A : Type} (l1 l2 : list A) (n : nat) :
  List.length l1 = n -> firstn n (l1 ++ l2) = l1.
Proof.
  intros <-. rewrite firstn_app, firstn_all, Nat.sub_diag. simpl.
  now rewrite app_nil_r.
Qed.

(** Every index within [lead ++ [n; m]] splits into a leading index and a
    row and column. *)
Lemma in_bounds_split2 (lead : Shape.t) (n m : nat) (idx : list nat) :
  Shape.in_bounds (lead ++ [n; m]) idx = true ->
  exists l i j, idx = l ++ [i; j] /\ Shape.in_bounds lead l = true /\ i < n /\ j < m.
Proof.
  intros H. pose proof (in_bounds_length _ _ H) as Hlen.
  rewrite length_app in Hlen. simpl in Hlen.
  rewrite <- (firstn_skipn (List.length lead) idx) in H.
  assert (Hl : List.length (firstn (List.length lead) idx) = List.length lead)
    by (rewrite length_firstn; lia).
  rewrite in_bounds_app in H by assumption.
  apply andb_prop in H. destruct H as [H1 H2].
  destruct (skipn (List.length lead) idx) as [|i [|j [|x r]]] eqn:E;
    simpl in H2; try discriminate.
  - now rewrite andb_false_r in H2.
  - exists (firstn (List.length lead) idx), i, j.
    rewrite andb_true_r in H2. apply andb_prop in H2. destruct H2 as [Hi Hj].
    apply Nat.ltb_lt in Hi, Hj.
    rewrite <- E, firstn_skipn. auto.
  - rewrite !andb_false_r in H2. discriminate.
Qed.

Lemma slice_last2_spec (a : ndarray R) (lead : Shape.t) (rows cols : nat)
      (r0 : nat) (r1 : option nat) (c1 : nat) :
  wf a -> shape a = lead ++ [rows; cols] ->
  let stop := match r1 with Some r => Nat.min r rows | None => rows end in
  let start := Nat.min r0 rows in
  exists b,
    Np.slice_last2 a r0 r1 c1 = Ok b /\
    wf b /\
    shape b = lead ++ [stop - start; Nat.min c1 cols] /\
    forall l i j, Shape.in_bounds lead l = true ->
                  i < stop - start -> j < Nat.min c1 cols ->
                  get b (l ++ [i; j]) = get a (l ++ [start + i; j]).
Proof.
  intros Hwf Hshape stop start.
  unfold Np.slice_last2. rewrite Hshape, rev_app_distr. simpl rev. simpl app.
  cbv beta iota. rewrite rev_involutive. fold stop start.
  set (f := fun idx : list nat =>
              match skipn (List.length lead) idx with
              | [i; j] => get a (firstn (List.length lead) idx ++ [start + i; j])
              | _ => None
              end).
  assert (Hf : forall l i j, Shape.in_bounds lead l = true ->
                 f (l ++ [i; j]) = get a (l ++ [start + i; j])).
  { intros l i j Hl. unfold f.
    pose proof (in_bounds_length _ _ Hl) as Hlen.
    now rewrite skipn_app_exact, firstn_app_exact by assumption. }
  assert (Hdef : forall idx,
             Shape.in_bounds (lead ++ [stop - start; Nat.min c1 cols]) idx = true ->
             f idx <> None).
  { intros idx Hidx. apply in_bounds_split2 in Hidx.
    destruct Hidx as (l & i & j & -> & Hl & Hi & Hj).
    rewrite Hf by assumption. apply get_some; [assumption|].
    rewrite Hshape, in_bounds_app by now apply in_bounds_length.
    rewrite Hl, in_bounds_2. simpl.
    apply andb_true_intro.
    split; apply Nat.ltb_lt; unfold stop, start in *; destruct r1; lia. }
  eexists. split; [reflexivity|]. split; [now apply gather_wf|].
  split; [reflexivity|].
  intros l i j Hl Hi Hj. rewrite get_gather; auto.
  rewrite in_bounds_app by now apply in_bounds_length.
  rewrite Hl, in_bounds_2. simpl.
  apply andb_true_intro. split; now apply Nat.ltb_lt.
Qed.

(** ** eval_orbitals *)

Lemma checked_input_array (pos : pyobj R) (a : ndarray R) :
  array_of pos = Some a -> checked_input pos = Ok pos.
Proof.
  destruct pos; simpl; intros H; try discriminate; reflexivity.
Qed.

Lemma py_reshape_rows_of_3 (pos : pyobj R) (a : ndarray R) (n : nat) :
  array_of pos = Some a -> size a = n * 3 ->
  py_reshape pos [(-1)%Z; 3%Z] = Ok (mk_ndarray [n; 3] (data a)).
Proof.
  destruct pos; simpl; intros H Hs; try discriminate; injection H as ->.
  - now apply reshape_rows_of_3.
  - unfold Np.reshape in *.
    now rewrite !reshape_rows_of_3 with (n := n) by exact Hs.
Qed.

Lemma py_shape_array (pos : pyobj R) (a : ndarray R) :
  array_of pos = Some a -> py_shape pos = Ok (shape a).
Proof.
  destruct pos; simpl; intros H; try discriminate; now injection H as ->.
Qed.

(** The orbital matrix of one spin channel after the reshape to
    [leading_dims + (nelec, -1)]: entry [(l, e, j)] is row [l * nelec + e],
    column [j] of what [eval_mos] returned. *)
Lemma get_reshaped_mo (mo : ndarray R) (lead : Shape.t) (nelec nbasis : nat)
      (l : list nat) (e j : nat) :
  shape mo = [Shape.prod lead * nelec; nbasis] ->
  Shape.in_bounds lead l = true -> e < nelec -> j < nbasis ->
  get (mk_ndarray (lead ++ [nelec; nbasis]) (data mo)) (l ++ [e; j])
  = get mo [Shape.ravel lead l * nelec + e; j].
Proof.
  intros Hs Hl He Hj. destruct mo as [s d]. simpl in *. subst s.
  pose proof (ravel_lt _ _ Hl) as Hlt.
  pose proof (in_bounds_length _ _ Hl) as Hlen.
  apply get_same_buffer.
  - rewrite in_bounds_app, Hl, in_bounds_2 by assumption. simpl.
    apply andb_true_intro. split; now apply Nat.ltb_lt.
  - rewrite in_bounds_2. apply andb_true_intro.
    split; apply Nat.ltb_lt; [nia | assumption].
  - rewrite ravel_app by assumption. simpl. nia.
Qed.

(** Row [l * nelec + e] of the position matrix handed to [eval_mos] holds
    the three coordinates of electron [e] of configuration [l]. *)
Lemma get_position_row (a : ndarray R) (lead : Shape.t) (nelec : nat)
      (l : list nat) (e c : nat) :
  shape a = lead ++ [nelec * 3] ->
  Shape.in_bounds lead l = true -> e < nelec -> c < 3 ->
  get (mk_ndarray [Shape.prod lead * nelec; 3] (data a))
      [Shape.ravel lead l * nelec + e; c]
  = get a (l ++ [3 * e + c]).
Proof.
  intros Hs Hl He Hc. destruct a as [s d]. simpl in *. subst s.
  pose proof (ravel_lt _ _ Hl) as Hlt.
  pose proof (in_bounds_length _ _ Hl) as Hlen.
  apply get_same_buffer.
  - rewrite in_bounds_2. apply andb_true_intro.
    split; apply Nat.ltb_lt; [nia | assumption].
  - rewrite in_bounds_app, Hl by assumption. simpl.
    rewrite andb_true_r. apply Nat.ltb_lt. lia.
  - rewrite ravel_app by assumption. simpl. nia.
Qed.

(** X16. Aufbau occupation and output shapes of [eval_orbitals].  For a
    non-empty NumPy or JAX array [pos] of shape [lead + (nelec*3,)] with
    [nelec = na + nb], and an SCF object whose [eval_mos] returns the two
    spin channels as [(batch*nelec, nbasis)] arrays with at least [na] and
    [nb] molecular orbitals, [eval_orbitals] returns a pair [(alpha, beta)]
    with the leading dimensions of [pos]: [alpha] has trailing shape
    [(na, na)] and holds, for each configuration, the first [na] orbitals
    of the alpha channel at the first [na] electrons; [beta] has trailing
    shape [(nb, nb)] and holds the first [nb] orbitals of the beta channel
    at the remaining [nb] electrons.  The electrons are the rows of the
    position matrix given to [eval_mos]. *)
Theorem eval_orbitals_aufbau
    (scf_approx : Scf) (pos : pyobj R) (a : ndarray R) (lead : Shape.t)
    (na nb nbasis : nat) (mo_a mo_b : ndarray R) :
  array_of pos = Some a ->
  shape a = lead ++ [(na + nb) * 3] ->
  0 < size a ->
  eval_mos scf_approx (mk_ndarray [Shape.prod lead * (na + nb); 3] (data a))
  = Ok [mo_a; mo_b] ->
  wf mo_a -> wf mo_b ->
  shape mo_a = [Shape.prod lead * (na + nb); nbasis] ->
  shape mo_b = [Shape.prod lead * (na + nb); nbasis] ->
  na <= nbasis -> nb <= nbasis ->
  exists alpha beta,
    eval_orbitals scf_approx pos (na, nb) = Ok (alpha, beta) /\
    wf alpha /\ wf beta /\
    shape alpha = lead ++ [na; na] /\
    shape beta = lead ++ [nb; nb] /\
    (forall l i j, Shape.in_bounds lead l = true -> i < na -> j < na ->
       get alpha (l ++ [i; j])
       = get mo_a [Shape.ravel lead l * (na + nb) + i; j]) /\
    (forall l i j, Shape.in_bounds lead l = true -> i < nb -> j < nb ->
       get beta (l ++ [i; j])
       = get mo_b [Shape.ravel lead l * (na + nb) + (na + i); j]) /\
    (forall l e c, Shape.in_bounds lead l = true -> e < na + nb -> c < 3 ->
       get (mk_ndarray [Shape.prod lead * (na + nb); 3] (data a))
           [Shape.ravel lead l * (na + nb) + e; c]
       = get a (l ++ [3 * e + c])).
Proof.
  intros Harr Hshape Hsize Hmos Hwfa Hwfb Hsa Hsb Hna Hnb.
  assert (Hprod : size a = Shape.prod lead * (na + nb) * 3).
  { unfold size. rewrite Hshape, prod_app. simpl. lia. }
  assert (Hpos : 0 < Shape.prod (lead ++ [na + nb])).
  { rewrite prod_app. simpl. nia. }
  assert (Hre : forall mo : ndarray R,
            shape mo = [Shape.prod lead * (na + nb); nbasis] ->
            Np.reshape mo (map Z.of_nat (lead ++ [na + nb]) ++ [(-1)%Z])
            = Ok (mk_ndarray (lead ++ [na + nb; nbasis]) (data mo))).
  { intros mo Hs. unfold Np.reshape.
    rewrite reshape_infer_last with (k := nbasis); auto.
    - now rewrite <- app_assoc.
    - unfold size. rewrite Hs, prod_app. simpl. lia. }
  set (ra := mk_ndarray (lead ++ [na + nb; nbasis]) (data mo_a)).
  set (rb := mk_ndarray (lead ++ [na + nb; nbasis]) (data mo_b)).
  assert (Hwra : wf ra).
  { unfold wf, ra. simpl. rewrite Hwfa, Hsa, prod_app. simpl. lia. }
  assert (Hwrb : wf rb).
  { unfold wf, rb. simpl. rewrite Hwfb, Hsb, prod_app. simpl. lia. }
  destruct (slice_last2_spec (a := ra) lead (na + nb) nbasis 0 (Some na) na
              Hwra eq_refl) as (alpha & Ealpha & Hwalpha & Hshalpha & Hgalpha).
  destruct (slice_last2_spec (a := rb) lead (na + nb) nbasis na None nb
              Hwrb eq_refl) as (beta & Ebeta & Hwbeta & Hshbeta & Hgbeta).
  exists alpha, beta.
  replace (Nat.min na (na + nb) - Nat.min 0 (na + nb)) with na in * by lia.
  replace (na + nb - Nat.min na (na + nb)) with nb in * by lia.
  replace (Nat.min na nbasis) with na in * by lia.
  replace (Nat.min nb nbasis) with nb in * by lia.
  replace (Nat.min 0 (na + nb)) with 0 in * by lia.
  replace (Nat.min na (na + nb)) with na in * by lia.
  repeat split; auto.
  - unfold eval_orbitals.
    rewrite checked_input_array with (a := a) by exact Harr. simpl bind.
    rewrite py_shape_array with (a := a) by exact Harr. simpl bind.
    rewrite py_reshape_rows_of_3 with (a := a) (n := Shape.prod lead * (na + nb))
      by assumption. simpl bind.
    rewrite Hmos. simpl bind.
    rewrite Hshape. unfold Shape.init. rewrite removelast_last.
    simpl fst. simpl snd. simpl mapM.
    rewrite (Hre _ Hsa), (Hre _ Hsb). simpl bind.
    fold ra rb. unfold Np.item. simpl nth_error. cbv beta iota.
    rewrite Ealpha. simpl bind. rewrite Ebeta. reflexivity.
  - intros l i j Hl Hi Hj. rewrite Hgalpha by assumption.
    apply get_reshaped_mo; auto; lia.
  - intros l i j Hl Hi Hj. rewrite Hgbeta by assumption.
    apply get_reshaped_mo; auto; lia.
  - intros l e c Hl He Hc. now apply get_position_row.
Qed.

(** C7. Input validation of [eval_orbitals].  An input that is neither a
    NumPy array nor an object with a [copy] attribute makes [eval_orbitals]
    raise ValueError chained from the AttributeError; a NumPy array and a
    JAX array pass the check unchanged. *)
Theorem eval_orbitals_input_validation :
  (forall (scf_approx : Scf) (pos : pyobj R) (nspins : nat * nat),
      py_isinstance_ndarray pos = false ->
      supports_copy pos = false ->
      eval_orbitals scf_approx pos nspins
      = Raise (Chained (ValueError "Input must be either NumPy or JAX array.")
                       AttributeError)) /\
  (forall a : ndarray R, checked_input (NumpyArray a) = Ok (NumpyArray a)) /\
  (forall a : ndarray R, checked_input (JaxArray a) = Ok (JaxArray a)).
Proof.
  split; [|split]; try reflexivity.
  intros scf_approx pos nspins Hnd Hcopy.
  destruct pos; simpl in Hnd, Hcopy; try discriminate.
  reflexivity.
Qed.

(** ** Broadcasting arrays of one shape *)

Lemma broadcast_rev_same (r : Shape.t) : Shape.broadcast_rev r r = Some r.
Proof.
  induction r as [|d r IH]; simpl; auto.
  unfold Shape.broadcast_dim. now rewrite IH, Nat.eqb_refl.
Qed.

Lemma broadcast_same (s : Shape.t) : Shape.broadcast s s = Some s.
Proof.
  unfold Shape.broadcast. rewrite broadcast_rev_same. simpl.
  now rewrite rev_involutive.
Qed.

Lemma bindex_same (s : Shape.t) :
  forall idx, Shape.in_bounds s idx = true -> Shape.bindex s idx = idx.
Proof.
  intros idx H. unfold Shape.bindex.
  rewrite (in_bounds_length _ _ H), Nat.sub_diag. simpl skipn.
  revert idx H.
  induction s as [|d s IH]; intros [|i idx] H; simpl in *; try discriminate; auto.
  apply andb_prop in H. destruct H as [Hi H]. apply Nat.ltb_lt in Hi.
  rewrite IH by assumption.
  destruct (Nat.eqb_spec d 1); [f_equal; lia | reflexivity].
Qed.

Lemma broadcast2_same_shape (e : exn) (f : R -> R -> R) (a b : ndarray R) :
  wf a -> wf b -> shape a = shape b ->
  exists c,
    Np.broadcast2 e f a b = Ok c /\
    wf c /\
    shape c = shape a /\
    forall idx x y, get a idx = Some x -> get b idx = Some y ->
                    get c idx = Some (f x y).
Proof.
  intros Hwa Hwb Hs. unfold Np.broadcast2.
  rewrite <- Hs, broadcast_same.
  set (g := fun idx : list nat =>
              match get a (Shape.bindex (shape a) idx),
                    get b (Shape.bindex (shape a) idx) with
              | Some x, Some y => Some (f x y)
              | _, _ => None
              end).
  assert (Hdef : forall idx, Shape.in_bounds (shape a) idx = true -> g idx <> None).
  { intros idx Hidx. unfold g. rewrite bindex_same by assumption.
    pose proof (get_some idx Hwa Hidx). rewrite Hs in Hidx.
    pose proof (get_some idx Hwb Hidx).
    destruct (get a idx); [|congruence]. destruct (get b idx); congruence. }
  eexists. split; [reflexivity|]. split; [now apply gather_wf|].
  split; [reflexivity|].
  intros idx x y Hx Hy.
  assert (Hidx : Shape.in_bounds (shape a) idx = true).
  { unfold get in Hx. destruct (Shape.in_bounds (shape a) idx); congruence. }
  rewrite get_gather by assumption.
  unfold g. rewrite bindex_same by assumption. now rewrite Hx, Hy.
Qed.

(** ** eval_slater *)

Lemma sequence_opt_all_some {A : Type} (xs : list (option A)) :
  (forall o, In o xs -> o <> None) ->
  exists r, Np.sequence_opt xs = Some r /\ map Some r = xs.
Proof.
  induction xs as [|o xs IH]; intros H; simpl.
  - exists []. auto.
  - destruct o as [x|]; [|exfalso; apply (H None); [now left | reflexivity]].
    destruct IH as (r & Er & Hr); [intros; apply H; now right|].
    exists (x :: r). rewrite Er. simpl. now rewrite Hr.
Qed.

(** On a well-formed stack of matrices every matrix is present, and its
    entries are the entries of the array. *)
Lemma matrix_at_some (a : ndarray R) (lead : Shape.t) (n m : nat) (l : list nat) :
  wf a -> shape a = lead ++ [n; m] -> Shape.in_bounds lead l = true ->
  exists M,
    Np.matrix_at a l = Some M /\
    map (map Some) M
    = map (fun i => map (fun j => get a (l ++ [i; j])) (seq 0 m)) (seq 0 n).
Proof.
  intros Hwf Hs Hl. unfold Np.matrix_at.
  rewrite Hs, rev_app_distr. simpl rev. simpl app. cbv beta iota.
  pose proof (in_bounds_length _ _ Hl) as Hlen.
  assert (Hrow : forall i, In i (seq 0 n) ->
            exists r, Np.sequence_opt (map (fun j => get a (l ++ [i; j])) (seq 0 m))
                      = Some r /\
                      map Some r = map (fun j => get a (l ++ [i; j])) (seq 0 m)).
  { intros i Hi. apply in_seq in Hi. apply sequence_opt_all_some.
    intros o Ho. apply in_map_iff in Ho. destruct Ho as (j & <- & Hj).
    apply in_seq in Hj. apply get_some; [assumption|].
    rewrite Hs, in_bounds_app, Hl, in_bounds_2 by assumption. simpl.
    apply andb_true_intro. split; apply Nat.ltb_lt; lia. }
  destruct (sequence_opt_all_some
              (map (fun i => Np.sequence_opt
                               (map (fun j => get a (l ++ [i; j])) (seq 0 m)))
                   (seq 0 n))) as (M & EM & HM).
  { intros o Ho. apply in_map_iff in Ho. destruct Ho as (i & <- & Hi).
    destruct (Hrow i Hi) as (r & Er & _). congruence. }
  exists M. split; [assumption|].
  clear EM. revert M HM Hrow.
  induction (seq 0 n) as [|i rows IH]; intros [|r M] HM Hrow; simpl in *;
    try discriminate; auto.
  injection HM as Hr HM.
  destruct (Hrow i (or_introl eq_refl)) as (r' & Er' & Hr').
  rewrite Er' in Hr. injection Hr as ->.
  rewrite Hr'. f_equal. apply IH; auto.
Qed.

Lemma slogdet_spec (a : ndarray R) (lead : Shape.t) (n : nat) :
  wf a -> shape a = lead ++ [n; n] ->
  exists sign logabs,
    slogdet a = Ok (sign, logabs) /\
    wf sign /\ wf logabs /\
    shape sign = lead /\ shape logabs = lead /\
    forall l, Shape.in_bounds lead l = true ->
      exists M, Np.matrix_at a l = Some M /\
                get sign l = Some (fst (slogdet_matrix M)) /\
                get logabs l = Some (snd (slogdet_matrix M)).
Proof.
  intros Hwf Hs. unfold slogdet.
  rewrite Hs, rev_app_distr. simpl rev. simpl app. cbv beta iota.
  rewrite Nat.eqb_refl, rev_involutive.
  assert (Hdef : forall (p : list (list R) -> R) idx,
             Shape.in_bounds lead idx = true ->
             option_map p (Np.matrix_at a idx) <> None).
  { intros p idx Hidx.
    destruct (@matrix_at_some a lead n n idx Hwf Hs Hidx) as (M & EM & _).
    rewrite EM. discriminate. }
  eexists. eexists. split; [reflexivity|].
  split; [apply gather_wf; intros; now apply Hdef|].
  split; [apply gather_wf; intros; now apply Hdef|].
  split; [reflexivity|]. split; [reflexivity|].
  intros l Hl.
  destruct (@matrix_at_some a lead n n l Hwf Hs Hl) as (M & EM & _).
  exists M. split; [assumption|].
  rewrite !get_gather by (auto; intros; now apply Hdef).
  now rewrite EM.
Qed.

(** C3. Log-domain determinant evaluation.  Whenever [eval_orbitals] returns
    the square orbital matrices [alpha] and [beta] (stacked over the leading
    dimensions [lead]), [eval_slater] returns a pair [(sign, log_abs)] of
    arrays of shape [lead] in which, for every configuration, [sign] is the
    product of the signs that [slogdet] gives for the alpha and beta matrices
    and [log_abs] is the sum of their log absolute determinants.  Only the
    two outputs of [slogdet], one multiplication and one addition enter the
    result: no exponential and no determinant value is formed. *)
Theorem eval_slater_log_domain
    (scf_approx : Scf) (pos : pyobj R) (na nb : nat) (lead : Shape.t)
    (alpha beta : ndarray R) :
  eval_orbitals scf_approx pos (na, nb) = Ok (alpha, beta) ->
  wf alpha -> wf beta ->
  shape alpha = lead ++ [na; na] ->
  shape beta = lead ++ [nb; nb] ->
  exists sign log_abs,
    eval_slater scf_approx pos (na, nb) = Ok (sign, log_abs) /\
    shape sign = lead /\ shape log_abs = lead /\
    forall l, Shape.in_bounds lead l = true ->
      exists A B,
        Np.matrix_at alpha l = Some A /\
        Np.matrix_at beta l = Some B /\
        get sign l
        = Some (Rmul (fst (slogdet_matrix A)) (fst (slogdet_matrix B))) /\
        get log_abs l
        = Some (Radd (snd (slogdet_matrix A)) (snd (slogdet_matrix B))).
Proof.
  intros Horb Hwa Hwb Hsa Hsb.
  destruct (@slogdet_spec alpha lead na Hwa Hsa)
    as (sa & la & Ea & Hwsa & Hwla & Hssa & Hsla & Hga).
  destruct (@slogdet_spec beta lead nb Hwb Hsb)
    as (sb & lb & Eb & Hwsb & Hwlb & Hssb & Hslb & Hgb).
  destruct (@broadcast2_same_shape
              (ValueError "operands could not be broadcast together") Radd
              la lb Hwla Hwlb (eq_trans Hsla (eq_sym Hslb)))
    as (logabs & Elog & _ & Hslog & Hglog).
  destruct (@broadcast2_same_shape
              (ValueError "operands could not be broadcast together") Rmul
              sa sb Hwsa Hwsb (eq_trans Hssa (eq_sym Hssb)))
    as (sign & Esign & _ & Hssign & Hgsign).
  exists sign, logabs.
  split.
  - unfold eval_slater. rewrite Horb. simpl bind. simpl fst. simpl snd.
    simpl mapM. rewrite Ea. simpl bind. rewrite Eb. simpl bind.
    simpl map. cbv beta iota. rewrite Elog. simpl bind. rewrite Esign.
    reflexivity.
  - split; [congruence|]. split; [congruence|].
    intros l Hl.
    destruct (Hga l Hl) as (A & EA & HsA & HlA).
    destruct (Hgb l Hl) as (B & EB & HsB & HlB).
    exists A, B. repeat split; auto.
Qed.

(** ** get_hf *)

(** C5. Hartree-Fock import.  Against every implementation of the scf
    module and from every initial world, the first call [get_hf] makes is
    the [scf.Scf] constructor: with [pyscf_mol] and [restricted] alone when a
    [pyscf_mol] is supplied, and otherwise with [molecule], [nspins], [basis]
    and [restricted].  [get_hf] returns exactly when the constructor and then
    [run()] on the constructed object both return; the calls made are then
    the constructor followed by that single [run()], the object returned is
    the constructed one, and the world it is returned in is the one [run()]
    left. *)
Theorem get_hf_constructs_and_runs_once
    (W : Type)
    (scf_init : call_args scf_arg -> W -> result (Scf * W))
    (scf_run : Scf -> W -> result W)
    (molecule : option (list Atom)) (nspins : option (Z * Z))
    (basis : option string) (pyscf_mol : option Mole) (restricted : option bool)
    (w : W) :
  let args := get_hf_constructor_args molecule nspins basis pyscf_mol restricted in
  let outcome :=
    exec scf_init scf_run (get_hf molecule nspins basis pyscf_mol restricted) w in
  hd_error (fst outcome) = Some (CallInit args) /\
  (forall obj w1 w2,
      scf_init args w = Ok (obj, w1) -> scf_run obj w1 = Ok w2 ->
      outcome = ([CallInit args; CallRun obj], Ok (obj, w2))) /\
  (forall obj w2,
      snd outcome = Ok (obj, w2) ->
      exists w1,
        scf_init args w = Ok (obj, w1) /\
        scf_run obj w1 = Ok w2 /\
        fst outcome = [CallInit args; CallRun obj] /\
        run_count (fst outcome) = 1).
Proof.
  intros args outcome. subst args outcome.
  unfold get_hf, get_hf_constructor_args.
  destruct pyscf_mol as [m|]; simpl;
    match goal with
    | |- context [scf_init ?a w] => destruct (scf_init a w) as [[obj0 w1]|e] eqn:Ei
    end; simpl;
    try destruct (scf_run obj0 w1) as [w2'|e'] eqn:Er; simpl;
    (split; [reflexivity|]); split;
    try (intros obj w1' w2 H1 H2; try discriminate;
         injection H1 as -> ->; rewrite Er in H2; try discriminate;
         now injection H2 as ->);
    try (intros obj w2 H; try discriminate;
         injection H as -> ->; exists w1; auto).
Qed.

(** C8. Noninterference of the ignored arguments of [get_hf].  With a
    [pyscf_mol] supplied, two calls that agree on [pyscf_mol] and
    [restricted] are the same program whatever [molecule], [nspins] and
    [basis] are: against every implementation of the scf module and from
    every world they make the same calls and have the same outcome. *)
Theorem get_hf_ignores_molecule_nspins_basis
    (molecule1 molecule2 : option (list Atom)) (nspins1 nspins2 : option (Z * Z))
    (basis1 basis2 : option string) (pyscf_mol : Mole) (restricted : option bool) :
  get_hf molecule1 nspins1 basis1 (Some pyscf_mol) restricted
  = get_hf molecule2 nspins2 basis2 (Some pyscf_mol) restricted
  /\
  forall (W : Type)
         (scf_init : call_args scf_arg -> W -> result (Scf * W))
         (scf_run : Scf -> W -> result W) (w : W),
    exec scf_init scf_run
         (get_hf molecule1 nspins1 basis1 (Some pyscf_mol) restricted) w
    = exec scf_init scf_run
           (get_hf molecule2 nspins2 basis2 (Some pyscf_mol) restricted) w.
Proof.
  split; [reflexivity|]. intros. reflexivity.
Qed.

(** ** The pretraining loop *)

Lemma for_each_app {St T : Type} (body : St -> T -> result St) (l1 l2 : list T) :
  forall st, for_each body (l1 ++ l2) st
             = (st' <- for_each body l1 st ;; for_each body l2 st').
Proof.
  induction l1 as [|t l1 IH]; intros st; simpl; auto.
  destruct (body st t) as [st1|e]; simpl; auto.
Qed.

(** The [for] loop over [range(iterations)] performs [iterations] steps,
    none when [iterations] is not positive. *)
Lemma for_each_range {St : Type} (body : St -> Z -> result St) (iterations : Z)
      (st : St) :
  for_each body (range iterations) st = iterate_steps body (Z.to_nat iterations) st.
Proof.
  unfold range. induction (Z.to_nat iterations) as [|n IH]; [reflexivity|].
  rewrite seq_S, map_app, for_each_app, IH. simpl.
  destruct (iterate_steps body n st) as [st'|e]; simpl; auto.
  destruct (body st' (Z.of_nat n)); reflexivity.
Qed.

(** One pass through the loop body: the targets are the Hartree-Fock
    orbitals at the current configurations, the step is given the current
    loop variables and a fresh subkey, and its outputs become the loop
    variables; one line is logged. *)
Lemma loop_body_inv (step : step_fn (ndarray R)) (scf_approx : Scf)
      (electrons : nat * nat) (logger : option logger_fn) (st st' : loop_state) (t : Z) :
  loop_body step scf_approx electrons logger st t = Ok st' ->
  exists target loss loss0,
    eval_orbitals scf_approx (JaxArray (ls_data st)) electrons = Ok target /\
    step (ls_data st) [fst target; snd target] (ls_params st) (ls_opt_state st)
         (snd (p_split (ls_key st))) (ls_logprob st)
    = Ok (ls_data st', ls_params st', ls_opt_state st', loss, ls_logprob st') /\
    ls_key st' = fst (p_split (ls_key st)) /\
    Np.index0 loss = Ok loss0 /\
    ls_info st' = ls_info st ++ [(t, loss0)] /\
    ls_logged st' = ls_logged st ++ (if truthy logger then [(t, loss0)] else []).
Proof.
  unfold loop_body. intros H.
  destruct (eval_orbitals scf_approx (JaxArray (ls_data st)) electrons)
    as [target|e] eqn:Et; simpl in H; [|discriminate].
  destruct (p_split (ls_key st)) as [sharded_key subkeys] eqn:Ek.
  destruct (step (ls_data st) [fst target; snd target] (ls_params st)
              (ls_opt_state st) subkeys (ls_logprob st))
    as [[[[[d p] s] loss] lp]|e] eqn:Es; simpl in H; [|discriminate].
  destruct (Np.index0 loss) as [loss0|e] eqn:El; simpl in H; [|discriminate].
  destruct (call_logger logger (ls_logged st) t loss0) as [logged|e] eqn:Ec;
    simpl in H; [|discriminate].
  injection H as <-. simpl.
  exists target, loss, loss0. repeat split; auto.
  unfold call_logger in Ec. destruct logger as [f|]; simpl.
  - destruct (f (ls_logged st) t loss0); simpl in Ec; [|discriminate].
    now injection Ec as <-.
  - injection Ec as <-. now rewrite app_nil_r.
Qed.

(** A pass that returned: every part of it returned, the logger's call
    included, and the new loop variables are the step's outputs. *)
Lemma loop_body_returned (step : step_fn (ndarray R)) (scf_approx : Scf)
      (electrons : nat * nat) (logger : option logger_fn) (st st' : loop_state)
      (t : Z) :
  loop_body step scf_approx electrons logger st t = Ok st' ->
  exists target loss loss0,
    eval_orbitals scf_approx (JaxArray (ls_data st)) electrons = Ok target /\
    step (ls_data st) [fst target; snd target] (ls_params st) (ls_opt_state st)
         (snd (p_split (ls_key st))) (ls_logprob st)
    = Ok (ls_data st', ls_params st', ls_opt_state st', loss, ls_logprob st') /\
    Np.index0 loss = Ok loss0 /\
    (forall f : logger_fn, logger = Some f -> f (ls_logged st) t loss0 = Ok tt) /\
    ls_key st' = fst (p_split (ls_key st)) /\
    ls_info st' = ls_info st ++ [(t, loss0)] /\
    ls_logged st'
    = (if truthy logger then ls_logged st ++ [(t, loss0)] else ls_logged st).
Proof.
  unfold loop_body. intros H.
  destruct (eval_orbitals scf_approx (JaxArray (ls_data st)) electrons)
    as [target|e] eqn:Et; simpl in H; [|discriminate].
  destruct (p_split (ls_key st)) as [sharded_key subkeys] eqn:Ek.
  destruct (step (ls_data st) [fst target; snd target] (ls_params st)
              (ls_opt_state st) subkeys (ls_logprob st))
    as [[[[[d p] s] loss] lp]|e] eqn:Es; simpl in H; [|discriminate].
  destruct (Np.index0 loss) as [loss0|e] eqn:El; simpl in H; [|discriminate].
  destruct (call_logger logger (ls_logged st) t loss0) as [logged|e] eqn:Ec;
    simpl in H; [|discriminate].
  injection H as <-. simpl.
  exists target, loss, loss0.
  unfold call_logger in Ec. destruct logger as [f|]; simpl.
  - destruct (f (ls_logged st) t loss0) as [[]|e] eqn:Ef; simpl in Ec; [|discriminate].
    injection Ec as <-. repeat split; auto.
    intros f' Hf'. injection Hf' as <-. exact Ef.
  - injection Ec as <-. repeat split; auto. discriminate.
Qed.

(** A pass returns when its parts do: the Hartree-Fock orbitals at the
    current configurations, the step on them, [loss[0]] and the logger's
    call.  The step's outputs are then the loop variables, the key is the
    first half of the split, and one line is logged. *)
Lemma loop_body_returns (step : step_fn (ndarray R)) (scf_approx : Scf)
      (electrons : nat * nat) (logger : option logger_fn) (st : loop_state) (t : Z)
      (target : ndarray R * ndarray R) (d : ndarray R) (p : Params) (s : OptState)
      (loss lp loss0 : ndarray R) :
  eval_orbitals scf_approx (JaxArray (ls_data st)) electrons = Ok target ->
  step (ls_data st) [fst target; snd target] (ls_params st) (ls_opt_state st)
       (snd (p_split (ls_key st))) (ls_logprob st)
  = Ok (d, p, s, loss, lp) ->
  Np.index0 loss = Ok loss0 ->
  (forall f : logger_fn, logger = Some f -> f (ls_logged st) t loss0 = Ok tt) ->
  loop_body step scf_approx electrons logger st t
  = Ok (mk_loop_state d p s (fst (p_split (ls_key st))) lp
          (ls_info st ++ [(t, loss0)])
          (if truthy logger then ls_logged st ++ [(t, loss0)] else ls_logged st)).
Proof.
  intros Ht Hs Hl Hf. unfold loop_body. rewrite Ht. simpl bind.
  destruct (p_split (ls_key st)) as [sharded_key subkeys]. simpl in Hs |- *.
  rewrite Hs. simpl bind. rewrite Hl. simpl bind.
  unfold call_logger. destruct logger as [f|]; simpl; [|reflexivity].
  now rewrite (Hf f eq_refl).
Qed.

(** After [n] steps [n] lines have been logged, numbered [0 .. n-1]; the
    logger, when given, has been called with the same. *)
Lemma iterate_steps_log (step : step_fn (ndarray R)) (scf_approx : Scf)
      (electrons : nat * nat) (logger : option logger_fn) (n : nat) :
  forall st st',
    iterate_steps (loop_body step scf_approx electrons logger) n st = Ok st' ->
    exists entries,
      ls_info st' = ls_info st ++ entries /\
      map fst entries = map Z.of_nat (seq 0 n) /\
      ls_logged st' = ls_logged st ++ (if truthy logger then entries else []).
Proof.
  induction n as [|n IH]; intros st st' H; simpl in H.
  - injection H as <-. exists []. simpl.
    rewrite !app_nil_r. destruct (truthy logger); now rewrite ?app_nil_r.
  - destruct (iterate_steps (loop_body step scf_approx electrons logger) n st)
      as [st1|e] eqn:E1; simpl in H; [|discriminate].
    destruct (IH _ _ E1) as (entries & Hi & Hf & Hl).
    apply loop_body_inv in H.
    destruct H as (target & loss & loss0 & _ & _ & _ & _ & Hi' & Hl').
    exists (entries ++ [(Z.of_nat n, loss0)]).
    rewrite Hi', Hi, Hl', Hl, seq_S, !map_app, Hf. simpl.
    rewrite <- !app_assoc. repeat split; auto.
    destruct (truthy logger); simpl; now rewrite ?app_nil_r.
Qed.

Lemma get_map1 (f : R -> R) (a : ndarray R) (idx : list nat) :
  get (Np.map1 f a) idx = option_map f (get a idx).
Proof.
  unfold get, Np.map1. simpl.
  destruct (Shape.in_bounds (shape a) idx); [|reflexivity].
  apply nth_error_map.
Qed.

(** ** The loss of one pretraining step *)

Lemma flat_map_pointwise {A B : Type} (f g : A -> list B) (l : list A) :
  (forall x, In x l -> f x = g x) -> flat_map f l = flat_map g l.
Proof.
  induction l as [|a l IH]; intros H; simpl; auto.
  rewrite (H a) by now left. f_equal. apply IH. intros; apply H; now right.
Qed.

Lemma gather_ext (s : Shape.t) (f g : list nat -> option R) :
  (forall idx, Shape.in_bounds s idx = true -> f idx = g idx) ->
  Np.gather s f = Np.gather s g.
Proof.
  intros H. unfold Np.gather. f_equal.
  apply flat_map_pointwise. intros k Hk. apply in_seq in Hk.
  rewrite H; [reflexivity|]. apply unravel_in_bounds. lia.
Qed.

Lemma map1_gather (h : R -> R) (s : Shape.t) (f : list nat -> option R) :
  Np.map1 h (Np.gather s f) = Np.gather s (fun idx => option_map h (f idx)).
Proof.
  unfold Np.map1, Np.gather. simpl. f_equal.
  induction (seq 0 (Shape.prod s)) as [|k l IH]; simpl; auto.
  rewrite map_app, IH. f_equal.
  destruct (f (Shape.unravel s k)); reflexivity.
Qed.

Lemma get_full (s : Shape.t) (x : R) (idx : list nat) :
  Shape.in_bounds s idx = true -> get (Np.full s x) idx = Some x.
Proof.
  intros H. unfold get, Np.full. simpl. rewrite H.
  apply nth_error_repeat. now apply ravel_lt.
Qed.

Lemma full_wf (s : Shape.t) (x : R) : wf (Np.full s x).
Proof. unfold wf, Np.full. simpl. apply repeat_length. Qed.

Lemma broadcast_dim_same (d : nat) : Shape.broadcast_dim d d = Some d.
Proof. unfold Shape.broadcast_dim. now rewrite Nat.eqb_refl. Qed.

Lemma broadcast_dim_1_l (d : nat) : Shape.broadcast_dim 1 d = Some d.
Proof.
  unfold Shape.broadcast_dim. destruct (Nat.eqb_spec 1 d); [now subst|reflexivity].
Qed.

Lemma broadcast_dim_1_r (d : nat) : Shape.broadcast_dim d 1 = Some d.
Proof.
  unfold Shape.broadcast_dim. destruct (Nat.eqb_spec d 1); [reflexivity|].
  destruct (Nat.eqb_spec d 1); [contradiction|reflexivity].
Qed.

(** An envelope of shape [(B,1,1,1)] against orbitals of shape [(B,K,m,m')]. *)
Lemma broadcast_envelope (B K m m' : nat) :
  Shape.broadcast [B; 1; 1; 1] [B; K; m; m'] = Some [B; K; m; m'].
Proof.
  unfold Shape.broadcast. simpl.
  now rewrite !broadcast_dim_1_l, broadcast_dim_same.
Qed.

(** A target of shape [(B,1,m,m')] against orbitals of shape [(B,K,m,m')]. *)
Lemma broadcast_target (B K m m' : nat) :
  Shape.broadcast [B; 1; m; m'] [B; K; m; m'] = Some [B; K; m; m'].
Proof.
  unfold Shape.broadcast. simpl.
  now rewrite broadcast_dim_1_l, !broadcast_dim_same.
Qed.

Lemma in_bounds_4 (B K m m' : nat) (idx : list nat) :
  Shape.in_bounds [B; K; m; m'] idx = true ->
  exists b k i j, idx = [b; k; i; j] /\ b < B /\ k < K /\ i < m /\ j < m'.
Proof.
  destruct idx as [|b [|k [|i [|j [|x r]]]]]; simpl; intros H;
    try discriminate;
    repeat (apply andb_prop in H; destruct H as [? H]); try discriminate.
  exists b, k, i, j. repeat split; auto; now apply Nat.ltb_lt.
Qed.

Lemma in_bounds_3 (B n m : nat) (idx : list nat) :
  Shape.in_bounds [B; n; m] idx = true ->
  exists b i j, idx = [b; i; j] /\ b < B /\ i < n /\ j < m.
Proof.
  destruct idx as [|b [|i [|j [|x r]]]]; simpl; intros H;
    try discriminate;
    repeat (apply andb_prop in H; destruct H as [? H]); try discriminate.
  exists b, i, j. repeat split; auto; now apply Nat.ltb_lt.
Qed.

Lemma in_bounds_4_intro (B K m m' b k i j : nat) :
  b < B -> k < K -> i < m -> j < m' ->
  Shape.in_bounds [B; K; m; m'] [b; k; i; j] = true.
Proof.
  intros. simpl. repeat (apply andb_true_intro; split); auto; now apply Nat.ltb_lt.
Qed.

Lemma in_bounds_3_intro (B n m b i j : nat) :
  b < B -> i < n -> j < m -> Shape.in_bounds [B; n; m] [b; i; j] = true.
Proof.
  intros. simpl. repeat (apply andb_true_intro; split); auto; now apply Nat.ltb_lt.
Qed.

Lemma bindex_4 (d0 d1 d2 d3 b k i j : nat) :
  Shape.bindex [d0; d1; d2; d3] [b; k; i; j]
  = [if d0 =? 1 then 0 else b; if d1 =? 1 then 0 else k;
     if d2 =? 1 then 0 else i; if d3 =? 1 then 0 else j].
Proof. reflexivity. Qed.

Lemma keep_component (d i : nat) : i < d -> (if d =? 1 then 0 else i) = i.
Proof. intros Hi. destruct (Nat.eqb_spec d 1); lia. Qed.

(** The envelope after [jnp.reshape(env, [B, 1, 1, 1])], read at [(b,0,0,0)]. *)
Lemma get_envelope (h : R -> R) (e : ndarray R) (B b : nat) :
  shape e = [B] -> b < B ->
  get (mk_ndarray [B; 1; 1; 1] (data (Np.map1 h e))) [b; 0; 0; 0]
  = option_map h (get e [b]).
Proof.
  intros Hs Hb. unfold get. simpl shape. rewrite Hs. simpl.
  destruct (Nat.ltb_spec b B); [|lia]. simpl.
  replace (b * 1 + 0) with b by lia. apply nth_error_map.
Qed.

(** The target after [t[:, None, ...]], read at [(b,0,i,j)]. *)
Lemma get_expanded_target (t : ndarray R) (B m m' b i j : nat) :
  shape t = [B; m; m'] -> b < B -> i < m -> j < m' ->
  get (mk_ndarray [B; 1; m; m'] (data t)) [b; 0; i; j] = get t [b; i; j].
Proof.
  intros Hs Hb Hi Hj. destruct t as [s d]. simpl in *. subst s.
  apply get_same_buffer.
  - now apply in_bounds_4_intro; auto.
  - now apply in_bounds_3_intro.
  - simpl. lia.
Qed.

(** [jnp.mean((t[:, None, ...] - env * o)**2)] is the mean of the
    envelope-scaled squared differences. *)
Lemma mean_squared_difference_spec (n B K m : nat) (t e o : ndarray R) :
  wf t -> shape t = [B; m; m] ->
  wf e -> shape e = [B] ->
  wf o -> shape o = [B; K; m; m] ->
  mean_squared_difference t
    (mk_ndarray [B; 1; 1; 1]
       (data (Np.map1 (fun v => Rexp (Rdiv v (Rof_nat n))) e))) o
  = Ok (mean (squared_difference_spec n B K m t e o)).
Proof.
  intros Hwt Hst Hwe Hse Hwo Hso.
  set (h := fun v => Rexp (Rdiv v (Rof_nat n))).
  set (env := mk_ndarray [B; 1; 1; 1] (data (Np.map1 h e))).
  set (t' := mk_ndarray [B; 1; m; m] (data t)).
  set (g1 := fun idx : list nat =>
               match get env (Shape.bindex [B; 1; 1; 1] idx),
                     get o (Shape.bindex [B; K; m; m] idx) with
               | Some x, Some y => Some (Rmul x y)
               | _, _ => None
               end).
  assert (Hg1 : forall b k i j, b < B -> k < K -> i < m -> j < m ->
            exists ev ov, get e [b] = Some ev /\ get o [b; k; i; j] = Some ov /\
                          g1 [b; k; i; j] = Some (Rmul (h ev) ov)).
  { intros b k i j Hb Hk Hi Hj. unfold g1. rewrite !bindex_4.
    rewrite !Nat.eqb_refl. rewrite !keep_component by assumption.
    unfold env. rewrite get_envelope by assumption.
    destruct (get e [b]) as [ev|] eqn:Ee.
    2:{ exfalso. revert Ee. apply get_some; [assumption|].
        rewrite Hse. simpl. destruct (Nat.ltb_spec b B); [reflexivity|lia]. }
    destruct (get o [b; k; i; j]) as [ov|] eqn:Eo.
    2:{ exfalso. revert Eo. apply get_some; [assumption|].
        rewrite Hso. now apply in_bounds_4_intro. }
    exists ev, ov. auto. }
  set (eo := Np.gather [B; K; m; m] g1).
  assert (Hgeo : forall idx, Shape.in_bounds [B; K; m; m] idx = true ->
                             get eo idx = g1 idx).
  { apply get_gather. intros idx Hidx.
    apply in_bounds_4 in Hidx. destruct Hidx as (b & k & i & j & -> & Hb & Hk & Hi & Hj).
    destruct (Hg1 b k i j) as (ev & ov & _ & _ & ->); auto. discriminate. }
  unfold mean_squared_difference, Np.expand_dims1. rewrite Hst. simpl bind.
  fold t'. unfold Np.broadcast2 at 1. simpl shape. rewrite Hso, broadcast_envelope.
  fold g1. fold eo. simpl bind.
  unfold Np.broadcast2. simpl shape. rewrite broadcast_target. simpl bind.
  unfold square. rewrite map1_gather. do 2 f_equal.
  unfold squared_difference_spec. apply gather_ext.
  intros idx Hidx. pose proof Hidx as Hidx'.
  apply in_bounds_4 in Hidx. destruct Hidx as (b & k & i & j & -> & Hb & Hk & Hi & Hj).
  rewrite !bindex_4. rewrite !Nat.eqb_refl.
  rewrite !keep_component by assumption.
  unfold t'. rewrite get_expanded_target by assumption.
  rewrite Hgeo by assumption.
  destruct (Hg1 b k i j) as (ev & ov & Ee & Eo & ->); auto.
  rewrite Ee, Eo.
  destruct (get t [b; i; j]) as [tv|] eqn:Et; reflexivity.
Qed.

Lemma shape_eqb_refl (s : Shape.t) : Np.shape_eqb s s = true.
Proof.
  unfold Np.shape_eqb. destruct (list_eq_dec Nat.eq_dec s s); congruence.
Qed.

(** The concatenations of the [full_det] branch build the block-diagonal
    target. *)
Lemma full_det_target_spec (B na nb : nat) (t0 t1 : ndarray R)
      (rest : list (ndarray R)) :
  wf t0 -> shape t0 = [B; na; na] ->
  wf t1 -> shape t1 = [B; nb; nb] ->
  full_det_target (t0 :: t1 :: rest) = Ok (block_diagonal_spec B na nb t0 t1).
Proof.
  intros Hw0 Hs0 Hw1 Hs1.
  unfold full_det_target, Np.item, Np.shape_at. simpl nth_error. simpl bind.
  rewrite Hs0, Hs1. simpl nth_error. simpl bind.
  set (z0 := Np.full [B; na; nb] (Rlit 0)).
  set (z1 := Np.full [B; nb; na] (Rlit 0)).
  set (ftop := fun idx : list nat =>
                 match nth_error idx 2 with
                 | Some j => if j <? na then get t0 idx
                             else get z0 (firstn 2 idx ++ (j - na) :: skipn 3 idx)
                 | None => None
                 end).
  set (fbot := fun idx : list nat =>
                 match nth_error idx 2 with
                 | Some j => if j <? na then get z1 idx
                             else get t1 (firstn 2 idx ++ (j - na) :: skipn 3 idx)
                 | None => None
                 end).
  assert (Etop : Np.concatenate_back jax_shape_error 0 t0 z0
                 = Ok (Np.gather [B; na; na + nb] ftop)).
  { unfold Np.concatenate_back. unfold z0 at 1 2. simpl shape. rewrite Hs0.
    simpl rev. simpl nth_error. simpl Np.set_extent_rev.
    now rewrite shape_eqb_refl. }
  assert (Ebot : Np.concatenate_back jax_shape_error 0 z1 t1
                 = Ok (Np.gather [B; nb; na + nb] fbot)).
  { unfold Np.concatenate_back. unfold z1 at 1 2. simpl shape. rewrite Hs1.
    simpl rev. simpl nth_error. simpl Np.set_extent_rev.
    now rewrite shape_eqb_refl. }
  rewrite Etop. simpl bind. rewrite Ebot. simpl bind.
  assert (Htop : forall b i j, b < B -> i < na -> j < na + nb ->
            ftop [b; i; j] = if j <? na then get t0 [b; i; j] else Some (Rlit 0)).
  { intros b i j Hb Hi Hj. unfold ftop. simpl.
    destruct (Nat.ltb_spec j na); [reflexivity|].
    apply get_full. apply in_bounds_3_intro; lia. }
  assert (Hbot : forall b i j, b < B -> i < nb -> j < na + nb ->
            fbot [b; i; j] = if j <? na then Some (Rlit 0) else get t1 [b; i; j - na]).
  { intros b i j Hb Hi Hj. unfold fbot. simpl.
    destruct (Nat.ltb_spec j na); [|reflexivity].
    apply get_full. apply in_bounds_3_intro; lia. }
  assert (Hsome0 : forall b i j, b < B -> i < na -> j < na -> get t0 [b; i; j] <> None).
  { intros. apply get_some; [assumption|]. rewrite Hs0. now apply in_bounds_3_intro. }
  assert (Hsome1 : forall b i j, b < B -> i < nb -> j < nb -> get t1 [b; i; j] <> None).
  { intros. apply get_some; [assumption|]. rewrite Hs1. now apply in_bounds_3_intro. }
  assert (Hgtop : forall b i j, b < B -> i < na -> j < na + nb ->
            get (Np.gather [B; na; na + nb] ftop) [b; i; j] = ftop [b; i; j]).
  { intros b i j Hb Hi Hj. apply get_gather; [|now apply in_bounds_3_intro].
    intros idx Hidx. apply in_bounds_3 in Hidx.
    destruct Hidx as (b' & i' & j' & -> & Hb' & Hi' & Hj').
    rewrite Htop by assumption.
    destruct (Nat.ltb_spec j' na); [now apply Hsome0 | discriminate]. }
  assert (Hgbot : forall b i j, b < B -> i < nb -> j < na + nb ->
            get (Np.gather [B; nb; na + nb] fbot) [b; i; j] = fbot [b; i; j]).
  { intros b i j Hb Hi Hj. apply get_gather; [|now apply in_bounds_3_intro].
    intros idx Hidx. apply in_bounds_3 in Hidx.
    destruct Hidx as (b' & i' & j' & -> & Hb' & Hi' & Hj').
    rewrite Hbot by assumption.
    destruct (Nat.ltb_spec j' na); [discriminate | apply Hsome1; lia]. }
  unfold Np.concatenate_back. simpl shape. simpl rev. simpl nth_error.
  simpl Np.set_extent_rev. rewrite shape_eqb_refl. simpl rev. simpl app.
  f_equal. unfold block_diagonal_spec. apply gather_ext.
  intros idx Hidx. apply in_bounds_3 in Hidx.
  destruct Hidx as (b & i & j & -> & Hb & Hi & Hj).
  simpl List.length. simpl nth_error. cbv beta iota.
  destruct (Nat.ltb_spec i na) as [Hlt|Hge].
  - rewrite Hgtop, Htop by assumption.
    destruct (Nat.ltb_spec j na); simpl; [reflexivity|].
    destruct (Nat.leb_spec na i); [lia|reflexivity].
  - simpl firstn. simpl skipn. simpl app.
    rewrite Hgbot, Hbot by lia.
    destruct (Nat.leb_spec na i); [|lia]. simpl.
    destruct (Nat.ltb_spec j na); destruct (Nat.leb_spec na j); try lia; reflexivity.
Qed.

Lemma block_diagonal_wf (B na nb : nat) (t0 t1 : ndarray R) :
  wf t0 -> shape t0 = [B; na; na] ->
  wf t1 -> shape t1 = [B; nb; nb] ->
  wf (block_diagonal_spec B na nb t0 t1).
Proof.
  intros Hw0 Hs0 Hw1 Hs1. apply gather_wf.
  intros idx Hidx. apply in_bounds_3 in Hidx.
  destruct Hidx as (b & i & j & -> & Hb & Hi & Hj).
  destruct (Nat.ltb_spec i na); destruct (Nat.ltb_spec j na); simpl;
    try (destruct (Nat.leb_spec na i); destruct (Nat.leb_spec na j); simpl;
         try discriminate; try lia);
    (apply get_some; [assumption|]);
    rewrite ?Hs0, ?Hs1; apply in_bounds_3_intro; lia.
Qed.

Lemma reshape_envelope (err : exn) (a : ndarray R) (B : nat) :
  shape a = [B] ->
  Np.reshape_with err a [Z.of_nat B; 1%Z; 1%Z; 1%Z]
  = Ok (mk_ndarray [B; 1; 1; 1] (data a)).
Proof.
  intros Hs. unfold Np.reshape_with, Np.unknown_count, Np.known_prod, size.
  rewrite Hs. simpl.
  destruct (Z.ltb_spec (Z.of_nat B) 0); [lia|]. simpl.
  rewrite Nat2Z.id.
  replace (B * Pos.to_nat 1 * (Pos.to_nat 1 * (Pos.to_nat 1 * 1))) with (B * 1)
    by (simpl; lia).
  replace (B * (Pos.to_nat 1 * (Pos.to_nat 1 * (Pos.to_nat 1 * 1)))) with (B * 1)
    by (simpl; lia).
  rewrite Nat.eqb_refl. reflexivity.
Qed.

Section Loss.

Variable batch_envelope_fn : EnvParams -> ndarray R -> result (ndarray R).
Variable batch_orbitals : orbitals_fn.

(** The loss with [full_det] false: the two spin channels' mean squared
    differences, summed, then averaged over the devices. *)
Lemma loss_fn_spin_channels (n B K0 K1 na nb : nat) (p : Params)
      (x e t0 t1 o0 o1 : ndarray R) :
  batch_envelope_fn (envelope_of p) x = Ok e ->
  wf e -> shape e = [B] ->
  batch_orbitals p x = [o0; o1] ->
  wf t0 -> shape t0 = [B; na; na] -> wf o0 -> shape o0 = [B; K0; na; na] ->
  wf t1 -> shape t1 = [B; nb; nb] -> wf o1 -> shape o1 = [B; K1; nb; nb] ->
  loss_fn batch_envelope_fn batch_orbitals false n p x [t0; t1]
  = Ok (pmean (Rsum [mean (squared_difference_spec n B K0 na t0 e o0);
                     mean (squared_difference_spec n B K1 nb t1 e o1)])).
Proof.
  intros He Hwe Hse Ho Hw0 Hs0 Hwo0 Hso0 Hw1 Hs1 Hwo1 Hso1.
  unfold loss_fn. rewrite He. simpl bind.
  unfold Np.shape_last. simpl shape. rewrite Hse. simpl rev. cbv beta iota.
  simpl bind. rewrite reshape_envelope by (simpl; assumption). simpl bind.
  rewrite Ho. simpl combine. simpl mapM. simpl fst. simpl snd.
  change (map (fun v : R => Rexp (Rdiv v (Rof_nat n))) (data e))
    with (data (Np.map1 (fun v => Rexp (Rdiv v (Rof_nat n))) e)).
  rewrite (@mean_squared_difference_spec n B K0 na t0 e o0) by assumption.
  rewrite (@mean_squared_difference_spec n B K1 nb t1 e o1) by assumption.
  reflexivity.
Qed.

(** The loss with [full_det] true: the mean squared difference against the
    block-diagonal target, averaged over the devices. *)
Lemma loss_fn_full_det (n B K na nb : nat) (p : Params)
      (x e t0 t1 o : ndarray R) (trest orest : list (ndarray R)) :
  batch_envelope_fn (envelope_of p) x = Ok e ->
  wf e -> shape e = [B] ->
  batch_orbitals p x = o :: orest ->
  wf t0 -> shape t0 = [B; na; na] ->
  wf t1 -> shape t1 = [B; nb; nb] ->
  wf o -> shape o = [B; K; na + nb; na + nb] ->
  loss_fn batch_envelope_fn batch_orbitals true n p x (t0 :: t1 :: trest)
  = Ok (pmean (mean (squared_difference_spec n B K (na + nb)
                       (block_diagonal_spec B na nb t0 t1) e o))).
Proof.
  intros He Hwe Hse Ho Hw0 Hs0 Hw1 Hs1 Hwo Hso.
  unfold loss_fn. rewrite He. simpl bind.
  unfold Np.shape_last. simpl shape. rewrite Hse. simpl rev. cbv beta iota.
  simpl bind. rewrite reshape_envelope by (simpl; assumption). simpl bind.
  rewrite (@full_det_target_spec B na nb t0 t1 trest) by assumption.
  simpl bind. rewrite Ho. unfold Np.item. simpl nth_error. simpl bind.
  change (map (fun v : R => Rexp (Rdiv v (Rof_nat n))) (data e))
    with (data (Np.map1 (fun v => Rexp (Rdiv v (Rof_nat n))) e)).
  rewrite (@mean_squared_difference_spec n B K (na + nb)
             (block_diagonal_spec B na nb t0 t1) e o); auto.
  now apply block_diagonal_wf.
Qed.

Variable batch_network : network_fn.
Variable optimizer_update : Grads -> OptState -> Params -> Grads * OptState.
Variable use_full_det : bool.

(** One step, once its loss is known: the gradient of the loss at the
    current parameters is averaged over the devices and transformed by the
    optimizer, the update is applied, and one Metropolis-Hastings update is
    made with the new parameters. *)
Lemma pretrain_step_unfold (data : ndarray R) (target : list (ndarray R))
      (params : Params) (state : OptState) (key : Key) (logprob : ndarray R)
      (dims : list nat) (loss_val : R) :
  mapM Np.shape_last target = Ok dims ->
  let loss := fun p => loss_fn batch_envelope_fn batch_orbitals use_full_det
                         (fold_left Nat.add dims 0) p data target in
  loss params = Ok loss_val ->
  let updates_state :=
    optimizer_update (pmean_tree (jax_grad loss params)) state params in
  let params' := optax_apply_updates params (fst updates_state) in
  let moved := mh_update params' batch_network data key logprob 0%Z in
  pretrain_step batch_envelope_fn batch_orbitals batch_network optimizer_update
    use_full_det data target params state key logprob
  = Ok (fst (fst (fst moved)), params', snd updates_state, loss_val,
        snd (fst moved)).
Proof.
  intros Hdims loss Hloss updates_state params' moved.
  unfold pretrain_step. rewrite Hdims. simpl bind.
  fold loss. unfold value_and_grad. rewrite Hloss. simpl bind.
  fold updates_state. subst params' moved.
  destruct updates_state as [updates state']. simpl fst. simpl snd.
  destruct (mh_update (optax_apply_updates params updates) batch_network data key
              logprob 0%Z) as [[[d k] lp] acc].
  reflexivity.
Qed.

(** A step raises exactly when its loss does. *)
Lemma pretrain_step_raises (data : ndarray R) (target : list (ndarray R))
      (params : Params) (state : OptState) (key : Key) (logprob : ndarray R)
      (dims : list nat) (e : exn) :
  mapM Np.shape_last target = Ok dims ->
  loss_fn batch_envelope_fn batch_orbitals use_full_det
    (fold_left Nat.add dims 0) params data target = Raise e ->
  pretrain_step batch_envelope_fn batch_orbitals batch_network optimizer_update
    use_full_det data target params state key logprob
  = Raise e.
Proof.
  intros Hdims Hloss. unfold pretrain_step. rewrite Hdims. simpl bind.
  unfold value_and_grad. now rewrite Hloss.
Qed.

End Loss.

(** A step as one equation: it raises where computing the loss raises, and
    otherwise returns what [pretrain_step_unfold] says. *)
Lemma pretrain_step_eq
      (batch_envelope_fn : EnvParams -> ndarray R -> result (ndarray R))
      (batch_orbitals : orbitals_fn) (batch_network : network_fn)
      (optimizer_update : Grads -> OptState -> Params -> Grads * OptState)
      (use_full_det : bool)
      (data : ndarray R) (target : list (ndarray R))
      (params : Params) (state : OptState) (key : Key) (logprob : ndarray R) :
  make_pretrain_step batch_envelope_fn batch_orbitals batch_network optimizer_update
    use_full_det data target params state key logprob
  = (dims <- mapM Np.shape_last target ;;
     let loss := fun p => loss_fn batch_envelope_fn batch_orbitals use_full_det
                            (fold_left Nat.add dims 0) p data target in
     loss_val <- loss params ;;
     let updates_state :=
       optimizer_update (pmean_tree (jax_grad loss params)) state params in
     let params' := optax_apply_updates params (fst updates_state) in
     let moved := mh_update params' batch_network data key logprob 0%Z in
     Ok (fst (fst (fst moved)), params', snd updates_state, loss_val,
         snd (fst moved))).
Proof.
  unfold make_pretrain_step.
  destruct (mapM Np.shape_last target) as [dims|e] eqn:Ed.
  - simpl bind.
    destruct (loss_fn batch_envelope_fn batch_orbitals use_full_det
                (fold_left Nat.add dims 0) params data target)
      as [v|e] eqn:El.
    + now apply pretrain_step_unfold with (dims := dims).
    + now apply pretrain_step_raises with (dims := dims).
  - unfold pretrain_step. now rewrite Ed.
Qed.

Lemma pretrain_hartree_fock_unfold
    (params : Params) (data : ndarray R)
    (batch_network : network_fn) (batch_orbitals : orbitals_fn)
    (network_options : FermiNetOptions R EnvParams) (sharded_key : Key)
    (atoms : ndarray R) (electrons : nat * nat) (scf_approx : Scf)
    (iterations : Z) (logger : option logger_fn) :
  let optimizer := optax_adam (Rlit (3 # 10000)%Q) in
  let device_step :=
    make_pretrain_step (jax_vmap_None_0 (envelope_fn network_options atoms))
      batch_orbitals batch_network (update optimizer) (full_det network_options) in
  let one_step := loop_body (pmap_step device_step) scf_approx electrons logger in
  let start := fun opt_state_pt pnetwork_out =>
    mk_loop_state data params opt_state_pt sharded_key
      (Np.map1 (Rmul (Rlit 2)) pnetwork_out) [] [] in
  pretrain_hartree_fock params data batch_network batch_orbitals network_options
    sharded_key atoms electrons scf_approx iterations logger
  = (opt_state_pt <- pmap_init (init optimizer) params ;;
     pnetwork_out <- pmap_network batch_network params data ;;
     st <- iterate_steps one_step (Z.to_nat iterations)
             (start opt_state_pt pnetwork_out) ;;
     Ok (ls_params st, ls_data st, (ls_info st, ls_logged st))).
Proof.
  intros optimizer device_step one_step start.
  subst optimizer device_step one_step start.
  unfold pretrain_hartree_fock. cbv zeta.
  destruct (pmap_init (init (optax_adam (Rlit (3 # 10000)%Q))) params);
    simpl bind; [|reflexivity].
  destruct (pmap_network batch_network params data); simpl bind; [|reflexivity].
  now rewrite for_each_range.
Qed.

(** C2. Pretraining fits the network orbitals to the Hartree-Fock
    reference.  Once the optimizer state and the initial log probability are
    there, [pretrain_hartree_fock] performs exactly [iterations] passes (none
    when [iterations] is not positive), pass [t] on the state pass [t-1]
    left, and returns the parameters and configurations of the last state;
    each completed pass logs one line.  A pass evaluates the Hartree-Fock
    orbitals at the current configurations and calls the pmapped device step
    on them with the current loop variables: when these, [loss[0]] and the
    logger return, the pass returns, with the step's outputs as the new
    loop variables; and a pass that returned did so in this way.  The
    envelope function is the envelope's [apply] on the input features for a
    POST_DETERMINANT envelope, and the constant 0 otherwise.  The loss of
    the device step at parameters [p] is the device average of: the sum over
    the two spin channels of the mean squared difference between target and
    envelope-scaled network orbitals, when [full_det] is false; the mean
    squared difference against the block-diagonal combined target, when
    [full_det] is true.  The step's new parameters are the old ones with the
    optimizer's update of the device-averaged gradient of this loss
    applied. *)
Theorem pretrain_fits_hartree_fock
    (params : Params) (data : ndarray R)
    (batch_network : network_fn) (batch_orbitals : orbitals_fn)
    (network_options : FermiNetOptions R EnvParams) (sharded_key : Key)
    (atoms : ndarray R) (electrons : nat * nat) (scf_approx : Scf)
    (iterations : Z) (logger : option logger_fn) :
  let optimizer := optax_adam (Rlit (3 # 10000)%Q) in
  let batch_envelope_fn := jax_vmap_None_0 (envelope_fn network_options atoms) in
  let device_step :=
    make_pretrain_step batch_envelope_fn batch_orbitals batch_network
      (update optimizer) (full_det network_options) in
  let one_step := loop_body (pmap_step device_step) scf_approx electrons logger in
  let start := fun opt_state_pt pnetwork_out =>
    mk_loop_state data params opt_state_pt sharded_key
      (Np.map1 (Rmul (Rlit 2)) pnetwork_out) [] [] in
  (* the loop *)
  pretrain_hartree_fock params data batch_network batch_orbitals network_options
    sharded_key atoms electrons scf_approx iterations logger
  = (opt_state_pt <- pmap_init (init optimizer) params ;;
     pnetwork_out <- pmap_network batch_network params data ;;
     st <- iterate_steps one_step (Z.to_nat iterations)
             (start opt_state_pt pnetwork_out) ;;
     Ok (ls_params st, ls_data st, (ls_info st, ls_logged st)))
  /\
  (forall opt_state_pt pnetwork_out st,
      iterate_steps one_step (Z.to_nat iterations) (start opt_state_pt pnetwork_out)
      = Ok st ->
      map fst (ls_info st) = range iterations /\
      List.length (ls_info st) = Z.to_nat iterations)
  /\
  (* one pass: when it returns, and with what *)
  (forall st t target d p s loss lp loss0,
      eval_orbitals scf_approx (JaxArray (ls_data st)) electrons = Ok target ->
      pmap_step device_step (ls_data st) [fst target; snd target] (ls_params st)
        (ls_opt_state st) (snd (p_split (ls_key st))) (ls_logprob st)
      = Ok (d, p, s, loss, lp) ->
      Np.index0 loss = Ok loss0 ->
      (forall f : logger_fn, logger = Some f -> f (ls_logged st) t loss0 = Ok tt) ->
      one_step st t
      = Ok (mk_loop_state d p s (fst (p_split (ls_key st))) lp
              (ls_info st ++ [(t, loss0)])
              (if truthy logger then ls_logged st ++ [(t, loss0)]
               else ls_logged st)))
  /\
  (forall st t st',
      one_step st t = Ok st' ->
      exists target loss loss0,
        eval_orbitals scf_approx (JaxArray (ls_data st)) electrons = Ok target /\
        pmap_step device_step (ls_data st) [fst target; snd target] (ls_params st)
          (ls_opt_state st) (snd (p_split (ls_key st))) (ls_logprob st)
        = Ok (ls_data st', ls_params st', ls_opt_state st', loss, ls_logprob st') /\
        Np.index0 loss = Ok loss0 /\
        (forall f : logger_fn, logger = Some f -> f (ls_logged st) t loss0 = Ok tt) /\
        ls_key st' = fst (p_split (ls_key st)) /\
        ls_info st' = ls_info st ++ [(t, loss0)] /\
        ls_logged st'
        = (if truthy logger then ls_logged st ++ [(t, loss0)] else ls_logged st))
  /\
  (* the envelope *)
  (forall p x,
      (apply_type (envelope network_options) = POST_DETERMINANT ->
       envelope_fn network_options atoms p x
       = apply (envelope network_options)
           (fst (fst (fst (construct_input_features x atoms))))
           (snd (fst (fst (construct_input_features x atoms))))
           (snd (construct_input_features x atoms)) p)
      /\
      (apply_type (envelope network_options) <> POST_DETERMINANT ->
       envelope_fn network_options atoms p x = Np.full [] (Rlit 0)))
  /\
  (* the device step *)
  (forall (x t0 t1 e : ndarray R) (p : Params) (state : OptState) (key : Key)
          (logprob : ndarray R) (B na nb : nat),
      batch_envelope_fn (envelope_of p) x = Ok e ->
      wf e -> shape e = [B] ->
      wf t0 -> shape t0 = [B; na; na] ->
      wf t1 -> shape t1 = [B; nb; nb] ->
      let loss := fun q => loss_fn batch_envelope_fn batch_orbitals
                             (full_det network_options) (na + nb) q x [t0; t1] in
      (full_det network_options = false ->
       forall (o0 o1 : ndarray R) (K0 K1 : nat),
         batch_orbitals p x = [o0; o1] ->
         wf o0 -> shape o0 = [B; K0; na; na] ->
         wf o1 -> shape o1 = [B; K1; nb; nb] ->
         loss p
         = Ok (pmean (Rsum [mean (squared_difference_spec (na + nb) B K0 na t0 e o0);
                            mean (squared_difference_spec (na + nb) B K1 nb t1 e o1)])))
      /\
      (full_det network_options = true ->
       forall (o : ndarray R) (orest : list (ndarray R)) (K : nat),
         batch_orbitals p x = o :: orest ->
         wf o -> shape o = [B; K; na + nb; na + nb] ->
         loss p
         = Ok (pmean (mean (squared_difference_spec (na + nb) B K (na + nb)
                              (block_diagonal_spec B na nb t0 t1) e o))))
      /\
      (forall loss_val,
          loss p = Ok loss_val ->
          exists data' logprob',
            device_step x [t0; t1] p state key logprob
            = Ok (data',
                  optax_apply_updates p
                    (fst (update optimizer (pmean_tree (jax_grad loss p)) state p)),
                  snd (update optimizer (pmean_tree (jax_grad loss p)) state p),
                  loss_val, logprob'))).
Proof.
  intros optimizer batch_envelope_fn device_step one_step start.
  split; [apply pretrain_hartree_fock_unfold|].
  split.
  { intros opt_state_pt pnetwork_out st Hst. apply iterate_steps_log in Hst.
    destruct Hst as (entries & Hi & Hf & _). unfold start in Hi. simpl in Hi.
    rewrite Hi. split; [exact Hf|].
    rewrite <- (length_map fst), Hf, length_map, length_seq. reflexivity. }
  split.
  { intros st t target d p s loss lp loss0 Ht Hs Hl Hf.
    now apply loop_body_returns with (target := target) (loss := loss). }
  split.
  { intros st t st' H. now apply loop_body_returned. }
  split.
  { intros p x. unfold envelope_fn. split.
    - intros ->. simpl.
      now destruct (construct_input_features x atoms) as [[[ae r_ae] r_ae'] r_ee].
    - intros Hne.
      destruct (apply_type (envelope network_options)); try reflexivity.
      contradiction. }
  intros x t0 t1 e p state key logprob B na nb He Hwe Hse Hw0 Hs0 Hw1 Hs1 loss.
  split; [|split].
  - intros Hfd o0 o1 K0 K1 Ho Hwo0 Hso0 Hwo1 Hso1. unfold loss. rewrite Hfd.
    now apply loss_fn_spin_channels.
  - intros Hfd o orest K Ho Hwo Hso. unfold loss. rewrite Hfd.
    now apply loss_fn_full_det with (orest := orest).
  - intros loss_val Hloss. unfold device_step. rewrite pretrain_step_eq.
    unfold Np.shape_last. simpl mapM. rewrite Hs0, Hs1. simpl rev. simpl bind.
    unfold loss in Hloss. rewrite Hloss. simpl bind.
    eexists. eexists. reflexivity.
Qed.

(** C4. MCMC coupling of pretraining.  A pretraining step that gets as far
    as its loss returns, and it then makes one Metropolis-Hastings update:
    [mh_update] is applied once, to the configurations the step was given,
    with the parameters already updated and the network's log magnitude
    [batch_network], and the step returns the configurations and log
    probability that update produced.  In [pretrain_hartree_fock] the log
    probability handed to the first step is, entry by entry, twice what the
    pmapped network returned on the initial configurations, and every later
    step is handed the configurations and log probability the step before it
    returned. *)
Theorem pretrain_mcmc_coupling
    (params : Params) (data : ndarray R)
    (batch_network : network_fn) (batch_orbitals : orbitals_fn)
    (network_options : FermiNetOptions R EnvParams) (sharded_key : Key)
    (atoms : ndarray R) (electrons : nat * nat) (scf_approx : Scf)
    (iterations : Z) (logger : option logger_fn) :
  let optimizer := optax_adam (Rlit (3 # 10000)%Q) in
  let batch_envelope_fn := jax_vmap_None_0 (envelope_fn network_options atoms) in
  let device_step :=
    make_pretrain_step batch_envelope_fn batch_orbitals batch_network
      (update optimizer) (full_det network_options) in
  let one_step := loop_body (pmap_step device_step) scf_approx electrons logger in
  let start := fun opt_state_pt pnetwork_out =>
    mk_loop_state data params opt_state_pt sharded_key
      (Np.map1 (Rmul (Rlit 2)) pnetwork_out) [] [] in
  (* the device step *)
  (forall (x : ndarray R) (target : list (ndarray R)) (p : Params)
          (state : OptState) (key : Key) (logprob : ndarray R),
      device_step x target p state key logprob
      = (dims <- mapM Np.shape_last target ;;
         let loss := fun q => loss_fn batch_envelope_fn batch_orbitals
                                (full_det network_options)
                                (fold_left Nat.add dims 0) q x target in
         loss_val <- loss p ;;
         let updates_state :=
           update optimizer (pmean_tree (jax_grad loss p)) state p in
         let params' := optax_apply_updates p (fst updates_state) in
         let moved := mh_update params' batch_network x key logprob 0%Z in
         Ok (fst (fst (fst moved)), params', snd updates_state, loss_val,
             snd (fst moved))))
  /\
  (* the chain starts at twice the log magnitude *)
  pretrain_hartree_fock params data batch_network batch_orbitals network_options
    sharded_key atoms electrons scf_approx iterations logger
  = (opt_state_pt <- pmap_init (init optimizer) params ;;
     pnetwork_out <- pmap_network batch_network params data ;;
     st <- iterate_steps one_step (Z.to_nat iterations)
             (start opt_state_pt pnetwork_out) ;;
     Ok (ls_params st, ls_data st, (ls_info st, ls_logged st)))
  /\
  (forall opt_state_pt pnetwork_out idx,
      get (ls_logprob (start opt_state_pt pnetwork_out)) idx
      = option_map (Rmul (Rlit 2)) (get pnetwork_out idx))
  /\
  (* and is threaded through the steps *)
  (forall st t st',
      one_step st t = Ok st' ->
      exists target loss,
        pmap_step device_step (ls_data st) target (ls_params st)
          (ls_opt_state st) (snd (p_split (ls_key st))) (ls_logprob st)
        = Ok (ls_data st', ls_params st', ls_opt_state st', loss, ls_logprob st')).
Proof.
  intros optimizer batch_envelope_fn device_step one_step start.
  split; [intros; apply pretrain_step_eq|].
  split; [apply pretrain_hartree_fock_unfold|].
  split; [intros opt_state_pt pnetwork_out idx; apply get_map1|].
  intros st t st' H. apply loop_body_inv in H.
  destruct H as (target & loss & loss0 & _ & Hs & _).
  exists [fst target; snd target], loss. exact Hs.
Qed.

(** * Further properties of the code *)

(** ** eval_orbitals: what it accepts *)

(** Two well-formed arrays of one shape with the same entries are equal. *)
Lemma ndarray_ext (a b : ndarray R) :
  wf a -> wf b -> shape a = shape b ->
  (forall idx, Shape.in_bounds (shape a) idx = true -> get a idx = get b idx) ->
  a = b.
Proof.
  destruct a as [s da], b as [s' db]. unfold wf. simpl.
  intros Hwa Hwb <- Hget. f_equal.
  apply nth_error_ext. intros k.
  destruct (Nat.lt_ge_cases k (Shape.prod s)) as [Hk|Hk].
  - specialize (Hget (Shape.unravel s k) (@unravel_in_bounds s k Hk)).
    unfold get in Hget. simpl in Hget.
    rewrite unravel_in_bounds, ravel_unravel in Hget by assumption.
    exact Hget.
  - transitivity (@None R); [|symmetry]; apply nth_error_None; lia.
Qed.

(** What [eval_orbitals] returns on a non-empty array when [eval_mos] gives
    two [(batch*nelec, nbasis)] arrays: the slices clip to the orbitals there
    are. *)
Lemma eval_orbitals_returns
    (scf_approx : Scf) (pos : pyobj R) (a : ndarray R) (lead : Shape.t)
    (na nb nbasis : nat) (mo_a mo_b : ndarray R) :
  array_of pos = Some a ->
  shape a = lead ++ [(na + nb) * 3] ->
  0 < size a ->
  eval_mos scf_approx (mk_ndarray [Shape.prod lead * (na + nb); 3] (data a))
  = Ok [mo_a; mo_b] ->
  wf mo_a -> wf mo_b ->
  shape mo_a = [Shape.prod lead * (na + nb); nbasis] ->
  shape mo_b = [Shape.prod lead * (na + nb); nbasis] ->
  exists alpha beta,
    eval_orbitals scf_approx pos (na, nb) = Ok (alpha, beta) /\
    wf alpha /\ wf beta /\
    shape alpha = lead ++ [na; Nat.min na nbasis] /\
    shape beta = lead ++ [nb; Nat.min nb nbasis] /\
    (forall l i j, Shape.in_bounds lead l = true -> i < na -> j < Nat.min na nbasis ->
       get alpha (l ++ [i; j])
       = get mo_a [Shape.ravel lead l * (na + nb) + i; j]) /\
    (forall l i j, Shape.in_bounds lead l = true -> i < nb -> j < Nat.min nb nbasis ->
       get beta (l ++ [i; j])
       = get mo_b [Shape.ravel lead l * (na + nb) + (na + i); j]).
Proof.
  intros Harr Hshape Hsize Hmos Hwfa Hwfb Hsa Hsb.
  assert (Hprod : size a = Shape.prod lead * (na + nb) * 3).
  { unfold size. rewrite Hshape, prod_app. simpl. lia. }
  assert (Hpos : 0 < Shape.prod (lead ++ [na + nb])).
  { rewrite prod_app. simpl. nia. }
  assert (Hre : forall mo : ndarray R,
            shape mo = [Shape.prod lead * (na + nb); nbasis] ->
            Np.reshape mo (map Z.of_nat (lead ++ [na + nb]) ++ [(-1)%Z])
            = Ok (mk_ndarray (lead ++ [na + nb; nbasis]) (data mo))).
  { intros mo Hs. unfold Np.reshape.
    rewrite reshape_infer_last with (k := nbasis); auto.
    - now rewrite <- app_assoc.
    - unfold size. rewrite Hs, prod_app. simpl. lia. }
  set (ra := mk_ndarray (lead ++ [na + nb; nbasis]) (data mo_a)).
  set (rb := mk_ndarray (lead ++ [na + nb; nbasis]) (data mo_b)).
  assert (Hwra : wf ra).
  { unfold wf, ra. simpl. rewrite Hwfa, Hsa, prod_app. simpl. lia. }
  assert (Hwrb : wf rb).
  { unfold wf, rb. simpl. rewrite Hwfb, Hsb, prod_app. simpl. lia. }
  destruct (slice_last2_spec (a := ra) lead (na + nb) nbasis 0 (Some na) na
              Hwra eq_refl) as (alpha & Ealpha & Hwalpha & Hshalpha & Hgalpha).
  destruct (slice_last2_spec (a := rb) lead (na + nb) nbasis na None nb
              Hwrb eq_refl) as (beta & Ebeta & Hwbeta & Hshbeta & Hgbeta).
  exists alpha, beta.
  replace (Nat.min na (na + nb) - Nat.min 0 (na + nb)) with na in * by lia.
  replace (na + nb - Nat.min na (na + nb)) with nb in * by lia.
  replace (Nat.min 0 (na + nb)) with 0 in * by lia.
  replace (Nat.min na (na + nb)) with na in * by lia.
  repeat split; auto.
  - unfold eval_orbitals.
    rewrite checked_input_array with (a := a) by exact Harr. simpl bind.
    rewrite py_shape_array with (a := a) by exact Harr. simpl bind.
    rewrite py_reshape_rows_of_3 with (a := a) (n := Shape.prod lead * (na + nb))
      by assumption.
    simpl bind. rewrite Hmos. simpl bind.
    rewrite Hshape. unfold Shape.init. rewrite removelast_last.
    simpl fst. simpl snd. simpl mapM.
    rewrite (Hre _ Hsa), (Hre _ Hsb). simpl bind.
    fold ra rb. unfold Np.item. simpl nth_error. cbv beta iota.
    rewrite Ealpha. simpl bind. rewrite Ebeta. reflexivity.
  - intros l i j Hl Hi Hj. rewrite Hgalpha by assumption.
    apply get_reshaped_mo; auto; lia.
  - intros l i j Hl Hi Hj. rewrite Hgbeta by assumption.
    apply get_reshaped_mo; auto; lia.
Qed.

(** The exception of a reshape that fails is the only thing its first
    argument decides. *)
Lemma reshape_with_error (err : exn) (a : ndarray R) (newshape : list Z) :
  Np.reshape_with err a newshape
  = match Np.reshape a newshape with
    | Ok r => Ok r
    | Raise _ => Raise err
    end.
Proof.
  unfold Np.reshape, Np.reshape_with.
  destruct (Np.unknown_count newshape) as [|[|k]]; try reflexivity.
  - destruct (size a =? Np.known_prod newshape); reflexivity.
  - destruct ((Np.known_prod newshape =? 0)
              || negb (size a mod Np.known_prod newshape =? 0)); reflexivity.
Qed.

(** [np.reshape] does to a JAX array what it does to the NumPy array with
    the same contents, also when it fails. *)
Lemma py_reshape_jax (a : ndarray R) (newshape : list Z) :
  py_reshape (JaxArray a) newshape = py_reshape (NumpyArray a) newshape.
Proof.
  unfold py_reshape. rewrite reshape_with_error.
  destruct (Np.reshape a newshape); reflexivity.
Qed.

(** X1. A position array whose size is not a multiple of 3 is refused by the
    reshape to [(-1, 3)], before [eval_mos] is reached, with NumPy's
    ValueError: also for a JAX array, whose own TypeError [np.reshape]
    catches before it tries again on a NumPy copy. *)
Theorem eval_orbitals_size_not_multiple_of_3
    (scf_approx : Scf) (a : ndarray R) (nspins : nat * nat) :
  size a mod 3 <> 0 ->
  eval_orbitals scf_approx (NumpyArray a) nspins
  = Raise (ValueError "cannot reshape array")
  /\ eval_orbitals scf_approx (JaxArray a) nspins
     = Raise (ValueError "cannot reshape array").
Proof.
  intros Hmod.
  assert (H : Np.reshape a [(-1)%Z; 3%Z] = Raise (ValueError "cannot reshape array")).
  { unfold Np.reshape, Np.reshape_with.
    change (Np.unknown_count [(-1)%Z; 3%Z]) with 1.
    change (Np.known_prod [(-1)%Z; 3%Z]) with 3.
    destruct (Nat.eqb_spec (size a mod 3) 0); [contradiction|reflexivity]. }
  assert (Hjax : py_reshape (JaxArray a) [(-1)%Z; 3%Z]
                 = Raise (ValueError "cannot reshape array")).
  { rewrite py_reshape_jax. exact H. }
  split; unfold eval_orbitals;
    cbn [checked_input py_isinstance_ndarray negb py_copy py_shape bind].
  - change (py_reshape (NumpyArray a) [(-1)%Z; 3%Z])
      with (Np.reshape a [(-1)%Z; 3%Z]).
    now rewrite H.
  - now rewrite Hjax.
Qed.

(** X2. The input check by what [copy()] does.  An AttributeError raised
    inside [copy()], with or without a cause chained to it, is reported like
    a missing [copy]: ValueError chained from that exception.  An exception
    of [copy()] that is no AttributeError passes through.  When [copy()]
    returns, it is the copy that is used: an array is evaluated, and an
    object without [shape] (a list, a dict) fails with a bare
    AttributeError, not with the ValueError of the check. *)
Theorem eval_orbitals_copy_outcomes
    (scf_approx : Scf) (nspins : nat * nat) :
  (forall e, unchained e = AttributeError ->
             eval_orbitals scf_approx (ObjectCopyRaises e) nspins
             = Raise (Chained
                        (ValueError "Input must be either NumPy or JAX array.") e))
  /\
  (forall e, unchained e <> AttributeError ->
             eval_orbitals scf_approx (ObjectCopyRaises e) nspins = Raise e)
  /\
  (forall o a, array_of o = Some a ->
               eval_orbitals scf_approx (ObjectCopyReturns o) nspins
               = eval_orbitals scf_approx o nspins)
  /\
  (forall o, array_of o = None ->
             eval_orbitals scf_approx (ObjectCopyReturns o) nspins
             = Raise AttributeError).
Proof.
  split; [|split; [|split]].
  - intros e He. unfold eval_orbitals, checked_input, is_AttributeError.
    simpl. now rewrite He.
  - intros e He. unfold eval_orbitals, checked_input, is_AttributeError.
    simpl. destruct (unchained e); try reflexivity. contradiction.
  - intros o a Ho. unfold eval_orbitals at 1. unfold checked_input. simpl.
    unfold eval_orbitals.
    rewrite checked_input_array with (a := a) by exact Ho. reflexivity.
  - intros o Ho. unfold eval_orbitals, checked_input. simpl.
    destruct o; simpl in *; try discriminate; reflexivity.
Qed.


(** ** eval_orbitals and eval_slater: fewer orbitals than electrons *)

Lemma slogdet_not_square (a : ndarray R) (lead : Shape.t) (n m : nat) :
  shape a = lead ++ [n; m] -> n <> m -> slogdet a = Raise LinAlgError.
Proof.
  intros Hs Hnm. unfold slogdet.
  rewrite Hs, rev_app_distr. simpl rev. simpl app. cbv beta iota.
  destruct (Nat.eqb_spec n m); [contradiction|reflexivity].
Qed.

(** X3. When the SCF object has fewer orbitals than a spin channel has electrons,
    [eval_orbitals] does not complain: the column slice clips, and the matrix
    of that channel comes back with [nbasis] columns only.  [eval_slater]
    then fails in [slogdet] with LinAlgError. *)
Theorem too_few_orbitals_clip_then_fail
    (scf_approx : Scf) (pos : pyobj R) (a : ndarray R) (lead : Shape.t)
    (na nb nbasis : nat) (mo_a mo_b : ndarray R) :
  array_of pos = Some a ->
  shape a = lead ++ [(na + nb) * 3] ->
  0 < size a ->
  eval_mos scf_approx (mk_ndarray [Shape.prod lead * (na + nb); 3] (data a))
  = Ok [mo_a; mo_b] ->
  wf mo_a -> wf mo_b ->
  shape mo_a = [Shape.prod lead * (na + nb); nbasis] ->
  shape mo_b = [Shape.prod lead * (na + nb); nbasis] ->
  nbasis < na \/ nbasis < nb ->
  (exists alpha beta,
      eval_orbitals scf_approx pos (na, nb) = Ok (alpha, beta) /\
      shape alpha = lead ++ [na; Nat.min na nbasis] /\
      shape beta = lead ++ [nb; Nat.min nb nbasis])
  /\ eval_slater scf_approx pos (na, nb) = Raise LinAlgError.
Proof.
  intros Harr Hshape Hsize Hmos Hwfa Hwfb Hsa Hsb Hfew.
  destruct (@eval_orbitals_returns scf_approx pos a lead na nb nbasis mo_a mo_b
              Harr Hshape Hsize Hmos Hwfa Hwfb Hsa Hsb)
    as (alpha & beta & He & Hwa & Hwb & Hsha & Hshb & _).
  split; [exists alpha, beta; auto|].
  unfold eval_slater. rewrite He. simpl bind. simpl fst. simpl snd. simpl mapM.
  destruct (Nat.lt_ge_cases nbasis na) as [Hlt|Hge].
  - rewrite (@slogdet_not_square alpha lead na (Nat.min na nbasis)) by (auto; lia).
    reflexivity.
  - replace (Nat.min na nbasis) with na in Hsha by lia.
    destruct (@slogdet_spec alpha lead na Hwa Hsha) as (s & l & Es & _).
    rewrite Es. simpl bind.
    rewrite (@slogdet_not_square beta lead nb (Nat.min nb nbasis)) by (auto; lia).
    reflexivity.
Qed.

(** X4. Only the occupied orbitals are read: two SCF objects whose orbital
    values agree on the first [na] alpha orbitals at the spin-up electrons
    and on the first [nb] beta orbitals at the spin-down electrons give the
    same matrices, whatever their other orbitals are and however many they
    have. *)
Theorem eval_orbitals_reads_occupied_only
    (scf1 scf2 : Scf) (pos : pyobj R) (a : ndarray R) (lead : Shape.t)
    (na nb nbasis1 nbasis2 : nat) (mo_a1 mo_b1 mo_a2 mo_b2 : ndarray R) :
  array_of pos = Some a ->
  shape a = lead ++ [(na + nb) * 3] ->
  0 < size a ->
  eval_mos scf1 (mk_ndarray [Shape.prod lead * (na + nb); 3] (data a))
  = Ok [mo_a1; mo_b1] ->
  eval_mos scf2 (mk_ndarray [Shape.prod lead * (na + nb); 3] (data a))
  = Ok [mo_a2; mo_b2] ->
  wf mo_a1 -> wf mo_b1 -> wf mo_a2 -> wf mo_b2 ->
  shape mo_a1 = [Shape.prod lead * (na + nb); nbasis1] ->
  shape mo_b1 = [Shape.prod lead * (na + nb); nbasis1] ->
  shape mo_a2 = [Shape.prod lead * (na + nb); nbasis2] ->
  shape mo_b2 = [Shape.prod lead * (na + nb); nbasis2] ->
  na <= nbasis1 -> nb <= nbasis1 -> na <= nbasis2 -> nb <= nbasis2 ->
  (forall l i j, Shape.in_bounds lead l = true -> i < na -> j < na ->
     get mo_a1 [Shape.ravel lead l * (na + nb) + i; j]
     = get mo_a2 [Shape.ravel lead l * (na + nb) + i; j]) ->
  (forall l i j, Shape.in_bounds lead l = true -> i < nb -> j < nb ->
     get mo_b1 [Shape.ravel lead l * (na + nb) + (na + i); j]
     = get mo_b2 [Shape.ravel lead l * (na + nb) + (na + i); j]) ->
  eval_orbitals scf1 pos (na, nb) = eval_orbitals scf2 pos (na, nb).
Proof.
  intros Harr Hshape Hsize Hm1 Hm2 Hwa1 Hwb1 Hwa2 Hwb2 Hsa1 Hsb1 Hsa2 Hsb2
         Hna1 Hnb1 Hna2 Hnb2 Hagree_a Hagree_b.
  destruct (@eval_orbitals_returns scf1 pos a lead na nb nbasis1 mo_a1 mo_b1
              Harr Hshape Hsize Hm1 Hwa1 Hwb1 Hsa1 Hsb1)
    as (alpha1 & beta1 & He1 & Hw1 & Hw1' & Hs1 & Hs1' & Hg1 & Hg1').
  destruct (@eval_orbitals_returns scf2 pos a lead na nb nbasis2 mo_a2 mo_b2
              Harr Hshape Hsize Hm2 Hwa2 Hwb2 Hsa2 Hsb2)
    as (alpha2 & beta2 & He2 & Hw2 & Hw2' & Hs2 & Hs2' & Hg2 & Hg2').
  replace (Nat.min na nbasis1) with na in * by lia.
  replace (Nat.min nb nbasis1) with nb in * by lia.
  replace (Nat.min na nbasis2) with na in * by lia.
  replace (Nat.min nb nbasis2) with nb in * by lia.
  rewrite He1, He2. do 2 f_equal.
  - apply ndarray_ext; auto; [congruence|].
    intros idx Hidx. rewrite Hs1 in Hidx. apply in_bounds_split2 in Hidx.
    destruct Hidx as (l & i & j & -> & Hl & Hi & Hj).
    rewrite Hg1, Hg2 by assumption. now apply Hagree_a.
  - apply ndarray_ext; auto; [congruence|].
    intros idx Hidx. rewrite Hs1' in Hidx. apply in_bounds_split2 in Hidx.
    destruct Hidx as (l & i & j & -> & Hl & Hi & Hj).
    rewrite Hg1', Hg2' by assumption. now apply Hagree_b.
Qed.


(** ** get_hf: exceptions *)

(** X5. [get_hf] catches nothing.  When the constructor raises, the exception
    is [get_hf]'s and [run()] is never called; when [run()] raises, the
    exception is [get_hf]'s and the constructed object is not returned. *)
Theorem get_hf_propagates_exceptions
    (W : Type)
    (scf_init : call_args scf_arg -> W -> result (Scf * W))
    (scf_run : Scf -> W -> result W)
    (molecule : option (list Atom)) (nspins : option (Z * Z))
    (basis : option string) (pyscf_mol : option Mole) (restricted : option bool)
    (w : W) :
  let args := get_hf_constructor_args molecule nspins basis pyscf_mol restricted in
  let outcome :=
    exec scf_init scf_run (get_hf molecule nspins basis pyscf_mol restricted) w in
  (forall e, scf_init args w = Raise e ->
             outcome = ([CallInit args], Raise e) /\ run_count (fst outcome) = 0)
  /\
  (forall obj w1 e,
      scf_init args w = Ok (obj, w1) -> scf_run obj w1 = Raise e ->
      outcome = ([CallInit args; CallRun obj], Raise e)).
Proof.
  intros args outcome. subst args outcome.
  unfold get_hf, get_hf_constructor_args.
  destruct pyscf_mol as [m|]; simpl; split.
  all: try (intros e He; rewrite He; split; reflexivity).
  all: intros obj w1 e Hi Hr; rewrite Hi; simpl; rewrite Hr; reflexivity.
Qed.

(** ** pretrain_hartree_fock: the logger and the keys *)

(** A pass that returns with a logger returns without one, to the same
    loop variables. *)
Lemma loop_body_without_logger (step : step_fn (ndarray R)) (scf_approx : Scf)
      (electrons : nat * nat) (logger : option logger_fn)
      (st1 st2 st1' : loop_state) (t : Z) :
  same_training st1 st2 ->
  loop_body step scf_approx electrons logger st1 t = Ok st1' ->
  exists st2',
    loop_body step scf_approx electrons None st2 t = Ok st2' /\
    same_training st1' st2'.
Proof.
  intros (Hd & Hp & Ho & Hk & Hl & Hi) H. apply loop_body_inv in H.
  destruct H as (target & loss & loss0 & Ht & Hs & Hk' & Hl0 & Hi' & _).
  rewrite Hd, Hp, Ho, Hk, Hl in *.
  eexists. split.
  - apply loop_body_returns with (target := target) (loss := loss) (loss0 := loss0);
      [exact Ht | exact Hs | exact Hl0 | discriminate].
  - unfold same_training. simpl. rewrite Hi', Hi. auto 10.
Qed.

(** With a logger whose calls all return, a pass fares as without one. *)
Lemma loop_body_quiet_logger (step : step_fn (ndarray R)) (scf_approx : Scf)
      (electrons : nat * nat) (f : logger_fn) (st1 st2 : loop_state) (t : Z) :
  (forall calls t value, f calls t value = Ok tt) ->
  same_training st1 st2 ->
  match loop_body step scf_approx electrons (Some f) st1 t,
        loop_body step scf_approx electrons None st2 t with
  | Ok st1', Ok st2' => same_training st1' st2'
  | Raise e1, Raise e2 => e1 = e2
  | _, _ => False
  end.
Proof.
  intros Hf (Hd & Hp & Ho & Hk & Hl & Hi). unfold loop_body.
  rewrite Hd, Hp, Ho, Hk, Hl, Hi.
  destruct (eval_orbitals scf_approx (JaxArray (ls_data st2)) electrons)
    as [target|e]; simpl; [|reflexivity].
  destruct (p_split (ls_key st2)) as [sharded_key subkeys].
  destruct (step (ls_data st2) [fst target; snd target] (ls_params st2)
              (ls_opt_state st2) subkeys (ls_logprob st2))
    as [[[[[d p] s] loss] lp]|e]; simpl; [|reflexivity].
  destruct (Np.index0 loss) as [loss0|e]; simpl; [|reflexivity].
  rewrite Hf. simpl. unfold same_training. simpl. auto 10.
Qed.

Lemma iterate_steps_without_logger (step : step_fn (ndarray R)) (scf_approx : Scf)
      (electrons : nat * nat) (logger : option logger_fn) (n : nat) :
  forall st1 st2 st1',
    same_training st1 st2 ->
    iterate_steps (loop_body step scf_approx electrons logger) n st1 = Ok st1' ->
    exists st2',
      iterate_steps (loop_body step scf_approx electrons None) n st2 = Ok st2' /\
      same_training st1' st2'.
Proof.
  induction n as [|n IH]; intros st1 st2 st1' Hsame H; simpl in H |- *.
  - injection H as <-. eauto.
  - destruct (iterate_steps (loop_body step scf_approx electrons logger) n st1)
      as [m1|e] eqn:E1; simpl in H; [|discriminate].
    destruct (IH _ _ _ Hsame E1) as (m2 & E2 & Hm). rewrite E2. simpl.
    now apply loop_body_without_logger with (logger := logger) (st1 := m1).
Qed.

Lemma iterate_steps_quiet_logger (step : step_fn (ndarray R)) (scf_approx : Scf)
      (electrons : nat * nat) (f : logger_fn) (n : nat) :
  (forall calls t value, f calls t value = Ok tt) ->
  forall st1 st2,
    same_training st1 st2 ->
    match iterate_steps (loop_body step scf_approx electrons (Some f)) n st1,
          iterate_steps (loop_body step scf_approx electrons None) n st2 with
    | Ok st1', Ok st2' => same_training st1' st2'
    | Raise e1, Raise e2 => e1 = e2
    | _, _ => False
    end.
Proof.
  intros Hf. induction n as [|n IH]; intros st1 st2 Hsame; simpl; [exact Hsame|].
  specialize (IH st1 st2 Hsame).
  destruct (iterate_steps (loop_body step scf_approx electrons (Some f)) n st1)
    as [m1|e1];
    destruct (iterate_steps (loop_body step scf_approx electrons None) n st2)
      as [m2|e2]; simpl; try contradiction; [|exact IH].
  now apply loop_body_quiet_logger.
Qed.

(** X6. The logger only observes.  Whenever a run with a logger returns,
    the run without one returns the same parameters and configurations and
    writes the same lines, and the logger has been called with exactly the
    logged step numbers and losses, in order.  With a logger whose calls all
    return, the run returns or raises exactly as without a logger.  Without
    a logger nothing is called. *)
Theorem pretrain_logger_only_observes
    (params : Params) (data : ndarray R)
    (batch_network : network_fn) (batch_orbitals : orbitals_fn)
    (network_options : FermiNetOptions R EnvParams) (sharded_key : Key)
    (atoms : ndarray R) (electrons : nat * nat) (scf_approx : Scf)
    (iterations : Z) :
  let run := pretrain_hartree_fock params data batch_network batch_orbitals
               network_options sharded_key atoms electrons scf_approx iterations in
  (forall (f : logger_fn) p d info logged,
      run (Some f) = Ok (p, d, (info, logged)) ->
      logged = info /\ run None = Ok (p, d, (info, [])))
  /\
  (forall f : logger_fn,
      (forall calls t value, f calls t value = Ok tt) ->
      run (Some f) = (r <- run None ;; Ok (fst r, (fst (snd r), fst (snd r)))))
  /\
  (forall p d info logged,
      run None = Ok (p, d, (info, logged)) -> logged = []).
Proof.
  intros run. subst run. split; [|split].
  - intros f p d info logged H.
    rewrite pretrain_hartree_fock_unfold in H |- *.
    destruct (pmap_init (init (optax_adam (Rlit (3 # 10000)%Q))) params)
      as [opt_state_pt|e]; simpl bind in *; [|discriminate].
    destruct (pmap_network batch_network params data) as [pnetwork_out|e];
      simpl bind in *; [|discriminate].
    match type of H with
    | context [iterate_steps ?one_step ?n ?st] =>
        destruct (iterate_steps one_step n st) as [st1|e] eqn:E1;
        simpl in H; [|discriminate]
    end.
    injection H as <- <- <- <-.
    pose proof (iterate_steps_log _ _ _ _ _ _ E1) as (entries & Hi & _ & Hl).
    simpl in Hi, Hl. split; [congruence|].
    eapply iterate_steps_without_logger in E1 as (st2 & E2 & Hsame).
    2:{ unfold same_training. eauto 10. }
    rewrite E2. simpl.
    pose proof (iterate_steps_log _ _ _ _ _ _ E2) as (entries2 & _ & _ & Hl2).
    simpl in Hl2. rewrite Hl2.
    destruct Hsame as (Hd & Hp & _ & _ & _ & Hinfo). now rewrite Hd, Hp, Hinfo.
  - intros f Hf. rewrite !pretrain_hartree_fock_unfold. cbv beta zeta.
    destruct (pmap_init (init (optax_adam (Rlit (3 # 10000)%Q))) params)
      as [opt_state_pt|e]; simpl bind; [|reflexivity].
    destruct (pmap_network batch_network params data) as [pnetwork_out|e];
      simpl bind; [|reflexivity].
    match goal with
    | |- context [iterate_steps (loop_body ?step _ _ (Some f)) ?n ?st] =>
        assert (Hsame : same_training st st) by (unfold same_training; auto 10);
        pose proof (@iterate_steps_quiet_logger step scf_approx electrons f n Hf
                      st st Hsame) as H;
        clear Hsame;
        destruct (iterate_steps (loop_body step scf_approx electrons (Some f)) n st)
          as [st1|e1] eqn:E1;
        destruct (iterate_steps (loop_body step scf_approx electrons None) n st)
          as [st2|e2] eqn:E2
    end; simpl in H |- *; try contradiction; [|now f_equal].
    rename H into Hsame.
    pose proof (iterate_steps_log _ _ _ _ _ _ E1) as (entries & Hi & _ & Hl).
    simpl in Hi, Hl.
    destruct Hsame as (Hd & Hp & _ & _ & _ & Hinfo).
    rewrite Hl, <- Hi, Hd, Hp, Hinfo. reflexivity.
  - intros p d info logged H. rewrite pretrain_hartree_fock_unfold in H.
    destruct (pmap_init (init (optax_adam (Rlit (3 # 10000)%Q))) params)
      as [opt_state_pt|e]; simpl bind in *; [|discriminate].
    destruct (pmap_network batch_network params data) as [pnetwork_out|e];
      simpl bind in *; [|discriminate].
    match type of H with
    | context [iterate_steps ?one_step ?n ?st] =>
        destruct (iterate_steps one_step n st) as [st1|e] eqn:E1;
        simpl in H; [|discriminate]
    end.
    injection H as _ _ _ <-.
    pose proof (iterate_steps_log _ _ _ _ _ _ E1) as (entries & _ & _ & Hl).
    exact Hl.
Qed.

(** X7. The key chain.  After [n] passes the loop holds the initial key advanced
    [n] times by the first component of [p_split], whatever the steps
    computed; pass [t] hands its step the second component of the split of
    the key advanced [t] times. *)
Theorem pretrain_loop_key_chain (step : step_fn (ndarray R)) (scf_approx : Scf)
    (electrons : nat * nat) (logger : option logger_fn) (n : nat) :
  forall st0 st,
    iterate_steps (loop_body step scf_approx electrons logger) n st0 = Ok st ->
    ls_key st = Nat.iter n (fun k => fst (p_split k)) (ls_key st0)
    /\
    forall st', loop_body step scf_approx electrons logger st (Z.of_nat n) = Ok st' ->
      exists target loss,
        step (ls_data st) target (ls_params st) (ls_opt_state st)
          (snd (p_split (Nat.iter n (fun k => fst (p_split k)) (ls_key st0))))
          (ls_logprob st)
        = Ok (ls_data st', ls_params st', ls_opt_state st', loss, ls_logprob st').
Proof.
  induction n as [|n IH]; intros st0 st H; simpl in H.
  - injection H as <-. split; [reflexivity|].
    intros st' Hb. apply loop_body_inv in Hb.
    destruct Hb as (target & loss & loss0 & _ & Hs & _).
    exists [fst target; snd target], loss. exact Hs.
  - destruct (iterate_steps (loop_body step scf_approx electrons logger) n st0)
      as [st1|e] eqn:E1; simpl in H; [|discriminate].
    destruct (IH _ _ E1) as (Hk1 & _).
    pose proof H as Hb. apply loop_body_inv in Hb.
    destruct Hb as (_ & _ & _ & _ & _ & Hk & _).
    assert (Hkey : ls_key st
                   = Nat.iter (S n) (fun k => fst (p_split k)) (ls_key st0)).
    { simpl. now rewrite Hk, Hk1. }
    split; [exact Hkey|].
    intros st' Hb. apply loop_body_inv in Hb.
    destruct Hb as (target & loss & loss0 & _ & Hs & _).
    exists [fst target; snd target], loss. rewrite <- Hkey. exact Hs.
Qed.


(** ** The loss: targets and orbitals are paired by position *)

(** X8. With [full_det] false the targets are zipped with the network's orbital
    arrays, and the zip stops at the shorter of the two without complaint:
    if the network returns a single array, only the first target is fitted
    and the others do not enter the loss; if there is a single target, the
    network's further arrays do not enter it. *)
Theorem loss_fn_zip_stops_at_shorter
    (batch_envelope_fn : EnvParams -> ndarray R -> result (ndarray R))
    (batch_orbitals : orbitals_fn)
    (n B K na : nat) (p : Params) (x e t0 o0 : ndarray R) :
  batch_envelope_fn (envelope_of p) x = Ok e ->
  wf e -> shape e = [B] ->
  wf t0 -> shape t0 = [B; na; na] ->
  wf o0 -> shape o0 = [B; K; na; na] ->
  let fitted_first_only :=
    Ok (pmean (Rsum [mean (squared_difference_spec n B K na t0 e o0)])) in
  (batch_orbitals p x = [o0] ->
   forall other_targets,
     loss_fn batch_envelope_fn batch_orbitals false n p x (t0 :: other_targets)
     = fitted_first_only)
  /\
  (forall other_orbitals,
      batch_orbitals p x = o0 :: other_orbitals ->
      loss_fn batch_envelope_fn batch_orbitals false n p x [t0]
      = fitted_first_only).
Proof.
  intros He Hwe Hse Hw0 Hs0 Hwo Hso fitted_first_only. subst fitted_first_only.
  assert (Hhead : forall target,
            combine target (batch_orbitals p x) = [(t0, o0)] ->
            loss_fn batch_envelope_fn batch_orbitals false n p x target
            = Ok (pmean (Rsum [mean (squared_difference_spec n B K na t0 e o0)]))).
  { intros target Hc. unfold loss_fn. rewrite He. simpl bind.
    unfold Np.shape_last. simpl shape. rewrite Hse. simpl rev. cbv beta iota.
    simpl bind. rewrite reshape_envelope by (simpl; assumption). simpl bind.
    rewrite Hc. simpl mapM. simpl fst. simpl snd.
    change (map (fun v : R => Rexp (Rdiv v (Rof_nat n))) (data e))
      with (data (Np.map1 (fun v => Rexp (Rdiv v (Rof_nat n))) e)).
    rewrite (@mean_squared_difference_spec n B K na t0 e o0) by assumption.
    reflexivity. }
  split.
  - intros Ho other_targets. apply Hhead. rewrite Ho. simpl.
    now rewrite combine_nil.
  - intros other_orbitals Ho. apply Hhead. rewrite Ho. reflexivity.
Qed.


(** ** eval_orbitals: the leading dimensions only label the configurations *)

(** Two arrays whose shapes differ in the leading part only, with as many
    leading indices, and whose entries agree at leading indices of equal
    rank in C order, have the same buffer. *)
Lemma same_entries_same_data (b1 b2 : ndarray R) (l1 l2 t : Shape.t) :
  wf b1 -> wf b2 ->
  shape b1 = l1 ++ t -> shape b2 = l2 ++ t ->
  Shape.prod l1 = Shape.prod l2 ->
  (forall i1 i2 tail,
      Shape.in_bounds l1 i1 = true -> Shape.in_bounds l2 i2 = true ->
      Shape.ravel l1 i1 = Shape.ravel l2 i2 ->
      Shape.in_bounds t tail = true ->
      get b1 (i1 ++ tail) = get b2 (i2 ++ tail)) ->
  data b1 = data b2.
Proof.
  intros Hw1 Hw2 Hs1 Hs2 Hp Hget.
  apply nth_error_ext. intros k.
  unfold wf in Hw1, Hw2. rewrite Hs1, prod_app in Hw1. rewrite Hs2, prod_app in Hw2.
  destruct (Nat.lt_ge_cases k (Shape.prod l1 * Shape.prod t)) as [Hk|Hk].
  - assert (Ht : Shape.prod t <> 0) by (intro E; rewrite E in Hk; lia).
    set (q := k / Shape.prod t). set (r := k mod Shape.prod t).
    assert (Hq : q < Shape.prod l1).
    { apply Nat.Div0.div_lt_upper_bound. lia. }
    assert (Hr : r < Shape.prod t) by now apply Nat.mod_upper_bound.
    assert (Hkqr : k = q * Shape.prod t + r).
    { pose proof (Nat.div_mod_eq k (Shape.prod t)). subst q r. lia. }
    assert (Hq2 : q < Shape.prod l2) by lia.
    specialize (Hget (Shape.unravel l1 q) (Shape.unravel l2 q) (Shape.unravel t r)
                  (@unravel_in_bounds l1 q Hq) (@unravel_in_bounds l2 q Hq2)).
    rewrite !ravel_unravel in Hget by assumption.
    specialize (Hget eq_refl (@unravel_in_bounds t r Hr)).
    unfold get in Hget. rewrite Hs1, Hs2 in Hget.
    rewrite !in_bounds_app in Hget
      by (apply in_bounds_length; now apply unravel_in_bounds).
    rewrite !unravel_in_bounds in Hget by assumption. simpl in Hget.
    rewrite !ravel_app in Hget
      by (apply in_bounds_length; now apply unravel_in_bounds).
    rewrite !ravel_unravel in Hget by assumption.
    now rewrite Hkqr.
  - transitivity (@None R); [|symmetry]; apply nth_error_None; lia.
Qed.

(** X9. Rearranging the leading dimensions of the positions (a flat batch, or
    the same batch sharded over devices) rearranges the result in the same
    way and changes none of its entries: the matrices come out in the same
    order with the same values. *)
Theorem eval_orbitals_leading_dims_rearranged
    (scf_approx : Scf) (pos1 pos2 : pyobj R) (a1 a2 : ndarray R)
    (lead1 lead2 : Shape.t) (na nb nbasis : nat) (mo_a mo_b : ndarray R) :
  array_of pos1 = Some a1 -> array_of pos2 = Some a2 ->
  data a1 = data a2 ->
  shape a1 = lead1 ++ [(na + nb) * 3] ->
  shape a2 = lead2 ++ [(na + nb) * 3] ->
  Shape.prod lead1 = Shape.prod lead2 ->
  0 < size a1 ->
  eval_mos scf_approx (mk_ndarray [Shape.prod lead1 * (na + nb); 3] (data a1))
  = Ok [mo_a; mo_b] ->
  wf mo_a -> wf mo_b ->
  shape mo_a = [Shape.prod lead1 * (na + nb); nbasis] ->
  shape mo_b = [Shape.prod lead1 * (na + nb); nbasis] ->
  exists alpha1 beta1 alpha2 beta2,
    eval_orbitals scf_approx pos1 (na, nb) = Ok (alpha1, beta1) /\
    eval_orbitals scf_approx pos2 (na, nb) = Ok (alpha2, beta2) /\
    shape alpha1 = lead1 ++ [na; Nat.min na nbasis] /\
    shape alpha2 = lead2 ++ [na; Nat.min na nbasis] /\
    shape beta1 = lead1 ++ [nb; Nat.min nb nbasis] /\
    shape beta2 = lead2 ++ [nb; Nat.min nb nbasis] /\
    data alpha1 = data alpha2 /\
    data beta1 = data beta2.
Proof.
  intros Harr1 Harr2 Hdata Hs1 Hs2 Hp Hsize Hmos Hwa Hwb Hsa Hsb.
  assert (Hsize2 : 0 < size a2).
  { unfold size in *. rewrite Hs1, prod_app in Hsize. rewrite Hs2, prod_app.
    now rewrite <- Hp. }
  destruct (@eval_orbitals_returns scf_approx pos1 a1 lead1 na nb nbasis mo_a mo_b
              Harr1 Hs1 Hsize Hmos Hwa Hwb Hsa Hsb)
    as (alpha1 & beta1 & He1 & Hw1 & Hw1' & Hsh1 & Hsh1' & Hg1 & Hg1').
  rewrite Hp, Hdata in Hmos. rewrite Hp in Hsa, Hsb.
  destruct (@eval_orbitals_returns scf_approx pos2 a2 lead2 na nb nbasis mo_a mo_b
              Harr2 Hs2 Hsize2 Hmos Hwa Hwb Hsa Hsb)
    as (alpha2 & beta2 & He2 & Hw2 & Hw2' & Hsh2 & Hsh2' & Hg2 & Hg2').
  exists alpha1, beta1, alpha2, beta2.
  repeat split; auto.
  - apply same_entries_same_data
      with (l1 := lead1) (l2 := lead2) (t := [na; Nat.min na nbasis]); auto.
    intros i1 i2 tail Hi1 Hi2 Hr Ht.
    destruct tail as [|i [|j [|? ?]]]; simpl in Ht; try discriminate;
      try (now rewrite andb_false_r in Ht).
    2:{ rewrite !andb_false_r in Ht. discriminate. }
    rewrite andb_true_r in Ht. apply andb_prop in Ht. destruct Ht as [Hi Hj].
    apply Nat.ltb_lt in Hi, Hj.
    rewrite Hg1, Hg2 by assumption. now rewrite Hr.
  - apply same_entries_same_data
      with (l1 := lead1) (l2 := lead2) (t := [nb; Nat.min nb nbasis]); auto.
    intros i1 i2 tail Hi1 Hi2 Hr Ht.
    destruct tail as [|i [|j [|? ?]]]; simpl in Ht; try discriminate;
      try (now rewrite andb_false_r in Ht).
    2:{ rewrite !andb_false_r in Ht. discriminate. }
    rewrite andb_true_r in Ht. apply andb_prop in Ht. destruct Ht as [Hi Hj].
    apply Nat.ltb_lt in Hi, Hj.
    rewrite Hg1', Hg2' by assumption. now rewrite Hr.
Qed.


(** ** eval_orbitals: failures of the SCF object *)

(** X10. [eval_orbitals] catches nothing from [eval_mos]: an exception it raises
    is the exception of [eval_orbitals]; and when it returns a single spin
    channel, [eval_orbitals] fails with IndexError on reaching for the
    second. *)
Theorem eval_orbitals_eval_mos_failures
    (scf_approx : Scf) (pos : pyobj R) (a : ndarray R) (lead : Shape.t)
    (na nb : nat) :
  array_of pos = Some a ->
  shape a = lead ++ [(na + nb) * 3] ->
  let positions := mk_ndarray [Shape.prod lead * (na + nb); 3] (data a) in
  (forall e, eval_mos scf_approx positions = Raise e ->
             eval_orbitals scf_approx pos (na, nb) = Raise e)
  /\
  (forall mo nbasis,
      0 < size a ->
      eval_mos scf_approx positions = Ok [mo] ->
      shape mo = [Shape.prod lead * (na + nb); nbasis] ->
      eval_orbitals scf_approx pos (na, nb) = Raise IndexError).
Proof.
  intros Harr Hshape positions. subst positions.
  assert (Hprod : size a = Shape.prod lead * (na + nb) * 3).
  { unfold size. rewrite Hshape, prod_app. simpl. lia. }
  split.
  - intros e He. unfold eval_orbitals.
    rewrite checked_input_array with (a := a) by exact Harr. simpl bind.
    rewrite py_shape_array with (a := a) by exact Harr. simpl bind.
    rewrite py_reshape_rows_of_3 with (a := a) (n := Shape.prod lead * (na + nb))
      by assumption.
    simpl bind. now rewrite He.
  - intros mo nbasis Hsize He Hs. unfold eval_orbitals.
    rewrite checked_input_array with (a := a) by exact Harr. simpl bind.
    rewrite py_shape_array with (a := a) by exact Harr. simpl bind.
    rewrite py_reshape_rows_of_3 with (a := a) (n := Shape.prod lead * (na + nb))
      by assumption.
    simpl bind. rewrite He. simpl bind.
    rewrite Hshape. unfold Shape.init. rewrite removelast_last.
    simpl fst. simpl snd. simpl mapM. unfold Np.reshape.
    rewrite reshape_infer_last with (k := nbasis).
    + simpl bind. unfold Np.item. simpl nth_error. cbv beta iota.
      unfold Np.slice_last2. simpl shape.
      rewrite <- app_assoc, rev_app_distr. simpl rev. simpl app. reflexivity.
    + unfold size. rewrite Hs, prod_app. simpl. lia.
    + rewrite prod_app. simpl. nia.
Qed.

(** ** The block-diagonal target: what it needs *)

(** X11. The [full_det] branch indexes the two targets: with fewer than two it
    fails with IndexError.  And the two must have the same batch extent: the
    zero block is laid out with the batch extent of the first, so a second
    target with another batch extent cannot be concatenated to it. *)
Theorem full_det_target_needs_two_matching_targets :
  full_det_target [] = Raise IndexError
  /\ (forall t0, full_det_target [t0] = Raise IndexError)
  /\ (forall t0 t1 rest B B' na nb,
         shape t0 = [B; na; na] -> shape t1 = [B'; nb; nb] -> B <> B' ->
         full_det_target (t0 :: t1 :: rest) = Raise jax_shape_error).
Proof.
  split; [reflexivity|]. split.
  - intros t0. unfold full_det_target, Np.item, Np.shape_at.
    simpl nth_error. simpl bind.
    destruct (shape t0) as [|d0 [|d1 s]]; reflexivity.
  - intros t0 t1 rest B B' na nb Hs0 Hs1 Hne.
    unfold full_det_target, Np.item, Np.shape_at. simpl nth_error. simpl bind.
    rewrite Hs0, Hs1. simpl nth_error. simpl bind.
    unfold Np.concatenate_back at 1. simpl shape. rewrite Hs0.
    simpl rev. simpl nth_error. simpl Np.set_extent_rev.
    rewrite shape_eqb_refl. simpl bind.
    unfold Np.concatenate_back at 1. simpl shape. rewrite Hs1.
    simpl rev. simpl nth_error. simpl Np.set_extent_rev.
    unfold Np.shape_eqb.
    destruct (list_eq_dec Nat.eq_dec [0; nb; B] [0; nb; B']) as [E|_];
      [congruence|reflexivity].
Qed.

(** ** pretrain_hartree_fock: the first exception ends it *)

Lemma iterate_steps_raise_stays {St : Type} (one_step : St -> Z -> result St)
      (st : St) (e : exn) (n m : nat) :
  iterate_steps one_step n st = Raise e ->
  iterate_steps one_step (n + m) st = Raise e.
Proof.
  intros H. induction m as [|m IH].
  - now rewrite Nat.add_0_r.
  - rewrite Nat.add_succ_r. simpl. now rewrite IH.
Qed.

(** X12. Nothing is caught in the loop: once the optimizer state and the
    initial log probability are there, if pass [k] raises, be it in
    [eval_orbitals], in the step, at [loss[0]] or in the logger, then
    [pretrain_hartree_fock] raises that exception, and the parameters of the
    passes before are not returned. *)
Theorem pretrain_raises_first_exception
    (params : Params) (data : ndarray R)
    (batch_network : network_fn) (batch_orbitals : orbitals_fn)
    (network_options : FermiNetOptions R EnvParams) (sharded_key : Key)
    (atoms : ndarray R) (electrons : nat * nat) (scf_approx : Scf)
    (iterations : Z) (logger : option logger_fn) (k : nat) (st : loop_state) (e : exn)
    (opt_state_pt : OptState) (pnetwork_out : ndarray R) :
  let optimizer := optax_adam (Rlit (3 # 10000)%Q) in
  let device_step :=
    make_pretrain_step (jax_vmap_None_0 (envelope_fn network_options atoms))
      batch_orbitals batch_network (update optimizer) (full_det network_options) in
  let one_step := loop_body (pmap_step device_step) scf_approx electrons logger in
  let start :=
    mk_loop_state data params opt_state_pt sharded_key
      (Np.map1 (Rmul (Rlit 2)) pnetwork_out) [] [] in
  pmap_init (init optimizer) params = Ok opt_state_pt ->
  pmap_network batch_network params data = Ok pnetwork_out ->
  (Z.of_nat k < iterations)%Z ->
  iterate_steps one_step k start = Ok st ->
  one_step st (Z.of_nat k) = Raise e ->
  pretrain_hartree_fock params data batch_network batch_orbitals network_options
    sharded_key atoms electrons scf_approx iterations logger
  = Raise e.
Proof.
  intros optimizer device_step one_step start Hinit Hnet Hk Hst He.
  rewrite pretrain_hartree_fock_unfold. cbv beta zeta.
  fold optimizer. rewrite Hinit. simpl bind. rewrite Hnet. simpl bind.
  fold device_step. fold one_step. fold start.
  replace (Z.to_nat iterations) with (S k + (Z.to_nat iterations - S k)) by lia.
  rewrite iterate_steps_raise_stays with (e := e); [reflexivity|].
  simpl. rewrite Hst. simpl. exact He.
Qed.

(** ** pretrain_hartree_fock: the envelope *)

(** X13. Unless the envelope is of type POST_DETERMINANT, neither [atoms] nor the
    envelope's [apply] is used: the envelope function is the constant 0, and
    pretraining gives the same result whatever they are. *)
Theorem pretrain_atoms_used_by_post_determinant_only
    (params : Params) (data : ndarray R)
    (batch_network : network_fn) (batch_orbitals : orbitals_fn)
    (options1 options2 : FermiNetOptions R EnvParams) (sharded_key : Key)
    (atoms1 atoms2 : ndarray R) (electrons : nat * nat) (scf_approx : Scf)
    (iterations : Z) (logger : option logger_fn) :
  apply_type (envelope options1) <> POST_DETERMINANT ->
  apply_type (envelope options2) <> POST_DETERMINANT ->
  full_det options1 = full_det options2 ->
  pretrain_hartree_fock params data batch_network batch_orbitals options1
    sharded_key atoms1 electrons scf_approx iterations logger
  = pretrain_hartree_fock params data batch_network batch_orbitals options2
      sharded_key atoms2 electrons scf_approx iterations logger.
Proof.
  intros H1 H2 Hfull.
  assert (Henv : envelope_fn options1 atoms1 = envelope_fn options2 atoms2).
  { unfold envelope_fn.
    destruct (apply_type (envelope options1)), (apply_type (envelope options2));
      simpl; try reflexivity; contradiction. }
  unfold pretrain_hartree_fock. now rewrite Henv, Hfull.
Qed.

(** ** Outside the preconditions: no configurations, no iterations *)

(** X14. An empty position array (a zero leading dimension, or no electron)
    makes [eval_orbitals] raise, whatever [eval_mos] does: the extent [-1] of
    the reshape to [leading_dims + (nelec, -1)] cannot be inferred. *)
Lemma eval_orbitals_empty_input_raises
    (scf_approx : Scf) (pos : pyobj R) (a : ndarray R) (lead : Shape.t)
    (na nb : nat) :
  array_of pos = Some a ->
  shape a = lead ++ [(na + nb) * 3] ->
  size a = 0 ->
  exists e, eval_orbitals scf_approx pos (na, nb) = Raise e.
Proof.
  intros Harr Hshape Hsize.
  assert (Hz : Shape.prod (lead ++ [na + nb]) = 0).
  { unfold size in Hsize. rewrite Hshape, prod_app in Hsize.
    rewrite prod_app. simpl in *. lia. }
  unfold eval_orbitals.
  rewrite checked_input_array with (a := a) by exact Harr. simpl bind.
  rewrite py_shape_array with (a := a) by exact Harr. simpl bind.
  rewrite py_reshape_rows_of_3 with (a := a) (n := 0) by (auto; lia).
  simpl bind.
  destruct (eval_mos scf_approx (mk_ndarray [0; 3] (data a))) as [[|mo mos]|e];
    simpl; eauto.
  rewrite Hshape. unfold Shape.init. rewrite removelast_last. simpl fst. simpl snd.
  unfold Np.reshape. rewrite reshape_infer_last_empty by exact Hz.
  simpl. eauto.
Qed.

(** C6. Aufbau occupation and output shapes of [eval_orbitals], on an empty
    batch.  For a position array of shape [(..., nelec*3)] without entries
    (a leading dimension is 0) and an SCF object that evaluates its orbitals
    there, [eval_orbitals] does not return a pair of matrices with the
    leading dimensions of [pos]: the reshape of the orbitals to
    [leading_dims + (nelec, -1)] raises NumPy's ValueError. *)
Theorem eval_orbitals_raises_on_empty_batch
    (scf_approx : Scf) (pos : pyobj R) (a : ndarray R) (lead : Shape.t)
    (na nb : nat) (mo : ndarray R) (mos : list (ndarray R)) :
  array_of pos = Some a ->
  shape a = lead ++ [(na + nb) * 3] ->
  size a = 0 ->
  eval_mos scf_approx (mk_ndarray [0; 3] (data a)) = Ok (mo :: mos) ->
  eval_orbitals scf_approx pos (na, nb) = Raise (ValueError "cannot reshape array").
Proof.
  intros Harr Hshape Hsize Hmos.
  assert (Hz : Shape.prod (lead ++ [na + nb]) = 0).
  { unfold size in Hsize. rewrite Hshape, prod_app in Hsize.
    rewrite prod_app. simpl in *. lia. }
  unfold eval_orbitals.
  rewrite checked_input_array with (a := a) by exact Harr. simpl bind.
  rewrite py_shape_array with (a := a) by exact Harr. simpl bind.
  rewrite py_reshape_rows_of_3 with (a := a) (n := 0) by (auto; lia).
  simpl bind. rewrite Hmos. simpl bind.
  rewrite Hshape. unfold Shape.init. rewrite removelast_last. simpl fst. simpl snd.
  simpl mapM. unfold Np.reshape.
  rewrite reshape_infer_last_empty by exact Hz. reflexivity.
Qed.

(** X15. With [iterations] not positive the loop body never runs: once the
    optimizer state has been initialised and the network evaluated on the
    initial configurations, the parameters and configurations come back as
    they were and nothing is logged; an exception of either of these two
    calls is the exception of [pretrain_hartree_fock]. *)
Lemma pretrain_hartree_fock_no_iterations
    (params : Params) (data : ndarray R)
    (batch_network : network_fn) (batch_orbitals : orbitals_fn)
    (network_options : FermiNetOptions R EnvParams) (sharded_key : Key)
    (atoms : ndarray R) (electrons : nat * nat) (scf_approx : Scf)
    (iterations : Z) (logger : option logger_fn) :
  (iterations <= 0)%Z ->
  pretrain_hartree_fock params data batch_network batch_orbitals network_options
    sharded_key atoms electrons scf_approx iterations logger
  = (opt_state_pt <- pmap_init (init (optax_adam (Rlit (3 # 10000)%Q))) params ;;
     pnetwork_out <- pmap_network batch_network params data ;;
     Ok (params, data, ([], []))).
Proof.
  intros Hle. unfold pretrain_hartree_fock, range.
  replace (Z.to_nat iterations) with 0 by lia. reflexivity.
Qed.

End Pretrain.

(** * The definitions at work on the small system *)

Abbreviation toy_eval_orbitals := (eval_orbitals Toy.eval_mos tt).
Abbreviation toy_eval_slater :=
  (eval_slater Z.add Z.mul Toy.slogdet_matrix Toy.eval_mos tt).
Abbreviation toy_get_hf := (get_hf nat (Atom := nat) (Mole := nat)).
Abbreviation toy_loss_fn :=
  (loss_fn Toy.Rlit Z.add Z.sub Z.mul Z.div Toy.Rexp TypeError Toy.envelope_of
     Toy.pmean).
Abbreviation toy_envelope_fn :=
  (Toy.jax_vmap_None_0
     (envelope_fn Toy.Rlit Toy.construct_input_features
        (Toy.network_options false) (mk_ndarray [0] []))).
Abbreviation toy_make_pretrain_step :=
  (make_pretrain_step Toy.Rlit Z.add Z.sub Z.mul Z.div Toy.Rexp TypeError
     Toy.envelope_of
     Toy.optax_apply_updates Toy.jax_grad Toy.pmean Toy.pmean_tree Toy.mh_update).
Abbreviation toy_pretrain_hartree_fock :=
  (pretrain_hartree_fock Toy.Rlit Z.add Z.sub Z.mul Z.div Toy.Rexp Toy.eval_mos
     TypeError Toy.envelope_of Toy.optax_adam Toy.optax_apply_updates Toy.jax_grad
     Toy.jax_vmap_None_0 Toy.p_split Toy.pmean Toy.pmean_tree Toy.mh_update
     Toy.construct_input_features Toy.pmap_init Toy.pmap_step Toy.pmap_network).

Abbreviation toy_pmap_step :=
  (Toy.pmap_step
     (toy_make_pretrain_step toy_envelope_fn Toy.batch_orbitals Toy.batch_network
        (update (Toy.optax_adam (Toy.Rlit (3 # 10000)%Q))) false)).
Abbreviation toy_loop_body :=
  (loop_body Toy.eval_mos Toy.p_split toy_pmap_step tt (2, 1)).
Abbreviation toy_start :=
  (mk_loop_state Toy.pos 1%Z 0 0 (mk_ndarray [2] [12; 12]%Z) [] []).

(** Two configurations of two spin-up and one spin-down electron. *)
Example eval_orbitals_runs :
  toy_eval_orbitals (NumpyArray Toy.pos) (2, 1) = Ok (Toy.alpha, Toy.beta).
Proof. reflexivity. Qed.

Example eval_orbitals_same_on_jax_array :
  toy_eval_orbitals (JaxArray Toy.pos) (2, 1) = Ok (Toy.alpha, Toy.beta).
Proof. reflexivity. Qed.

(** With no configuration, the reshape to [leading_dims + (nelec, -1)]
    cannot infer the last extent. *)
Example eval_orbitals_no_configuration :
  toy_eval_orbitals (NumpyArray Toy.no_pos) (2, 1)
  = Raise (ValueError "cannot reshape array").
Proof. reflexivity. Qed.

(** Eight coordinates are no electrons: [np.reshape] refuses, for a JAX
    array too. *)
Example eval_orbitals_jax_array_of_size_8 :
  toy_eval_orbitals (JaxArray (mk_ndarray [2; 4] [3; 1; 4; 1; 5; 9; 2; 6]%Z)) (2, 1)
  = Raise (ValueError "cannot reshape array").
Proof. reflexivity. Qed.

(** An AttributeError that [copy()] raised from another exception. *)
Example eval_orbitals_copy_raises_with_cause :
  toy_eval_orbitals (ObjectCopyRaises (Chained AttributeError IndexError)) (2, 1)
  = Raise (Chained (ValueError "Input must be either NumPy or JAX array.")
             (Chained AttributeError IndexError)).
Proof. reflexivity. Qed.

(** With fewer orbitals than electrons of a spin, the slice is not square,
    and [slogdet] refuses it. *)
Example eval_orbitals_one_orbital :
  eval_orbitals Toy.eval_mos_one_orbital tt (NumpyArray Toy.pos) (2, 1)
  = Ok (mk_ndarray [2; 2; 1] [7; 7; 7; 7]%Z, mk_ndarray [2; 1; 1] [8; 8]%Z).
Proof. reflexivity. Qed.

Example eval_slater_one_orbital :
  eval_slater Z.add Z.mul Toy.slogdet_matrix Toy.eval_mos_one_orbital tt
    (NumpyArray Toy.pos) (2, 1)
  = Raise LinAlgError.
Proof. reflexivity. Qed.

(** A list has [copy()] but no [shape]. *)
Example eval_orbitals_on_a_list :
  toy_eval_orbitals (ObjectCopyReturns ObjectNoCopy) (2, 1) = Raise AttributeError.
Proof. reflexivity. Qed.

Example eval_slater_runs :
  toy_eval_slater (NumpyArray Toy.pos) (2, 1)
  = Ok (mk_ndarray [2] [1; -1]%Z, mk_ndarray [2] [4; 4]%Z).
Proof. reflexivity. Qed.

Example full_det_target_runs :
  full_det_target Toy.Rlit TypeError [Toy.alpha; Toy.beta]
  = Ok (mk_ndarray [2; 3; 3]
          [3; 4; 0; 1; 2; 0; 0; 0; 12; 3; 4; 0; 9; 10; 0; 0; 0; 4]%Z).
Proof. reflexivity. Qed.

Example loss_fn_runs :
  toy_loss_fn toy_envelope_fn Toy.batch_orbitals false 3 1%Z Toy.pos
    [Toy.alpha; Toy.beta]
  = Ok 86%Z.
Proof. reflexivity. Qed.

Example loss_fn_full_det_runs :
  toy_loss_fn toy_envelope_fn Toy.batch_orbitals_full true 3 1%Z Toy.pos
    [Toy.alpha; Toy.beta]
  = Ok 17%Z.
Proof. reflexivity. Qed.

Example pretrain_hartree_fock_two_iterations :
  toy_pretrain_hartree_fock 1%Z Toy.pos Toy.batch_network Toy.batch_orbitals
    (Toy.network_options false) 0 (mk_ndarray [0] []) (2, 1) tt 2%Z None
  = Ok ((-31)%Z,
        mk_ndarray [2; 9]
          [5; 3; 6; 3; 7; 11; 4; 8; 7; 5; 7; 10; 11; 9; 11; 5; 4; 5]%Z,
        ([(0%Z, mk_ndarray [] [86%Z]); (1%Z, mk_ndarray [] [335%Z])], [])).
Proof. reflexivity. Qed.

Example pretrain_hartree_fock_negative_iterations :
  toy_pretrain_hartree_fock 1%Z Toy.pos Toy.batch_network Toy.batch_orbitals
    (Toy.network_options false) 0 (mk_ndarray [0] []) (2, 1) tt (-3)%Z
    (Some (fun _ _ _ => Ok tt))
  = Ok (1%Z, Toy.pos, ([], [])).
Proof. reflexivity. Qed.

(** A logger that raises at its second call ends the run there. *)
Example pretrain_hartree_fock_logger_raises :
  toy_pretrain_hartree_fock 1%Z Toy.pos Toy.batch_network Toy.batch_orbitals
    (Toy.network_options false) 0 (mk_ndarray [0] []) (2, 1) tt 2%Z
    (Some (fun calls _ _ => match calls with [] => Ok tt | _ => Raise IndexError end))
  = Raise IndexError.
Proof. reflexivity. Qed.

(** The network is evaluated before the loop, whatever [iterations] is. *)
Example pretrain_hartree_fock_network_raises :
  pretrain_hartree_fock Toy.Rlit Z.add Z.sub Z.mul Z.div Toy.Rexp Toy.eval_mos
    TypeError Toy.envelope_of Toy.optax_adam Toy.optax_apply_updates Toy.jax_grad
    Toy.jax_vmap_None_0 Toy.p_split Toy.pmean Toy.pmean_tree Toy.mh_update
    Toy.construct_input_features Toy.pmap_init Toy.pmap_step
    (fun _ _ _ => Raise TypeError)
    1%Z Toy.pos Toy.batch_network Toy.batch_orbitals (Toy.network_options false) 0
    (mk_ndarray [0] []) (2, 1) tt 0%Z None
  = Raise TypeError.
Proof. reflexivity. Qed.

Example get_hf_with_pyscf_mol :
  exec Toy.scf_init Toy.scf_run
    (toy_get_hf (Some [1; 1]) (Some (1, 1)%Z) (Some "sto-3g"%string) (Some 5)
       (Some false)) (0, [])
  = ([CallInit (mk_call_args []
                  [("pyscf_mol"%string, ArgMole (Some 5));
                   ("restricted"%string, ArgBool (Some false))]);
      CallRun 0],
     Ok (0, (1, [0]))).
Proof. reflexivity. Qed.

Example get_hf_without_pyscf_mol :
  exec Toy.scf_init Toy.scf_run
    (toy_get_hf (Some [1; 1]) (Some (1, 1)%Z) (Some "sto-3g"%string) None
       (Some false)) (0, [])
  = ([CallInit (mk_call_args [ArgMolecule (Some [1; 1])]
                  [("nelectrons"%string, ArgSpins (Some (1, 1)%Z));
                   ("basis"%string, ArgBasis (Some "sto-3g"%string));
                   ("restricted"%string, ArgBool (Some false))]);
      CallRun 0],
     Ok (0, (1, [0]))).
Proof. reflexivity. Qed.

(** * The theorems at the small system *)

Lemma eval_orbitals_aufbau_witness :
  exists alpha beta,
    toy_eval_orbitals (NumpyArray Toy.pos) (2, 1) = Ok (alpha, beta) /\
    shape alpha = [2; 2; 2] /\ shape beta = [2; 1; 1] /\
    get alpha [1; 1; 0] = Some 9%Z /\ get beta [0; 0; 0] = Some 12%Z.
Proof.
  destruct (@eval_orbitals_aufbau Z unit Toy.eval_mos tt
              (NumpyArray Toy.pos)
              Toy.pos [2] 2 1 2
              (Toy.orbital_values 1 0 (mk_ndarray [6; 3] (data Toy.pos)))
              (Toy.orbital_values 0 2 (mk_ndarray [6; 3] (data Toy.pos))))
    as (alpha & beta & He & _ & _ & Ha & Hb & Hga & Hgb & _);
    try reflexivity; try (vm_compute; lia).
  exists alpha, beta. repeat split; try assumption.
  - change [1; 1; 0] with ([1] ++ [1; 0]).
    rewrite Hga; [reflexivity | reflexivity | lia | lia].
  - change [0; 0; 0] with ([0] ++ [0; 0]).
    rewrite Hgb; [reflexivity | reflexivity | lia | lia].
Defined.

Lemma eval_slater_log_domain_witness :
  exists sign log_abs,
    toy_eval_slater (NumpyArray Toy.pos) (2, 1) = Ok (sign, log_abs) /\
    shape sign = [2] /\ shape log_abs = [2] /\
    get sign [1] = Some (-1)%Z /\ get log_abs [1] = Some 4%Z.
Proof.
  destruct (@eval_slater_log_domain Z Z.add Z.mul Toy.slogdet_matrix unit
              Toy.eval_mos tt (NumpyArray Toy.pos) 2 1 [2] Toy.alpha
              Toy.beta
              eq_refl eq_refl eq_refl eq_refl eq_refl)
    as (sign & log_abs & He & Hs & Hl & Hg).
  exists sign, log_abs.
  destruct (Hg [1] eq_refl) as (A & B & HA & HB & Hsg & Hlg).
  vm_compute in HA, HB. injection HA as <-. injection HB as <-.
  repeat split; assumption.
Defined.

Lemma eval_orbitals_input_validation_witness :
  toy_eval_orbitals ObjectNoCopy (2, 1)
  = Raise (Chained (ValueError "Input must be either NumPy or JAX array.")
                   AttributeError)
  /\ checked_input (JaxArray Toy.pos) = Ok (JaxArray Toy.pos).
Proof.
  destruct (eval_orbitals_input_validation Toy.eval_mos)
    as (Hraise & _ & Hjax).
  split; [apply Hraise; reflexivity | apply Hjax].
Defined.

Lemma get_hf_constructs_and_runs_once_witness :
  exec Toy.scf_init Toy.scf_run
    (toy_get_hf None None (Some "sto-3g"%string) (Some 5) (Some false)) (0, [])
  = ([CallInit (mk_call_args []
                  [("pyscf_mol"%string, ArgMole (Some 5));
                   ("restricted"%string, ArgBool (Some false))]);
      CallRun 0],
     Ok (0, (1, [0]))).
Proof.
  pose proof (get_hf_constructs_and_runs_once (Atom := nat) (Mole := nat)
                Toy.scf_init Toy.scf_run None None (Some "sto-3g"%string)
                (Some 5) (Some false) (0, [])) as H.
  cbv zeta in H. destruct H as (_ & H & _).
  exact (H 0 (1, []) (1, [0]) eq_refl eq_refl).
Defined.

Lemma pretrain_fits_hartree_fock_witness :
  (* two passes of the loop *)
  toy_pretrain_hartree_fock 1%Z Toy.pos Toy.batch_network Toy.batch_orbitals
    (Toy.network_options false) 0 (mk_ndarray [0] []) (2, 1) tt 2%Z None
  = Ok ((-31)%Z,
        mk_ndarray [2; 9]
          [5; 3; 6; 3; 7; 11; 4; 8; 7; 5; 7; 10; 11; 9; 11; 5; 4; 5]%Z,
        ([(0%Z, mk_ndarray [] [86%Z]); (1%Z, mk_ndarray [] [335%Z])], []))
  /\
  (* the first of them *)
  toy_loop_body None toy_start 0%Z
  = Ok (mk_loop_state
          (mk_ndarray [2; 9]
             [4; 2; 5; 2; 6; 10; 3; 7; 6; 4; 6; 9; 10; 8; 10; 4; 3; 4]%Z)
          20%Z 1 2 (mk_ndarray [2] [50; 50]%Z)
          [(0%Z, mk_ndarray [] [86%Z])] [])
  /\
  (* its loss and its device step *)
  toy_loss_fn toy_envelope_fn Toy.batch_orbitals false 3 1%Z Toy.pos
    [Toy.alpha; Toy.beta]
  = Ok 86%Z
  /\
  exists data' logprob',
    toy_make_pretrain_step toy_envelope_fn Toy.batch_orbitals Toy.batch_network
      (update (Toy.optax_adam (Toy.Rlit (3 # 10000)%Q))) false
      Toy.pos [Toy.alpha; Toy.beta] 1%Z 0 1 (mk_ndarray [2] [12; 12]%Z)
    = Ok (data', 20%Z, 1, 86%Z, logprob').
Proof.
  pose proof (pretrain_fits_hartree_fock Toy.Rlit Z.add Z.sub Z.mul Z.div Toy.Rexp
                Toy.eval_mos TypeError Toy.envelope_of Toy.optax_adam
                Toy.optax_apply_updates Toy.jax_grad Toy.jax_vmap_None_0
                Toy.p_split Toy.pmean Toy.pmean_tree Toy.mh_update
                Toy.construct_input_features Toy.pmap_init Toy.pmap_step
                Toy.pmap_network
                1%Z Toy.pos Toy.batch_network Toy.batch_orbitals
                (Toy.network_options false) 0 (mk_ndarray [0] []) (2, 1) tt 2%Z
                None) as H.
  cbv zeta in H. destruct H as (Hrun & _ & Hpass & _ & _ & Hdev).
  split; [rewrite Hrun; reflexivity|].
  split.
  { apply (Hpass toy_start 0%Z (Toy.alpha, Toy.beta)
             (mk_ndarray [2; 9]
                [4; 2; 5; 2; 6; 10; 3; 7; 6; 4; 6; 9; 10; 8; 10; 4; 3; 4]%Z)
             20%Z 1 (mk_ndarray [1] [86%Z]) (mk_ndarray [2] [50; 50]%Z)
             (mk_ndarray [] [86%Z]));
      [reflexivity | reflexivity | reflexivity | discriminate]. }
  destruct (Hdev Toy.pos Toy.alpha Toy.beta Toy.envelope_output 1%Z 0 1
              (mk_ndarray [2] [12; 12]%Z) 2 2 1
              eq_refl eq_refl eq_refl eq_refl eq_refl eq_refl eq_refl)
    as (Hsplit & _ & Hstep).
  assert (Hloss : toy_loss_fn toy_envelope_fn Toy.batch_orbitals false 3 1%Z
                    Toy.pos [Toy.alpha; Toy.beta] = Ok 86%Z).
  { etransitivity.
    - apply (Hsplit eq_refl (Np.full [2; 1; 2; 2] 1%Z) (Np.full [2; 1; 1; 1] 1%Z)
               1 1 eq_refl eq_refl eq_refl eq_refl eq_refl).
    - reflexivity. }
  split; [exact Hloss|].
  destruct (Hstep 86%Z Hloss) as (data' & logprob' & Hs).
  exists data', logprob'. exact Hs.
Defined.

Lemma pretrain_mcmc_coupling_witness :
  toy_make_pretrain_step toy_envelope_fn Toy.batch_orbitals Toy.batch_network
    (update (Toy.optax_adam (Toy.Rlit (3 # 10000)%Q))) false
    Toy.pos [Toy.alpha; Toy.beta] 1%Z 0 7 (mk_ndarray [2] [12; 12]%Z)
  = Ok (fst (fst (fst (Toy.mh_update 20%Z Toy.batch_network Toy.pos 7
                         (mk_ndarray [2] [12; 12]%Z) 0%Z))),
        20%Z, 1, 86%Z,
        snd (fst (Toy.mh_update 20%Z Toy.batch_network Toy.pos 7
                    (mk_ndarray [2] [12; 12]%Z) 0%Z))).
Proof.
  pose proof (pretrain_mcmc_coupling Toy.Rlit Z.add Z.sub Z.mul Z.div Toy.Rexp
                Toy.eval_mos TypeError Toy.envelope_of Toy.optax_adam
                Toy.optax_apply_updates Toy.jax_grad Toy.jax_vmap_None_0
                Toy.p_split Toy.pmean Toy.pmean_tree Toy.mh_update
                Toy.construct_input_features Toy.pmap_init Toy.pmap_step
                Toy.pmap_network
                1%Z Toy.pos Toy.batch_network Toy.batch_orbitals
                (Toy.network_options false) 0 (mk_ndarray [0] []) (2, 1) tt 2%Z
                None) as H.
  cbv zeta in H. destruct H as (Hstep & _).
  rewrite Hstep. reflexivity.
Defined.

Lemma eval_orbitals_empty_input_raises_witness :
  exists e, toy_eval_orbitals (NumpyArray Toy.no_pos) (2, 1) = Raise e.
Proof.
  apply (@eval_orbitals_empty_input_raises Z unit Toy.eval_mos tt
           (NumpyArray Toy.no_pos) Toy.no_pos [0] 2 1);
    reflexivity.
Defined.

Lemma pretrain_hartree_fock_no_iterations_witness :
  toy_pretrain_hartree_fock 1%Z Toy.pos Toy.batch_network Toy.batch_orbitals
    (Toy.network_options false) 0 (mk_ndarray [0] []) (2, 1) tt (-3)%Z
    (Some (fun _ _ _ => Ok tt))
  = Ok (1%Z, Toy.pos, ([], [])).
Proof.
  etransitivity; [apply pretrain_hartree_fock_no_iterations; lia | reflexivity].
Defined.

Lemma eval_orbitals_raises_on_empty_batch_witness :
  toy_eval_orbitals (NumpyArray Toy.no_pos) (2, 1)
  = Raise (ValueError "cannot reshape array").
Proof.
  apply (@eval_orbitals_raises_on_empty_batch Z unit Toy.eval_mos tt
           (NumpyArray Toy.no_pos) Toy.no_pos [0] 2 1
           (Toy.orbital_values 1 0 (mk_ndarray [0; 3] []))
           [Toy.orbital_values 0 2 (mk_ndarray [0; 3] [])]);
    reflexivity.
Defined.

Lemma pretrain_logger_only_observes_witness :
  toy_pretrain_hartree_fock 1%Z Toy.pos Toy.batch_network Toy.batch_orbitals
    (Toy.network_options false) 0 (mk_ndarray [0] []) (2, 1) tt 2%Z
    (Some (fun _ _ _ => Ok tt))
  = Ok ((-31)%Z,
        mk_ndarray [2; 9]
          [5; 3; 6; 3; 7; 11; 4; 8; 7; 5; 7; 10; 11; 9; 11; 5; 4; 5]%Z,
        ([(0%Z, mk_ndarray [] [86%Z]); (1%Z, mk_ndarray [] [335%Z])],
         [(0%Z, mk_ndarray [] [86%Z]); (1%Z, mk_ndarray [] [335%Z])])).
Proof.
  pose proof (pretrain_logger_only_observes Toy.Rlit Z.add Z.sub Z.mul Z.div
                Toy.Rexp Toy.eval_mos TypeError Toy.envelope_of Toy.optax_adam
                Toy.optax_apply_updates Toy.jax_grad Toy.jax_vmap_None_0
                Toy.p_split Toy.pmean Toy.pmean_tree Toy.mh_update
                Toy.construct_input_features Toy.pmap_init Toy.pmap_step
                Toy.pmap_network
                1%Z Toy.pos Toy.batch_network Toy.batch_orbitals
                (Toy.network_options false) 0 (mk_ndarray [0] []) (2, 1) tt 2%Z)
    as H.
  cbv zeta in H. destruct H as (_ & Hquiet & _).
  etransitivity; [apply (Hquiet (fun _ _ _ => Ok tt)); reflexivity | reflexivity].
Defined.

Lemma eval_orbitals_size_not_multiple_of_3_witness :
  toy_eval_orbitals (NumpyArray (mk_ndarray [2; 4] [3; 1; 4; 1; 5; 9; 2; 6]%Z)) (2, 1)
  = Raise (ValueError "cannot reshape array")
  /\ toy_eval_orbitals (JaxArray (mk_ndarray [2; 4] [3; 1; 4; 1; 5; 9; 2; 6]%Z)) (2, 1)
     = Raise (ValueError "cannot reshape array").
Proof.
  apply (eval_orbitals_size_not_multiple_of_3 Toy.eval_mos tt
           (mk_ndarray [2; 4] [3; 1; 4; 1; 5; 9; 2; 6]%Z) (2, 1)).
  vm_compute. lia.
Defined.

Lemma too_few_orbitals_clip_then_fail_witness :
  (exists alpha beta,
      eval_orbitals Toy.eval_mos_one_orbital tt (NumpyArray Toy.pos) (2, 1)
      = Ok (alpha, beta) /\
      shape alpha = [2; 2; 1] /\ shape beta = [2; 1; 1])
  /\ eval_slater Z.add Z.mul Toy.slogdet_matrix Toy.eval_mos_one_orbital tt
       (NumpyArray Toy.pos) (2, 1)
     = Raise LinAlgError.
Proof.
  apply (@too_few_orbitals_clip_then_fail Z Z.add Z.mul Toy.slogdet_matrix unit
           Toy.eval_mos_one_orbital tt (NumpyArray Toy.pos) Toy.pos [2]
           2 1 1 (mk_ndarray [6; 1] (repeat 7%Z 6)) (mk_ndarray [6; 1] (repeat 8%Z 6)));
    try reflexivity; try (vm_compute; lia).
Defined.

Lemma eval_orbitals_reads_occupied_only_witness :
  eval_orbitals Toy.eval_mos_n 2 (NumpyArray Toy.pos) (2, 1)
  = eval_orbitals Toy.eval_mos_n 3 (NumpyArray Toy.pos) (2, 1).
Proof.
  apply (@eval_orbitals_reads_occupied_only Z nat Toy.eval_mos_n 2 3
           (NumpyArray Toy.pos) Toy.pos [2] 2 1 2 3
           (Toy.orbital_values_n 2 1 0 (mk_ndarray [6; 3] (data Toy.pos)))
           (Toy.orbital_values_n 2 0 2 (mk_ndarray [6; 3] (data Toy.pos)))
           (Toy.orbital_values_n 3 1 0 (mk_ndarray [6; 3] (data Toy.pos)))
           (Toy.orbital_values_n 3 0 2 (mk_ndarray [6; 3] (data Toy.pos))));
    try reflexivity; try (vm_compute; lia).
  - intros [|[|[|l0]] [|? ?]] i j Hl Hi Hj; try discriminate Hl.
    all: destruct i as [|[|i]]; try lia.
    all: destruct j as [|[|j]]; try lia; reflexivity.
  - intros [|[|[|l0]] [|? ?]] i j Hl Hi Hj; try discriminate Hl.
    all: destruct i as [|i]; try lia.
    all: destruct j as [|j]; try lia; reflexivity.
Defined.

Lemma pretrain_loop_key_chain_witness :
  exists st,
    iterate_steps (toy_loop_body None) 2 toy_start = Ok st
    /\ ls_key st = 4.
Proof.
  eexists. split.
  - vm_compute. reflexivity.
  - refine (eq_trans (proj1 (@pretrain_loop_key_chain Z unit Toy.eval_mos
                               Z nat nat Toy.p_split toy_pmap_step
                               tt (2, 1) None 2 toy_start _ _)) _).
    + vm_compute. reflexivity.
    + reflexivity.
Defined.

Lemma loss_fn_zip_stops_at_shorter_witness :
  toy_loss_fn toy_envelope_fn (fun p _ => [Np.full [2; 1; 2; 2] p]) false 3 1%Z
    Toy.pos [Toy.alpha; Toy.beta]
  = Ok 21%Z
  /\
  toy_loss_fn toy_envelope_fn Toy.batch_orbitals false 3 1%Z Toy.pos [Toy.alpha]
  = Ok 21%Z.
Proof.
  split.
  - destruct (@loss_fn_zip_stops_at_shorter Z Toy.Rlit Z.add Z.sub Z.mul Z.div
                Toy.Rexp TypeError Z Z Toy.envelope_of Toy.pmean toy_envelope_fn
                (fun p _ => [Np.full [2; 1; 2; 2] p]) 3 2 1 2 1%Z Toy.pos
                Toy.envelope_output Toy.alpha (Np.full [2; 1; 2; 2] 1%Z)
                eq_refl eq_refl eq_refl eq_refl eq_refl eq_refl eq_refl)
      as (H & _).
    rewrite (H eq_refl [Toy.beta]). reflexivity.
  - destruct (@loss_fn_zip_stops_at_shorter Z Toy.Rlit Z.add Z.sub Z.mul Z.div
                Toy.Rexp TypeError Z Z Toy.envelope_of Toy.pmean toy_envelope_fn
                Toy.batch_orbitals 3 2 1 2 1%Z Toy.pos
                Toy.envelope_output Toy.alpha (Np.full [2; 1; 2; 2] 1%Z)
                eq_refl eq_refl eq_refl eq_refl eq_refl eq_refl eq_refl)
      as (_ & H).
    rewrite (H [Np.full [2; 1; 1; 1] 1%Z] eq_refl). reflexivity.
Defined.

Lemma eval_orbitals_leading_dims_rearranged_witness :
  exists alpha1 beta1 alpha2 beta2,
    toy_eval_orbitals (NumpyArray Toy.pos) (2, 1) = Ok (alpha1, beta1) /\
    toy_eval_orbitals (JaxArray (mk_ndarray [1; 2; 9] (data Toy.pos))) (2, 1)
    = Ok (alpha2, beta2) /\
    shape alpha1 = [2; 2; 2] /\ shape alpha2 = [1; 2; 2; 2] /\
    shape beta1 = [2; 1; 1] /\ shape beta2 = [1; 2; 1; 1] /\
    data alpha1 = data alpha2 /\ data beta1 = data beta2.
Proof.
  apply (@eval_orbitals_leading_dims_rearranged Z unit Toy.eval_mos tt
           (NumpyArray Toy.pos) (JaxArray (mk_ndarray [1; 2; 9] (data Toy.pos)))
           Toy.pos (mk_ndarray [1; 2; 9] (data Toy.pos)) [2] [1; 2] 2 1 2
           (Toy.orbital_values 1 0 (mk_ndarray [6; 3] (data Toy.pos)))
           (Toy.orbital_values 0 2 (mk_ndarray [6; 3] (data Toy.pos))));
    try reflexivity; vm_compute; lia.
Defined.

Lemma eval_orbitals_eval_mos_failures_witness :
  eval_orbitals (fun (_ : unit) (_ : ndarray Z) => Raise LinAlgError) tt
    (NumpyArray Toy.pos) (2, 1)
  = Raise LinAlgError
  /\
  eval_orbitals (fun (_ : unit) pos => Ok [Toy.orbital_values 1 0 pos]) tt
    (NumpyArray Toy.pos) (2, 1)
  = Raise IndexError.
Proof.
  split.
  - apply (@eval_orbitals_eval_mos_failures Z unit
             (fun (_ : unit) (_ : ndarray Z) => Raise LinAlgError) tt
             (NumpyArray Toy.pos) Toy.pos [2] 2 1 eq_refl eq_refl).
    reflexivity.
  - apply (proj2 (@eval_orbitals_eval_mos_failures Z unit
                    (fun (_ : unit) pos => Ok [Toy.orbital_values 1 0 pos])
                    tt (NumpyArray Toy.pos) Toy.pos [2] 2 1 eq_refl eq_refl))
      with (mo := Toy.orbital_values 1 0 (mk_ndarray [6; 3] (data Toy.pos)))
           (nbasis := 2);
      [vm_compute; lia | reflexivity | reflexivity].
Defined.

Lemma pretrain_raises_first_exception_witness :
  pretrain_hartree_fock Toy.Rlit Z.add Z.sub Z.mul Z.div Toy.Rexp
    (fun (_ : unit) pos =>
       match get pos [0; 0] with
       | Some 3%Z => Toy.eval_mos tt pos
       | _ => Raise LinAlgError
       end)
    TypeError Toy.envelope_of Toy.optax_adam Toy.optax_apply_updates Toy.jax_grad
    Toy.jax_vmap_None_0 Toy.p_split Toy.pmean Toy.pmean_tree Toy.mh_update
    Toy.construct_input_features Toy.pmap_init Toy.pmap_step Toy.pmap_network
    1%Z Toy.pos Toy.batch_network Toy.batch_orbitals (Toy.network_options false) 0
    (mk_ndarray [0] []) (2, 1) tt 3%Z None
  = Raise LinAlgError.
Proof.
  eapply (@pretrain_raises_first_exception Z Toy.Rlit Z.add Z.sub Z.mul Z.div
            Toy.Rexp unit
            (fun (_ : unit) pos =>
               match get pos [0; 0] with
               | Some 3%Z => Toy.eval_mos tt pos
               | _ => Raise LinAlgError
               end)
            TypeError Z Z Z nat nat Z Toy.envelope_of Toy.optax_adam
            Toy.optax_apply_updates Toy.jax_grad Toy.jax_vmap_None_0 Toy.p_split
            Toy.pmean Toy.pmean_tree Toy.mh_update Toy.construct_input_features
            Toy.pmap_init Toy.pmap_step Toy.pmap_network
            1%Z Toy.pos Toy.batch_network Toy.batch_orbitals
            (Toy.network_options false) 0 (mk_ndarray [0] []) (2, 1) tt 3%Z None 1
            _ _ 0 (mk_ndarray [2] [6; 6]%Z)).
  - reflexivity.
  - reflexivity.
  - lia.
  - vm_compute. reflexivity.
  - vm_compute. reflexivity.
Defined.

Lemma pretrain_atoms_used_by_post_determinant_only_witness :
  toy_pretrain_hartree_fock 1%Z Toy.pos Toy.batch_network Toy.batch_orbitals
    (Toy.network_options false) 0 (mk_ndarray [0] []) (2, 1) tt 2%Z None
  = toy_pretrain_hartree_fock 1%Z Toy.pos Toy.batch_network Toy.batch_orbitals
      {| envelope := {| apply_type := PRE_DETERMINANT;
                        apply := fun ae r_ae r_ee p => ae |};
         full_det := false |}
      0 (mk_ndarray [1; 3] [0; 0; 0]%Z) (2, 1) tt 2%Z None.
Proof.
  apply pretrain_atoms_used_by_post_determinant_only;
    [discriminate | discriminate | reflexivity].
Defined.
